(** * Research agent: orchestration loop, tool gateway, history compressor
      and memory store

    A shallow embedding of [agent.ts], [memory.ts], [compress.ts] and
    [types.ts], and the properties of the specification proved (or refuted)
    on it; followed by the parts of [sheets.ts], [scrape.ts],
    [parse-request.ts] and [telegram.ts] that compute on their arguments,
    with further properties of the code.

    Conventions of the embedding.
    - A JavaScript string is its sequence of UTF-16 code units
      ([jsstring]); literals are written as UTF-8 text and decoded by [js].
    - A JavaScript object used as a dictionary ([knownServices], [facts])
      is a [gmap]; keys that name a member inherited from
      [Object.prototype] are outside the model. Where the order in which
      an object enumerates its keys shows ([getMemoryContext]), the
      enumeration is a parameter.
    - Module-level mutable arrays ([sessionCandidates], [sessionQueries]),
      the conversation and the memory file are threaded explicitly through
      a loop state.
    - The reasoning engine, the search and extraction back ends, the
      summarizer, the spreadsheet export and the clock are collaborators
      whose code is not part of the orchestration: they are fields of an
      environment record [Env]. Exceptions are modelled where the
      orchestration code catches or rethrows them (engine invocation, tool
      execution, summarization).
    - The text [getMemoryContext] renders and the system prompt built from
      it only flow into the engine, which is a collaborator: the model of
      the loop keeps the selection of the relevant sessions and leaves the
      text out. The rendering is modelled on its own.
    - [console.log] output and the floating-point cost estimate are left
      out; token counts are kept. *)

From Stdlib Require Import ZArith List Ascii String Lia Bool Sorting.Sorted.
From Stdlib Require Import Floats.PrimFloat Uint63.
From stdpp Require Import base option list gmap fin_maps sorting.

Local Open Scope Z_scope.

(** ** JavaScript strings *)

Module JsString.

Abbreviation jsstring := (list N).

(** Code points of a UTF-8 byte sequence. *)
Fixpoint utf8_decode (bs : list N) : list N :=
  match bs with
  | [] => []
  | b :: rest =>
    if (b <? 128)%N then b :: utf8_decode rest
    else if (b <? 224)%N then
      match rest with
      | b1 :: rest' =>
        (N.land b 31 * 64 + N.land b1 63)%N :: utf8_decode rest'
      | _ => [b]
      end
    else if (b <? 240)%N then
      match rest with
      | b1 :: b2 :: rest' =>
        (N.land b 15 * 4096 + N.land b1 63 * 64 + N.land b2 63)%N
          :: utf8_decode rest'
      | _ => [b]
      end
    else
      match rest with
      | b1 :: b2 :: b3 :: rest' =>
        (N.land b 7 * 262144 + N.land b1 63 * 4096
         + N.land b2 63 * 64 + N.land b3 63)%N :: utf8_decode rest'
      | _ => [b]
      end
  end.

(** UTF-16 code units of a code point: astral code points are a surrogate
    pair. *)
Definition utf16_units (cp : N) : list N :=
  if (cp <? 65536)%N then [cp]
  else
    let c := (cp - 65536)%N in
    [(55296 + N.shiftr c 10)%N; (56320 + N.land c 1023)%N].

Definition bytes_of_string (s : string) : list N :=
  map N_of_ascii (list_ascii_of_string s).

(** A string literal of the source, as the code units JavaScript holds. *)
Definition js (s : string) : jsstring :=
  flat_map utf16_units (utf8_decode (bytes_of_string s)).

Arguments js : simpl never.

(** [String.prototype.toLowerCase] and [toUpperCase] on one code unit,
    for Basic Latin and the Russian alphabet (the alphabets the keyword
    class of [extractKeywords] admits), together with the two characters
    outside them whose lower case falls into that class: the Kelvin sign
    (U+212A, lower case [k]) and dotted capital I (U+0130, lower case [i]
    followed by U+0307). Every other code unit is kept; the built-in maps
    some of them to other code units, none of which is in the keyword
    class. *)
Definition lower_unit (c : N) : list N :=
  if (65 <=? c)%N && (c <=? 90)%N then [(c + 32)%N]
  else if (1040 <=? c)%N && (c <=? 1071)%N then [(c + 32)%N]
  else if (c =? 1025)%N then [1105%N]
  else if (c =? 8490)%N then [107%N]
  else if (c =? 304)%N then [105%N; 775%N]
  else [c].

Definition toLowerCase (s : jsstring) : jsstring := flat_map lower_unit s.

Definition upper_unit (c : N) : list N :=
  if (97 <=? c)%N && (c <=? 122)%N then [(c - 32)%N]
  else if (1072 <=? c)%N && (c <=? 1103)%N then [(c - 32)%N]
  else if (c =? 1105)%N then [1025%N]
  else [c].

Definition toUpperCase (s : jsstring) : jsstring := flat_map upper_unit s.

(** White space and line terminators: the class [\s] of regular
    expressions, which is also what [trim] strips. *)
Definition is_space (c : N) : bool :=
  ((9 <=? c)%N && (c <=? 13)%N) || (c =? 32)%N || (c =? 160)%N
  || (c =? 5760)%N || ((8192 <=? c)%N && (c <=? 8202)%N)
  || (c =? 8232)%N || (c =? 8233)%N || (c =? 8239)%N || (c =? 8287)%N
  || (c =? 12288)%N || (c =? 65279)%N.

Fixpoint trimStart (s : jsstring) : jsstring :=
  match s with
  | c :: s' => if is_space c then trimStart s' else s
  | [] => []
  end.

Definition trimEnd (s : jsstring) : jsstring := rev (trimStart (rev s)).

Definition trim (s : jsstring) : jsstring := trimEnd (trimStart s).

(** [Array.prototype.join]. *)
Fixpoint join (sep : jsstring) (parts : list jsstring) : jsstring :=
  match parts with
  | [] => []
  | [p] => p
  | p :: ps => p ++ sep ++ join sep ps
  end.

(** [String.prototype.repeat]. *)
Fixpoint repeat_string (s : jsstring) (n : nat) : jsstring :=
  match n with
  | O => []
  | S n' => s ++ repeat_string s n'
  end.

(** Decimal rendering of a non-negative integer, as a template literal
    prints an array length or a time in milliseconds. The fuel is the
    number of binary digits, which bounds the number of decimal ones. *)
Fixpoint digits_fuel (fuel : nat) (n : N) (acc : jsstring) : jsstring :=
  match fuel with
  | O => acc
  | S fuel' =>
    let acc' := (48 + n mod 10)%N :: acc in
    if (n / 10 =? 0)%N then acc' else digits_fuel fuel' (n / 10)%N acc'
  end.

Definition N_to_string (n : N) : jsstring := digits_fuel (S (N.size_nat n)) n [].

Definition nat_to_string (n : nat) : jsstring := N_to_string (N.of_nat n).

End JsString.
Export JsString.

(** ** Array and string slices *)

(** The relative index of [slice]: a negative index counts from the end,
    and both are clamped to the length. *)
Definition slice_index (len i : Z) : Z :=
  if i <? 0 then Z.max (len + i) 0 else Z.min i len.

(** [Array.prototype.slice(start, end)] and [String.prototype.slice];
    [None] for an omitted [end]. *)
Definition js_slice {A} (l : list A) (start : Z) (end_ : option Z) : list A :=
  let len := Z.of_nat (length l) in
  let from := slice_index len start in
  let to := match end_ with Some e => slice_index len e | None => len end in
  take (Z.to_nat (to - from)) (drop (Z.to_nat from) l).

(** ** Data model ([types.ts]) *)

Abbreviation number := float.

Record HardCriterion := {
  hc_field : jsstring;
  hc_description : jsstring;
}.

Record SoftCriterion := {
  sc_description : jsstring;
  sc_weight : number;
}.

Record ResearchCriteria := {
  hard : list HardCriterion;
  soft : list SoftCriterion;
}.

Record HardResult := {
  hr_criterion : jsstring;
  hr_passed : bool;
  hr_evidence : jsstring;
}.

Record SoftScore := {
  ss_criterion : jsstring;
  ss_score : number;
  ss_reasoning : jsstring;
}.

(** The verdict of a record is the string the evaluate call carried: the
    declared union is erased at run time. [verdict_union] is the union
    [types.ts] declares, [verdict_enum] the enumeration of the evaluate
    tool's input schema in [agent.ts]. *)
Definition verdict_union : list jsstring :=
  [js "pass"; js "fail"; js "partial"].

Definition verdict_enum : list jsstring :=
  [js "pass"; js "fail"; js "needs_more_info"].

Record CandidateRecord := {
  name : jsstring;
  url : option jsstring;
  verdict : jsstring;
  hardResults : list HardResult;
  softScores : list SoftScore;
  rejectionReason : option jsstring;
  notes : option jsstring;
}.

Record ResearchSession := {
  session_id : jsstring;
  timestamp : jsstring;
  task : jsstring;
  criteria : ResearchCriteria;
  candidates : list CandidateRecord;
  bestMatch : option jsstring;
  searchQueries : list jsstring;
  conclusion : jsstring;
}.

Record KnownService := {
  svc_url : option jsstring;
  lastChecked : jsstring;
  facts : gmap jsstring jsstring;
  svc_verdict : option jsstring;
  svc_notes : list jsstring;
}.

Record MemoryStore := {
  sessions : list ResearchSession;
  knownServices : gmap jsstring KnownService;
}.

Record Cost := {
  inputTokens : nat;
  outputTokens : nat;
}.

Record ResearchResult := {
  answer : jsstring;
  iterations : nat;
  toolCalls : nat;
  candidatesEvaluated : nat;
  sheetUrl : option jsstring;
  cost : Cost;
}.

(** A value is truthy unless it is [undefined] or the empty string. *)
Definition truthy (o : option jsstring) : option jsstring :=
  match o with
  | Some [] => None
  | _ => o
  end.

(** ** The host environment

    What the orchestration code calls but does not define. The reasoning
    engine is indexed by the iteration and the attempt of the invocation,
    a tool back end by the ordinal of the tool call and the summarizer by
    an ordinal of its own, so that a collaborator may answer the same
    request differently; the clock is indexed by the iteration at which it
    is read. *)

Inductive Role := user | assistant.

(** The input object of a tool call: the properties [executeTool] and
    [handleEvaluation] read, typed as their casts type them. The optional
    ones are [None] when absent. *)
Record ToolInput := {
  in_query : jsstring;
  in_context : jsstring;
  in_url : option jsstring;
  in_what_to_extract : jsstring;
  in_name : jsstring;
  in_hard_criteria : list HardResult;
  in_soft_criteria : option (list SoftScore);
  in_verdict : jsstring;
  in_rejection_reason : option jsstring;
  in_notes : option jsstring;
}.

Record ToolUseBlock := {
  tu_id : jsstring;
  tu_name : jsstring;
  tu_input : ToolInput;
}.

Record ToolResultBlockParam := {
  tool_use_id : jsstring;
  tr_content : jsstring;
  is_error : bool;
}.

(** A block of an engine message; [OtherBlock] is a block that is neither
    text nor a tool call. *)
Inductive ContentBlock :=
  | Text (text : jsstring)
  | ToolUse (t : ToolUseBlock)
  | OtherBlock.

Inductive MessageContent :=
  | StringContent (s : jsstring)
  | BlockContent (blocks : list ContentBlock)
  | ResultContent (results : list ToolResultBlockParam).

Record MessageParam := {
  role : Role;
  content : MessageContent;
}.

(** [other_stop] is any stop reason the loop does not branch on. *)
Inductive StopReason := end_turn | tool_use | other_stop.

Record Message := {
  msg_content : list ContentBlock;
  stop_reason : StopReason;
  usage_input_tokens : nat;
  usage_output_tokens : nat;
}.

(** What a rejected engine invocation throws: [status] is the HTTP status
    when the error carries one. *)
Record ApiError := {
  status : option nat;
  err_message : jsstring;
}.

Inductive EngineReply :=
  | Resolved (m : Message)
  | Rejected (e : ApiError).

(** A tool back end returns its text or throws (the message of the thrown
    value). *)
Inductive ToolReply :=
  | ToolText (s : jsstring)
  | ToolThrows (msg : jsstring).

(** The collaborators, together with the two renderings of numbers the
    code uses: the template literal and [toFixed]. *)
Record Env := {
  numberToString : number -> jsstring;
  toFixed : number -> nat -> jsstring;
  messages_create : nat -> nat -> list MessageParam -> EngineReply;
  serperSearch : nat -> jsstring -> ToolReply;
  geminiGroundedSearch : nat -> jsstring -> jsstring -> ToolReply;
  extractFromUrl : nat -> option jsstring -> jsstring -> ToolReply;
  getPageText : nat -> option jsstring -> ToolReply;
  generateSummary : nat -> list MessageParam -> option jsstring;
  exportToSheets : ResearchSession -> Cost -> jsstring;
  dateNow : nat -> N;
  toISOString : nat -> jsstring;
}.

(** ** Memory store ([memory.ts]) *)

Definition includes {A} `{EqDecision A} (l : list A) (x : A) : bool :=
  bool_decide (x ∈ l).

(** The class [[a-zа-яё0-9\s]] of the keyword pattern. *)
Definition keyword_class (c : N) : bool :=
  ((97 <=? c)%N && (c <=? 122)%N)
  || ((1072 <=? c)%N && (c <=? 1103)%N)
  || (c =? 1105)%N
  || ((48 <=? c)%N && (c <=? 57)%N)
  || is_space c.

(** [split(/\s+/)]: the pieces between maximal runs of white space, the
    empty pieces at both ends included. *)
Fixpoint split_spaces (s : jsstring) (cur : jsstring) (in_gap : bool)
  : list jsstring :=
  match s with
  | [] => [rev cur]
  | c :: s' =>
    if is_space c then
      if in_gap then split_spaces s' cur true
      else rev cur :: split_spaces s' [] true
    else split_spaces s' (c :: cur) false
  end.

Definition stop_words : list jsstring :=
  map js
    ["that"; "this"; "with"; "from"; "have"; "been"; "will"; "should";
     "could"; "would"; "must"; "they"; "their"; "about"; "which"; "there";
     "were"; "what"; "when"; "find"; "need"; "search"; "look";
     "найти"; "нужно"; "искать"; "поиск"; "должен"; "может"; "также";
     "через"; "более"; "после"; "перед"]%string.

Definition extractKeywords (text : jsstring) : list jsstring :=
  let lowered := toLowerCase text in
  let replaced := map (fun c => if keyword_class c then c else 32%N) lowered in
  let words := split_spaces replaced [] false in
  let long := filter (fun w => (3 < length w)%nat) words in
  filter (fun w => negb (includes stop_words w)) long.

(** [Array.prototype.sort(compare)] is a stable sort: an element goes
    before another when [compare] puts it strictly first, and elements
    that compare equal keep their order. *)
Fixpoint sort_insert {A} (compare : A -> A -> Z) (x : A) (l : list A)
  : list A :=
  match l with
  | [] => [x]
  | y :: l' =>
    if compare y x <? 0 then y :: sort_insert compare x l'
    else x :: l
  end.

Definition js_sort {A} (compare : A -> A -> Z) (l : list A) : list A :=
  foldr (sort_insert compare) [] l.

Record Scored := {
  session : ResearchSession;
  score : Z;
}.

Definition DEFAULT_MAX_SESSIONS : Z := 5.

(** The array [scored] of [getMemoryContext]: every stored session with the
    number of task keywords found among the keywords of its task and
    conclusion. *)
Definition scored (store : MemoryStore) (task_text : jsstring) : list Scored :=
  let taskWords := extractKeywords task_text in
  map (fun s =>
         let sessionWords :=
           extractKeywords (task s ++ js " " ++ conclusion s) in
         let overlap :=
           length (filter (fun w => includes sessionWords w) taskWords) in
         {| session := s; score := Z.of_nat overlap |})
      (sessions store).

(** The array [relevant] of [getMemoryContext], which the context text
    renders in this order. *)
Definition relevant (store : MemoryStore) (task_text : jsstring)
    (maxSessions : Z) : list Scored :=
  js_slice
    (js_sort (fun a b => score b - score a)
       (filter (fun s => 0 < score s) (scored store task_text)))
    0 (Some maxSessions).

(** [saveSession]: the body of the loop over the candidates. *)
Definition hardFact (hr : HardResult) : jsstring * jsstring :=
  (hr_criterion hr,
   (if hr_passed hr then js "YES" else js "NO") ++ js " — " ++ hr_evidence hr).

Definition softFact (env : Env) (sr : SoftScore) : jsstring * jsstring :=
  (js "soft:" ++ ss_criterion sr,
   numberToString env (ss_score sr) ++ js "/10 — " ++ ss_reasoning sr).

Definition storeFact (fs : gmap jsstring jsstring) (kv : jsstring * jsstring)
  : gmap jsstring jsstring :=
  <[kv.1 := kv.2]> fs.

(** The assignments to [svc.facts] one candidate makes, in order. *)
Definition factWrites (env : Env) (c : CandidateRecord)
  : list (jsstring * jsstring) :=
  map hardFact (hardResults c) ++ map (softFact env) (softScores c).

Definition serviceKey (c : CandidateRecord) : jsstring :=
  trim (toLowerCase (name c)).

Definition newService (ts : jsstring) : KnownService :=
  {| svc_url := None; lastChecked := ts; facts := ∅;
     svc_verdict := None; svc_notes := [] |}.

Definition updateService (env : Env) (ts : jsstring) (c : CandidateRecord)
    (svc : KnownService) : KnownService :=
  let notes1 :=
    match truthy (rejectionReason c) with
    | Some r =>
      svc_notes svc
        ++ [js "Rejected (" ++ js_slice ts 0 (Some 10) ++ js "): " ++ r]
    | None => svc_notes svc
    end in
  let notes2 :=
    match truthy (notes c) with
    | Some n => notes1 ++ [n]
    | None => notes1
    end in
  {| svc_url :=
       match truthy (url c) with Some u => Some u | None => svc_url svc end;
     lastChecked := ts;
     facts := foldl storeFact (facts svc) (factWrites env c);
     svc_verdict := Some (verdict c);
     svc_notes :=
       if (10 <? length notes2)%nat then js_slice notes2 (-10) None
       else notes2 |}.

Definition upsertCandidate (env : Env) (ts : jsstring)
    (services : gmap jsstring KnownService) (c : CandidateRecord)
  : gmap jsstring KnownService :=
  let key := serviceKey c in
  let svc :=
    match services !! key with
    | Some svc => svc
    | None => newService ts
    end in
  <[key := updateService env ts c svc]> services.

Definition MAX_SESSIONS : nat := 50.

Definition saveSession (env : Env) (store : MemoryStore)
    (s : ResearchSession) : MemoryStore :=
  let pushed := sessions store ++ [s] in
  let services :=
    foldl (upsertCandidate env (timestamp s)) (knownServices store)
      (candidates s) in
  {| sessions :=
       if (MAX_SESSIONS <? length pushed)%nat
       then js_slice pushed (- Z.of_nat MAX_SESSIONS) None
       else pushed;
     knownServices := services |}.


(** ** History compressor ([compress.ts]) *)

Definition nl : jsstring := [10%N].

Definition COMPRESS_EVERY : nat := 3.

Definition DEFAULT_KEEP_LAST_EXCHANGES : Z := 2.

Definition acknowledgement : MessageParam :=
  {| role := assistant;
     content :=
       StringContent
         (js "I'll begin researching this. Let me start by reviewing my progress so far.") |}.

Definition summaryTurn (compressed : nat) (summary : jsstring)
  : MessageParam :=
  {| role := user;
     content :=
       StringContent
         (js "[RESEARCH PROGRESS SUMMARY — compressed from "
          ++ nat_to_string compressed ++ js " previous exchanges]"
          ++ nl ++ nl ++ summary ++ nl ++ nl
          ++ js "[END SUMMARY — continuing research from here]") |}.

(** [compressHistory]. The summarizer [generateSummary] stands for the
    model call on the fixed instruction around [serializeMessages(middle)];
    [None] is a failed call, which the [catch] turns into the input. The
    second argument is the ordinal of the summarization. *)
Definition compressHistory (env : Env) (ordinal : nat)
    (messages : list MessageParam) (keepLastExchanges : Z)
  : list MessageParam :=
  if (length messages <? 6)%nat then messages
  else
    match messages with
    | [] => messages
    | firstMessage :: _ =>
      let tailCount := keepLastExchanges * 2 in
      let tail := js_slice messages (- tailCount) None in
      let middle := js_slice messages 1 (Some (- tailCount)) in
      if (length middle <? 4)%nat then messages
      else
        match generateSummary env ordinal middle with
        | Some summary =>
          [firstMessage; acknowledgement;
           summaryTurn (length middle) summary] ++ tail
        | None => messages
        end
    end.

(** ** Tool gateway ([agent.ts]) *)

Definition MAX_ITERATIONS : nat := 10.

Definition MAX_RESULT : nat := 4000.

(** [handleEvaluation]: the record pushed on [sessionCandidates]. *)
Definition candidateOf (input : ToolInput) : CandidateRecord :=
  {| name := in_name input;
     url := in_url input;
     verdict := in_verdict input;
     hardResults := in_hard_criteria input;
     softScores := default [] (in_soft_criteria input);
     rejectionReason := in_rejection_reason input;
     notes := in_notes input |}.

Definition hardLine (passed total : nat) : jsstring :=
  js "Hard criteria: " ++ nat_to_string passed ++ js "/"
  ++ nat_to_string total ++ js " "
  ++ (if (passed =? total)%nat then js "✅ ALL PASSED" else js "❌ FAILED")
  ++ nl.

Definition hardDetail (r : HardResult) : jsstring :=
  js "  " ++ (if hr_passed r then js "✅" else js "❌") ++ js " "
  ++ hr_criterion r ++ nl ++ js "     " ++ hr_evidence r ++ nl.

Definition average (scores : list SoftScore) : number :=
  PrimFloat.div
    (foldl (fun s x => PrimFloat.add s (ss_score x)) PrimFloat.zero scores)
    (PrimFloat.of_uint63 (Uint63.of_Z (Z.of_nat (length scores)))).

Definition softDetail (env : Env) (s : SoftScore) : jsstring :=
  js "  " ++ numberToString env (ss_score s) ++ js "/10 — "
  ++ ss_criterion s ++ nl ++ js "     " ++ ss_reasoning s ++ nl.

Definition softSection (env : Env) (scores : list SoftScore) : jsstring :=
  if (0 <? length scores)%nat then
    nl ++ js "Soft criteria: avg " ++ toFixed env (average scores) 1
    ++ js "/10" ++ nl ++ concat (map (softDetail env) scores)
  else [].

Definition verdictSection (c : CandidateRecord) : jsstring :=
  nl ++ js "Verdict: " ++ toUpperCase (verdict c)
  ++ match truthy (rejectionReason c) with
     | Some r => js " — " ++ r
     | None => []
     end
  ++ match truthy (notes c) with
     | Some n => nl ++ js "Notes: " ++ n
     | None => []
     end
  ++ nl.

Definition reportHeader (c : CandidateRecord) : jsstring :=
  nl ++ js "📊 EVALUATION: " ++ name c ++ nl
  ++ repeat_string (js "─") 50 ++ nl.

Definition handleEvaluation (env : Env) (input : ToolInput)
    (sessionCandidates : list CandidateRecord)
  : list CandidateRecord * jsstring :=
  let candidate := candidateOf input in
  let passed := length (filter (fun r => hr_passed r) (hardResults candidate)) in
  let total := length (hardResults candidate) in
  let report :=
    reportHeader candidate
    ++ hardLine passed total
    ++ concat (map hardDetail (hardResults candidate))
    ++ softSection env (softScores candidate)
    ++ verdictSection candidate in
  (sessionCandidates ++ [candidate], report).

(** The session-scoped accumulators a tool call may extend. *)
Record Accumulators := {
  sessionCandidates : list CandidateRecord;
  sessionQueries : list jsstring;
}.

(** [executeTool]; the first argument is the ordinal of the call. *)
Definition executeTool (env : Env) (ordinal : nat) (tool : jsstring)
    (input : ToolInput) (acc : Accumulators) : Accumulators * ToolReply :=
  if decide (tool = js "google_search") then
    ({| sessionCandidates := sessionCandidates acc;
        sessionQueries := sessionQueries acc ++ [in_query input] |},
     serperSearch env ordinal (in_query input))
  else if decide (tool = js "discover") then
    ({| sessionCandidates := sessionCandidates acc;
        sessionQueries :=
          sessionQueries acc ++ [js "[discover] " ++ in_query input] |},
     geminiGroundedSearch env ordinal (in_query input) (in_context input))
  else if decide (tool = js "extract_page") then
    (acc, extractFromUrl env ordinal (in_url input) (in_what_to_extract input))
  else if decide (tool = js "read_page") then
    (acc, getPageText env ordinal (in_url input))
  else if decide (tool = js "evaluate") then
    let (cands, report) := handleEvaluation env input (sessionCandidates acc) in
    ({| sessionCandidates := cands; sessionQueries := sessionQueries acc |},
     ToolText report)
  else (acc, ToolThrows (js "Unknown tool: " ++ tool)).

(** ** Orchestration loop ([agent.ts]) *)

(** The variables of [runResearchAgent], the module-level accumulators and
    the memory file. *)
Record LoopState := {
  st_messages : list MessageParam;
  st_iterations : nat;
  st_toolCallCount : nat;
  st_totalInputTokens : nat;
  st_totalOutputTokens : nat;
  st_acc : Accumulators;
  st_disk : MemoryStore;
}.

(** The result block pushed for one tool call: the capped text, or the
    error-flagged message of what was thrown. *)
Definition capResult (result : jsstring) : jsstring :=
  if (MAX_RESULT <? length result)%nat then
    js_slice result 0 (Some (Z.of_nat MAX_RESULT)) ++ nl ++ nl
    ++ js "[Truncated: " ++ nat_to_string (length result)
    ++ js " chars total. Key info above.]"
  else result.

Definition toolResultOf (call : ToolUseBlock) (reply : ToolReply)
  : ToolResultBlockParam :=
  match reply with
  | ToolText result =>
    {| tool_use_id := tu_id call; tr_content := capResult result;
       is_error := false |}
  | ToolThrows msg =>
    {| tool_use_id := tu_id call; tr_content := js "Error: " ++ msg;
       is_error := true |}
  end.

(** The loop over [toolBlocks]: the call counter, the accumulators and the
    results pushed so far. *)
Definition ToolLoop : Type := nat * Accumulators * list ToolResultBlockParam.

Definition runToolCall (env : Env) (s : ToolLoop) (call : ToolUseBlock)
  : ToolLoop :=
  let '(count, acc, results) := s in
  let count' := S count in
  let (acc', reply) :=
    executeTool env count' (tu_name call) (tu_input call) acc in
  (count', acc', results ++ [toolResultOf call reply]).

Arguments runToolCall : simpl never.

Definition runToolCalls (env : Env) (s : ToolLoop)
    (calls : list ToolUseBlock) : ToolLoop :=
  foldl (runToolCall env) s calls.

Definition toolBlocksOf (blocks : list ContentBlock) : list ToolUseBlock :=
  omap (fun b => match b with ToolUse t => Some t | _ => None end) blocks.

Definition textBlocksOf (blocks : list ContentBlock) : list jsstring :=
  omap (fun b => match b with Text t => Some t | _ => None end) blocks.

(** The retry loop around [messages.create]. [Unassigned] is the loop
    running out with [response] never assigned. *)
Inductive Attempted :=
  | Responded (m : Message)
  | Threw (e : ApiError)
  | Unassigned.

Definition backoff (attempt : nat) : nat := Nat.min (15 * (attempt + 1)) 60.

Definition rateLimited (e : ApiError) : bool :=
  bool_decide (status e = Some 429%nat).

(** [remaining] is [5 - attempt]; the second component lists the waits, in
    seconds, in the order they were slept. *)
Fixpoint createWithRetry (env : Env) (iteration : nat)
    (messages : list MessageParam) (remaining attempt : nat)
  : Attempted * list nat :=
  match remaining with
  | O => (Unassigned, [])
  | S remaining' =>
    match messages_create env iteration attempt messages with
    | Resolved m => (Responded m, [])
    | Rejected e =>
      if rateLimited e && (attempt <? 4)%nat then
        let (r, waits) :=
          createWithRetry env iteration messages remaining' (S attempt) in
        (r, backoff attempt :: waits)
      else (Threw e, [])
    end
  end.

(** How a run ends. [undefinedResponse] is the [TypeError] of reading
    [response.usage] with [response] unassigned. *)
Inductive Thrown :=
  | engineError (e : ApiError)
  | undefinedResponse.

Inductive Outcome :=
  | Returned (r : ResearchResult)
  | Rejects (t : Thrown).

Inductive Step :=
  | Continue (st : LoopState)
  | Done (o : Outcome) (st : LoopState).

Definition sessionId (env : Env) (clock : nat) : jsstring :=
  js "session_" ++ N_to_string (dateNow env clock).

(** The session assembled on the finish intent. *)
Definition finishedSession (env : Env) (task_text : jsstring)
    (c : ResearchCriteria) (st : LoopState) (finalText : jsstring)
  : ResearchSession :=
  {| session_id := sessionId env (st_iterations st);
     timestamp := toISOString env (st_iterations st);
     task := task_text;
     criteria := c;
     candidates := sessionCandidates (st_acc st);
     bestMatch :=
       name <$> head (filter (fun c => verdict c = js "pass")
                        (sessionCandidates (st_acc st)));
     searchQueries := sessionQueries (st_acc st);
     conclusion := js_slice finalText 0 (Some 500) |}.

(** The session assembled after the loop, at the iteration cap. *)
Definition exhaustedSession (env : Env) (task_text : jsstring)
    (c : ResearchCriteria) (st : LoopState) : ResearchSession :=
  {| session_id := sessionId env (st_iterations st);
     timestamp := toISOString env (st_iterations st);
     task := task_text;
     criteria := c;
     candidates := sessionCandidates (st_acc st);
     bestMatch := None;
     searchQueries := sessionQueries (st_acc st);
     conclusion :=
       js "Reached max iterations (" ++ nat_to_string MAX_ITERATIONS
       ++ js "). Evaluated "
       ++ nat_to_string (length (sessionCandidates (st_acc st)))
       ++ js " candidates." |}.

Definition costOf (st : LoopState) : Cost :=
  {| inputTokens := st_totalInputTokens st;
     outputTokens := st_totalOutputTokens st |}.

Definition persist (env : Env) (s : ResearchSession) (st : LoopState)
  : LoopState :=
  {| st_messages := st_messages st;
     st_iterations := st_iterations st;
     st_toolCallCount := st_toolCallCount st;
     st_totalInputTokens := st_totalInputTokens st;
     st_totalOutputTokens := st_totalOutputTokens st;
     st_acc := st_acc st;
     st_disk := saveSession env (st_disk st) s |}.

(** The branch [stop_reason === "end_turn"]. *)
Definition finish (env : Env) (task_text : jsstring) (c : ResearchCriteria)
    (st : LoopState) (response : Message) : Step :=
  let finalText := join nl (textBlocksOf (msg_content response)) in
  let s := finishedSession env task_text c st finalText in
  let st' := persist env s st in
  let sheet := exportToSheets env s (costOf st) in
  Done (Returned
          {| answer := finalText;
             iterations := st_iterations st;
             toolCalls := st_toolCallCount st;
             candidatesEvaluated := length (sessionCandidates (st_acc st));
             sheetUrl := truthy (Some sheet);
             cost := costOf st |})
       st'.

(** The branch [stop_reason === "tool_use"]. *)
Definition useTools (env : Env) (st : LoopState) (response : Message)
  : LoopState :=
  let '(count, acc, toolResults) :=
    runToolCalls env (st_toolCallCount st, st_acc st, [])
      (toolBlocksOf (msg_content response)) in
  {| st_messages :=
       st_messages st
       ++ [ {| role := assistant;
               content := BlockContent (msg_content response) |};
            {| role := user; content := ResultContent toolResults |} ];
     st_iterations := st_iterations st;
     st_toolCallCount := count;
     st_totalInputTokens := st_totalInputTokens st;
     st_totalOutputTokens := st_totalOutputTokens st;
     st_acc := acc;
     st_disk := st_disk st |}.

Definition compressionDue (iteration : nat) : bool :=
  (1 <? iteration)%nat && ((iteration - 1) mod COMPRESS_EVERY =? 0)%nat.

(** The conversation an iteration sends: compressed when the iteration is
    a compression boundary. *)
Definition conversation (env : Env) (st : LoopState) : list MessageParam :=
  if compressionDue (S (st_iterations st))
  then compressHistory env (S (st_iterations st)) (st_messages st)
         DEFAULT_KEEP_LAST_EXCHANGES
  else st_messages st.

(** The state after [iterations++], the compression step and, with a
    response, the accumulation of its usage. *)
Definition entered (env : Env) (st : LoopState) (usage : option Message)
  : LoopState :=
  {| st_messages := conversation env st;
     st_iterations := S (st_iterations st);
     st_toolCallCount := st_toolCallCount st;
     st_totalInputTokens :=
       st_totalInputTokens st
       + from_option usage_input_tokens 0%nat usage;
     st_totalOutputTokens :=
       st_totalOutputTokens st
       + from_option usage_output_tokens 0%nat usage;
     st_acc := st_acc st;
     st_disk := st_disk st |}.

(** One turn of the [while] loop. *)
Definition iteration (env : Env) (task_text : jsstring)
    (c : ResearchCriteria) (st : LoopState) : Step :=
  match
    fst (createWithRetry env (S (st_iterations st)) (conversation env st) 5 0)
  with
  | Threw e => Done (Rejects (engineError e)) (entered env st None)
  | Unassigned => Done (Rejects undefinedResponse) (entered env st None)
  | Responded response =>
    let st' := entered env st (Some response) in
    match stop_reason response with
    | end_turn => finish env task_text c st' response
    | tool_use => Continue (useTools env st' response)
    | other_stop => Continue st'
    end
  end.

(** The return after the loop. *)
Definition exhausted (env : Env) (task_text : jsstring)
    (c : ResearchCriteria) (st : LoopState) : Outcome * LoopState :=
  let s := exhaustedSession env task_text c st in
  let n := length (sessionCandidates (st_acc st)) in
  (Returned
     {| answer :=
          js "Research stopped after " ++ nat_to_string MAX_ITERATIONS
          ++ js " iterations. Evaluated " ++ nat_to_string n
          ++ js " candidates. Results saved to memory.";
        iterations := st_iterations st;
        toolCalls := st_toolCallCount st;
        candidatesEvaluated := n;
        sheetUrl := None;
        cost := costOf st |},
   persist env s st).

Arguments exhausted : simpl never.
Arguments finish : simpl never.
Arguments iteration : simpl never.

(** [while (iterations < MAX_ITERATIONS)]: [fuel] bounds the number of
    turns the model may take, and [None] is running out of it. *)
Fixpoint agentLoop (env : Env) (task_text : jsstring) (c : ResearchCriteria)
    (fuel : nat) (st : LoopState) : option (Outcome * LoopState) :=
  if (st_iterations st <? MAX_ITERATIONS)%nat then
    match fuel with
    | O => None
    | S fuel' =>
      match iteration env task_text c st with
      | Continue st' => agentLoop env task_text c fuel' st'
      | Done o st' => Some (o, st')
      end
    end
  else Some (exhausted env task_text c st).

(** The state at the head of the loop: the accumulators emptied, the task
    as the only turn, and the memory file as it is on disk. *)
Definition initialState (store : MemoryStore) (task_text : jsstring)
  : LoopState :=
  {| st_messages := [ {| role := user; content := StringContent task_text |} ];
     st_iterations := 0;
     st_toolCallCount := 0;
     st_totalInputTokens := 0;
     st_totalOutputTokens := 0;
     st_acc := {| sessionCandidates := []; sessionQueries := [] |};
     st_disk := store |}.

Definition runResearchAgent (env : Env) (store : MemoryStore) (fuel : nat)
    (task_text : jsstring) (c : ResearchCriteria)
  : option (Outcome * LoopState) :=
  agentLoop env task_text c fuel (initialState store task_text).





(** The verdicts of the records are among the three values of the tool
    schema. *)
Definition verdictsWithinEnum (cs : list CandidateRecord) : Prop :=
  Forall (fun c => verdict c ∈ verdict_enum) cs.

(** The evaluate calls an engine message asks for carry a verdict of the
    tool schema. *)
Definition followsSchema (m : Message) : Prop :=
  Forall (fun t => tu_name t = js "evaluate" ->
                   in_verdict (tu_input t) ∈ verdict_enum)
    (toolBlocksOf (msg_content m)).

(** ** Further string operations

    The string methods used by the spreadsheet export, the page reader and
    the messenger front end. *)

(** Whether [pat] occurs in [s] at index [i]. *)
Definition occursAt (s pat : jsstring) (i : nat) : bool :=
  bool_decide (take (length pat) (drop i s) = pat).

(** [String.prototype.startsWith]. *)
Definition startsWith (s pat : jsstring) : bool := occursAt s pat 0.

(** [String.prototype.indexOf]: the least index at which [pat] occurs,
    searched from index [from] on. *)
Fixpoint indexFrom (s pat : jsstring) (from : nat) : option nat :=
  if bool_decide (take (length pat) s = pat) then Some from
  else
    match s with
    | [] => None
    | _ :: s' => indexFrom s' pat (S from)
    end.

Definition indexOf (s pat : jsstring) : option nat := indexFrom s pat 0.

(** [String.prototype.replace] with a string pattern: the first occurrence
    of [pat] is replaced. The replacement [by_] is inserted as it is, which
    is the built-in's behaviour for a replacement without a dollar sign. *)
Definition replaceFirst (s pat by_ : jsstring) : jsstring :=
  match indexOf s pat with
  | Some i => take i s ++ by_ ++ drop (i + length pat) s
  | None => s
  end.

(** [String.prototype.lastIndexOf(pat, position)]: the greatest index not
    above [position] at which [pat] occurs, [-1] when there is none. The
    position is clamped to the length of the string. *)
Fixpoint lastIndexFrom (s pat : jsstring) (i : nat) : Z :=
  if occursAt s pat i then Z.of_nat i
  else
    match i with
    | O => -1
    | S i' => lastIndexFrom s pat i'
    end.

Definition lastIndexOf (s pat : jsstring) (position : Z) : Z :=
  let len := length s in
  let searchLen := length pat in
  if (len <? searchLen)%nat then -1
  else
    let start := Z.to_nat (Z.min (Z.max position 0) (Z.of_nat len)) in
    lastIndexFrom s pat (Nat.min start (len - searchLen)).

(** An integer as a number. *)
Definition number_of_Z (z : Z) : number :=
  if z <? 0 then PrimFloat.opp (PrimFloat.of_uint63 (Uint63.of_Z (- z)))
  else PrimFloat.of_uint63 (Uint63.of_Z z).

(** ** Memory store, continued ([memory.ts]) *)

(** The letters and digits of the keyword pattern: its class without the
    white space. *)
Definition keyword_unit (c : N) : bool :=
  keyword_class c && negb (is_space c).

(** What a keyword is: more than three letters or digits of the keyword
    pattern, and not a stop word. *)
Definition keyword (w : jsstring) : Prop :=
  (3 < length w)%nat
  /\ ~ (w ∈ stop_words)
  /\ Forall (fun c => keyword_unit c = true) w.

(** [recordCandidate]: the candidate is pushed on the first stored session
    of the given identifier and the store is written; [None] is no write,
    when no session has the identifier. *)
Definition withCandidate (s : ResearchSession) (candidate : CandidateRecord)
  : ResearchSession :=
  {| session_id := session_id s;
     timestamp := timestamp s;
     task := task s;
     criteria := criteria s;
     candidates := candidates s ++ [candidate];
     bestMatch := bestMatch s;
     searchQueries := searchQueries s;
     conclusion := conclusion s |}.

Definition recordCandidate (store : MemoryStore) (sessionId : jsstring)
    (candidate : CandidateRecord) : option MemoryStore :=
  match list_find (fun s => session_id s = sessionId) (sessions store) with
  | Some (i, s) =>
    Some {| sessions := <[i := withCandidate s candidate]> (sessions store);
            knownServices := knownServices store |}
  | None => None
  end.

(** The order in which a JavaScript object enumerates its own keys is the
    order of their insertion, which a [gmap] does not keep: the enumeration
    [Object.entries] is a parameter of the rendering, and it is [faithful]
    when it lists the entries of the map, each once. *)
Definition Enumeration : Type :=
  forall V : Type, gmap jsstring V -> list (jsstring * V).

Definition faithful (entries : Enumeration) : Prop :=
  forall (V : Type) (m : gmap jsstring V), entries V m ≡ₚ map_to_list m.

(** [getMemoryContext]: one line per candidate of a past session. *)
Definition candidateLine (c : CandidateRecord) : jsstring :=
  let hardPassed := length (filter (fun r => hr_passed r) (hardResults c)) in
  let hardTotal := length (hardResults c) in
  js "  - " ++ name c ++ js " [" ++ toUpperCase (verdict c) ++ js "] — hard: "
  ++ nat_to_string hardPassed ++ js "/" ++ nat_to_string hardTotal
  ++ match truthy (rejectionReason c) with
     | Some r => js " — rejected: " ++ r
     | None => []
     end
  ++ nl.

(** The text of one relevant session. *)
Definition sessionBlock (s : ResearchSession) : jsstring :=
  js "### Session: " ++ js_slice (timestamp s) 0 (Some 10) ++ nl
  ++ js "Task: " ++ task s ++ nl
  ++ js "Conclusion: " ++ conclusion s ++ nl
  ++ (if (0 <? length (candidates s))%nat
      then js "Candidates evaluated:" ++ nl
           ++ concat (map candidateLine (candidates s))
      else [])
  ++ (if (0 <? length (searchQueries s))%nat
      then js "Queries tried: "
           ++ join (js ", ") (js_slice (searchQueries s) 0 (Some 8)) ++ nl
      else [])
  ++ nl.

(** The filter on [Object.entries(store.knownServices)]: a service is
    relevant when a task keyword is among the keywords of its name, its
    facts and its notes. *)
Definition serviceRelevant (entries : Enumeration) (taskWords : list jsstring)
    (entry : jsstring * KnownService) : bool :=
  let serviceWords :=
    extractKeywords
      (entry.1 ++ js " "
       ++ join (js " ") (map snd (entries _ (facts entry.2))) ++ js " "
       ++ join (js " ") (svc_notes entry.2)) in
  existsb (fun w => includes serviceWords w) taskWords.

Definition relevantServices (entries : Enumeration) (store : MemoryStore)
    (task_text : jsstring) : list (jsstring * KnownService) :=
  filter (fun entry => serviceRelevant entries (extractKeywords task_text) entry)
    (entries _ (knownServices store)).

(** The text of one known service. *)
Definition serviceBlock (entries : Enumeration)
    (entry : jsstring * KnownService) : jsstring :=
  let info := entry.2 in
  js "**" ++ entry.1 ++ js "**"
  ++ match truthy (svc_url info) with
     | Some u => js " (" ++ u ++ js ")"
     | None => []
     end
  ++ nl
  ++ js "  Last checked: " ++ js_slice (lastChecked info) 0 (Some 10) ++ nl
  ++ match truthy (svc_verdict info) with
     | Some v => js "  Previous verdict: " ++ v ++ nl
     | None => []
     end
  ++ concat (map (fun kv : jsstring * jsstring =>
                    js "  " ++ kv.1 ++ js ": " ++ kv.2 ++ nl)
               (entries _ (facts info)))
  ++ (if (0 <? length (svc_notes info))%nat
      then js "  Notes: "
           ++ join (js "; ") (js_slice (svc_notes info) (-3) None) ++ nl
      else [])
  ++ nl.

Definition NO_HISTORY : jsstring := js "No prior research history.".

Definition NOTHING_RELEVANT : jsstring :=
  js "No relevant prior research found for this task.".

(** [getMemoryContext]: the text injected into the system prompt. *)
Definition getMemoryContext (entries : Enumeration) (store : MemoryStore)
    (task_text : jsstring) (maxSessions : Z) : jsstring :=
  if (length (sessions store) =? 0)%nat
     && (length (entries _ (knownServices store)) =? 0)%nat
  then NO_HISTORY
  else
    let past := relevant store task_text maxSessions in
    let pastText :=
      if (0 <? length past)%nat
      then js "## RELEVANT PAST RESEARCH" ++ nl ++ nl
           ++ concat (map (fun r => sessionBlock (session r)) past)
      else [] in
    let known := relevantServices entries store task_text in
    let knownText :=
      if (0 <? length known)%nat
      then js "## KNOWN SERVICES" ++ nl ++ nl
           ++ concat (map (serviceBlock entries)
                        (js_slice known 0 (Some 15)))
      else [] in
    match pastText ++ knownText with
    | [] => NOTHING_RELEVANT
    | context => context
    end.

(** ** Orchestration loop, continued ([agent.ts]) *)

(** The states at the head of the [while] loop that a run on [store] passes
    through. *)
Inductive reachable (env : Env) (store : MemoryStore) (task_text : jsstring)
    (c : ResearchCriteria) : LoopState -> Prop :=
  | reachable_start :
      reachable env store task_text c (initialState store task_text)
  | reachable_turn (st st' : LoopState) :
      reachable env store task_text c st ->
      (st_iterations st <? MAX_ITERATIONS)%nat = true ->
      iteration env task_text c st = Continue st' ->
      reachable env store task_text c st'.

(** The roles of [n] exchanges: an assistant turn and a user turn each. *)
Definition exchanges (n : nat) : list Role :=
  concat (replicate n [assistant; user]).


(** The state at the head of the loop after [n] turns of a run on [store],
    or the state in which the loop ended before. *)
Fixpoint stateAfter (env : Env) (store : MemoryStore) (task_text : jsstring)
    (c : ResearchCriteria) (n : nat) : LoopState :=
  match n with
  | O => initialState store task_text
  | S n' =>
    let st := stateAfter env store task_text c n' in
    if (st_iterations st <? MAX_ITERATIONS)%nat then
      match iteration env task_text c st with
      | Continue st' => st'
      | Done _ _ => st
      end
    else st
  end.

(** ** Spreadsheet export ([sheets.ts])

    The rows the export appends to the three tabs. The calls of the
    spreadsheet service are a collaborator; [toLocaleString] stands for
    [new Date(timestamp).toLocaleString("ru-RU")]. *)

Module Sheets.

(** The header rows [ensureTabs] writes to a tab it had to create. *)
Definition requiredTabs : list jsstring :=
  map js ["Summary"; "Candidates"; "Search Log"]%string.

Definition summaryHeader : list jsstring :=
  map js ["Date"; "Task"; "Best Match"; "Candidates Checked"; "Iterations";
          "Sonnet Cost ($)"; "Conclusion"]%string.

Definition candidatesHeader : list jsstring :=
  map js ["Date"; "Session Task"; "Name"; "URL"; "Verdict";
          "Rejection Reason"; "Hard Criteria (details)"; "Hard Pass Count";
          "Hard Total"; "Soft Avg Score"; "Soft Criteria (details)";
          "Notes"]%string.

Definition searchLogHeader : list jsstring :=
  map js ["Date"; "Session Task"; "#"; "Query Type"; "Query"]%string.

Definition headers (tab : jsstring) : option (list (list jsstring)) :=
  if decide (tab = js "Summary") then Some [summaryHeader]
  else if decide (tab = js "Candidates") then Some [candidatesHeader]
  else if decide (tab = js "Search Log") then Some [searchLogHeader]
  else None.

(** The tabs [ensureTabs] adds, given the titles of the existing ones. *)
Definition missing (existingTabs : list jsstring) : list jsstring :=
  filter (fun t => negb (includes existingTabs t)) requiredTabs.

(** The optional third argument of the export. *)
Record CostData := {
  tokens : Cost;
  estimatedUsd : number;
}.

(** [value || "—"]. *)
Definition orDash (o : option jsstring) : jsstring :=
  match truthy o with
  | Some s => s
  | None => js "—"
  end.

Section Rows.

Variable env : Env.
Variable toLocaleString : jsstring -> jsstring.

(** [appendSummary]: the row appended to the tab Summary. *)
Definition summaryRow (s : ResearchSession) (cost : option CostData)
  : list jsstring :=
  [toLocaleString (timestamp s);
   js_slice (task s) 0 (Some 300);
   orDash (bestMatch s);
   nat_to_string (length (candidates s));
   nat_to_string (length (searchQueries s));
   match cost with
   | Some data => js "$" ++ toFixed env (estimatedUsd data) 3
   | None => js "—"
   end;
   js_slice (conclusion s) 0 (Some 500)].

Definition hardDetails (c : CandidateRecord) : jsstring :=
  join nl
    (map (fun r => (if hr_passed r then js "✅" else js "❌") ++ js " "
                   ++ hr_criterion r ++ js ": " ++ hr_evidence r)
       (hardResults c)).

Definition softDetails (c : CandidateRecord) : jsstring :=
  join nl
    (map (fun x => numberToString env (ss_score x) ++ js "/10 "
                   ++ ss_criterion x ++ js ": " ++ ss_reasoning x)
       (softScores c)).

Definition softAvg (c : CandidateRecord) : jsstring :=
  if (0 <? length (softScores c))%nat
  then toFixed env (average (softScores c)) 1
  else js "—".

Definition candidateRow (s : ResearchSession) (c : CandidateRecord)
  : list jsstring :=
  [toLocaleString (timestamp s);
   js_slice (task s) 0 (Some 150);
   name c;
   orDash (url c);
   toUpperCase (verdict c);
   orDash (rejectionReason c);
   hardDetails c;
   nat_to_string (length (filter (fun r => hr_passed r) (hardResults c)));
   nat_to_string (length (hardResults c));
   softAvg c;
   softDetails c;
   orDash (notes c)].

(** [appendCandidates]: the rows appended to the tab Candidates; [None]
    is the return without a call, when there is no candidate. *)
Definition appendCandidates (s : ResearchSession)
  : option (list (list jsstring)) :=
  if (length (candidates s) =? 0)%nat then None
  else Some (map (candidateRow s) (candidates s)).

Definition searchLogRow (s : ResearchSession) (i : nat) (q : jsstring)
  : list jsstring :=
  let isDiscover := startsWith q (js "[discover]") in
  [toLocaleString (timestamp s);
   js_slice (task s) 0 (Some 150);
   nat_to_string (i + 1);
   if isDiscover then js "Discover (Gemini)" else js "Google (Serper)";
   if isDiscover then replaceFirst q (js "[discover] ") [] else q].

(** [appendSearchLog]: the rows appended to the tab Search Log. *)
Definition appendSearchLog (s : ResearchSession)
  : option (list (list jsstring)) :=
  if (length (searchQueries s) =? 0)%nat then None
  else Some (imap (searchLogRow s) (searchQueries s)).

End Rows.

End Sheets.

(** ** Messenger front end ([telegram.ts]) *)

Module Telegram.

(** The limit [handleResearch] passes to [splitMessage]. *)
Definition CHUNK : Z := 4000.

(** The test [split < maxLen * 0.3], on numbers. *)
Definition tooEarly (split maxLen : Z) : bool :=
  PrimFloat.ltb (number_of_Z split)
    (PrimFloat.mul (number_of_Z maxLen) 0x1.3333333333333p-2%float).

(** Where the [while] loop of [splitMessage] cuts [rest]: at the last blank
    line not beyond [maxLen], else at the last line break, else at
    [maxLen]; a cut in the first three tenths is not taken. *)
Definition splitPoint (rest : jsstring) (maxLen : Z) : Z :=
  let split := lastIndexOf rest (nl ++ nl) maxLen in
  let split := if tooEarly split maxLen then lastIndexOf rest nl maxLen
               else split in
  if tooEarly split maxLen then maxLen else split.

(** The [while] loop of [splitMessage]; [fuel] bounds the number of its
    turns and [None] is running out of it. *)
Fixpoint splitLoop (fuel : nat) (rest : jsstring) (maxLen : Z)
    (chunks : list jsstring) : option (list jsstring) :=
  if (0 <? length rest)%nat then
    match fuel with
    | O => None
    | S fuel' =>
      if Z.of_nat (length rest) <=? maxLen then Some (chunks ++ [rest])
      else
        let split := splitPoint rest maxLen in
        splitLoop fuel' (trimStart (js_slice rest split None)) maxLen
          (chunks ++ [js_slice rest 0 (Some split)])
    end
  else Some chunks.

Definition splitMessage (fuel : nat) (text : jsstring) (maxLen : Z)
  : option (list jsstring) :=
  if Z.of_nat (length text) <=? maxLen then Some [text]
  else splitLoop fuel text maxLen [].

(** A run of white space, as [trimStart] removes between two chunks. *)
Definition blank (gap : jsstring) : Prop :=
  Forall (fun c => is_space c = true) gap.

(** A chunk that does not begin with white space. *)
Definition startsWithText (chunk : jsstring) : Prop :=
  forall c, head chunk = Some c -> is_space c = false.

End Telegram.
(** ** Page reader ([scrape.ts])

    [fetchPage] asks the reader service and then the page itself; the two
    requests are its parameters, and the clean-up of the page, a chain of
    replacements with regular expressions, is modelled as it is written.
    [extractFromUrl] and [getPageText] take the fetch of a page as a
    parameter, which in the program is [fetchPage]; it returns the page
    text or a text that begins with FAILED. [generate] is the extraction
    model, called with the address, the capped page text and the task in
    place of the instruction built from them, and answering or throwing. *)

Module Scrape.

(** *** The clean-up of a page fetched directly

    [String.prototype.replace] with a global regular expression whose
    matches are never empty. A [Matcher] gives the length of the match
    that begins at the head of the rest of the string, if there is one;
    [replaceAll] scans from left to right, replaces a match and resumes
    behind it, [skip] being the number of code units of a match still to
    pass over. *)
Definition Matcher : Type := jsstring -> option nat.

Fixpoint replaceAll (matcher : Matcher) (by_ : jsstring) (s : jsstring)
    (skip : nat) : jsstring :=
  match s with
  | [] => []
  | c :: rest =>
    match skip with
    | S k => replaceAll matcher by_ rest k
    | O =>
      match matcher s with
      | Some (S n) => by_ ++ replaceAll matcher by_ rest n
      | _ => c :: replaceAll matcher by_ rest 0
      end
    end
  end.

(** The comparison of the flag [i] against a pattern of ASCII characters:
    a code unit matches a letter of the pattern in either case, and only
    ASCII letters do. *)
Definition upperAscii (c : N) : N :=
  if (97 <=? c)%N && (c <=? 122)%N then (c - 32)%N else c.

Fixpoint startsWithAnyCase (s pat : jsstring) : bool :=
  match pat, s with
  | [], _ => true
  | p :: pat', c :: s' =>
    (upperAscii c =? upperAscii p)%N && startsWithAnyCase s' pat'
  | _ :: _, [] => false
  end.

(** The least index at which [pat] occurs, in any case. *)
Fixpoint findAnyCase (s pat : jsstring) : option nat :=
  if startsWithAnyCase s pat then Some 0%nat
  else
    match s with
    | [] => None
    | _ :: s' => S <$> findAnyCase s' pat
    end.

(** [/<open[\s\S]*?<\/close>/gi]: the opening text, anything, and the
    first closing text behind it. *)
Definition matchBlock (opening closing : jsstring) : Matcher :=
  fun s =>
    if startsWithAnyCase s opening then
      (fun j => (length opening + j + length closing)%nat)
        <$> findAnyCase (drop (length opening) s) closing
    else None.

(** [/<[^>]+>/g]: an opening bracket, at least one code unit other than a
    closing bracket, and the first closing bracket. *)
Definition matchTag : Matcher :=
  fun s =>
    match s with
    | 60%N :: d :: rest =>
      if (d =? 62)%N then None
      else (fun j => (j + 3)%nat) <$> indexOf rest [62%N]
    | _ => None
    end.

(** A pattern without special characters. *)
Definition matchLiteral (pat : jsstring) : Matcher :=
  fun s => if startsWith s pat then Some (length pat) else None.

(** [/\s{2,}/g]: a run of two or more white space characters, as long as
    it goes. *)
Fixpoint spaceRun (s : jsstring) : nat :=
  match s with
  | c :: rest => if is_space c then S (spaceRun rest) else O
  | [] => O
  end.

Definition matchSpaces : Matcher :=
  fun s => if (2 <=? spaceRun s)%nat then Some (spaceRun s) else None.

(** The chain of replacements of [fetchPage]. *)
Definition cleanHtml (html : jsstring) : jsstring :=
  let html := replaceAll (matchBlock (js "<script") (js "</script>")) [] html 0 in
  let html := replaceAll (matchBlock (js "<style") (js "</style>")) [] html 0 in
  let html := replaceAll (matchBlock (js "<nav") (js "</nav>")) [] html 0 in
  let html := replaceAll (matchBlock (js "<footer") (js "</footer>")) [] html 0 in
  let html := replaceAll matchTag (js " ") html 0 in
  let html := replaceAll (matchLiteral (js "&nbsp;")) (js " ") html 0 in
  let html := replaceAll (matchLiteral (js "&amp;")) (js "&") html 0 in
  let html := replaceAll matchSpaces (js " ") html 0 in
  trim html.

(** A text in which the tag pattern matches nowhere, and one in which the
    pattern of white space runs matches nowhere. *)
Definition tagFree (s : jsstring) : Prop :=
  forall i, matchTag (drop i s) = None.

Definition singleSpaced (s : jsstring) : Prop :=
  forall i, matchSpaces (drop i s) = None.

(** What the direct fetch of a page gives: the text of the response, a
    status that is not a success, or an exception. *)
Inductive DirectReply :=
  | DirectText (html : jsstring)
  | DirectStatus (code : nat)
  | DirectThrows (msg : jsstring).

(** [fetchPage]: the reader service first ([None] when its response is
    not a success or the request throws), then the direct fetch. *)
Definition fetchPage (reader : jsstring -> option jsstring)
    (direct : jsstring -> DirectReply) (url : jsstring) : jsstring :=
  match reader url with
  | Some text => text
  | None =>
    match direct url with
    | DirectText html => cleanHtml html
    | DirectStatus code => js "FAILED: HTTP " ++ nat_to_string code
    | DirectThrows msg => js "FAILED: " ++ msg
    end
  end.

Section Reader.

(** The fetch of a page, [fetchPage] above with its two requests. *)
Variable fetchPage : jsstring -> jsstring.
Variable generate : jsstring -> jsstring -> jsstring -> ToolReply.

Definition extractFromUrl (url extractionTask : jsstring) : jsstring :=
  let rawContent := fetchPage url in
  if startsWith rawContent (js "FAILED") then
    js "Could not access " ++ url ++ js ": " ++ rawContent
  else
    let content :=
      if (150000 <? Z.of_nat (length rawContent)) then
        js_slice rawContent 0 (Some 150000) ++ nl ++ nl
        ++ js "[Page truncated: " ++ nat_to_string (length rawContent)
        ++ js " total chars]"
      else rawContent in
    match generate url content extractionTask with
    | ToolText text => js "Extracted from " ++ url ++ js ":" ++ nl ++ nl ++ text
    | ToolThrows msg => js "Extraction failed for " ++ url ++ js ": " ++ msg
    end.

Definition getPageText (url : jsstring) : jsstring :=
  let content := fetchPage url in
  if (12000 <? Z.of_nat (length content)) then
    js_slice content 0 (Some 12000) ++ nl ++ nl
    ++ js "[Truncated. Full page: " ++ nat_to_string (length content)
    ++ js " chars. Use extract_from_url for targeted extraction.]"
  else content.

End Reader.

End Scrape.

(** ** Request parser ([parse-request.ts])

    The object the model's answer parses to, with the properties the
    validation reads: each is [None] when absent. [generate] is the model
    call followed by [JSON.parse], [None] when either throws. *)

Module ParseRequest.







End ParseRequest.

(** ** Sample data

    Concrete inputs on which the statements below are evaluated. *)

Module Sample.

Definition coverage : HardResult :=
  {| hr_criterion := js "coverage"; hr_passed := true;
     hr_evidence := js "direct routes to Argentina" |}.

Definition price : HardResult :=
  {| hr_criterion := js "price"; hr_passed := true;
     hr_evidence := js "0.04 USD per SMS" |}.

Definition support : SoftScore :=
  {| ss_criterion := js "support quality"; ss_score := 7%float;
     ss_reasoning := js "good reviews" |}.

(** The arguments of a tool call; each tool reads the fields it needs. *)
Definition evaluateInput (candidate verdict_text : jsstring)
    (hardResults : list HardResult) : ToolInput :=
  {| in_query := js "sms provider argentina";
     in_context := js "A2P SMS";
     in_url := Some (js "https://acme.example/pricing");
     in_what_to_extract := js "price per SMS";
     in_name := candidate;
     in_hard_criteria := hardResults;
     in_soft_criteria := Some [support];
     in_verdict := verdict_text;
     in_rejection_reason := None;
     in_notes := None |}.

Definition acmeInput : ToolInput :=
  evaluateInput (js "Acme SMS") (js "pass") [coverage; price].

Definition call (call_id tool : string) (input : ToolInput) : ToolUseBlock :=
  {| tu_id := js call_id; tu_name := js tool; tu_input := input |}.

Definition reply (blocks : list ContentBlock) (reason : StopReason)
  : EngineReply :=
  Resolved {| msg_content := blocks; stop_reason := reason;
              usage_input_tokens := 1000; usage_output_tokens := 200 |}.

(** An environment whose engine follows [script], whose back ends answer
    with fixed texts (the extraction back end throws), and whose
    summarizer succeeds. *)
Definition scripted (script : nat -> nat -> EngineReply) : Env :=
  {| numberToString := fun _ => js "7";
     toFixed := fun _ _ => js "7.0";
     messages_create := fun iteration attempt _ => script iteration attempt;
     serperSearch := fun _ _ => ToolText (js "Google results");
     geminiGroundedSearch := fun _ _ _ => ToolText (js "Findings");
     extractFromUrl := fun _ _ _ => ToolThrows (js "fetch failed");
     getPageText := fun _ _ => ToolText (js "page text");
     generateSummary := fun _ _ => Some (js "## Search Progress");
     exportToSheets := fun _ _ => [];
     dateNow := fun _ => 1700000000000%N;
     toISOString := fun _ => js "2026-01-01T00:00:00.000Z" |}.

Definition quiet : Env := scripted (fun _ _ => reply [] end_turn).

Definition twoCriteria : ResearchCriteria :=
  {| hard := [ {| hc_field := js "coverage";
                  hc_description := js "direct routes to Argentina" |} ];
     soft := [ {| sc_description := js "support quality";
                  sc_weight := 3%float |} ] |}.

Definition pastSession (n : nat) (task_text conclusion_text : string)
  : ResearchSession :=
  {| session_id := js "session_" ++ nat_to_string n;
     timestamp := js "2025-12-01T00:00:00.000Z";
     task := js task_text;
     criteria := twoCriteria;
     candidates := [];
     bestMatch := None;
     searchQueries := [];
     conclusion := js conclusion_text |}.

Definition emptyStore : MemoryStore :=
  {| sessions := []; knownServices := ∅ |}.


Definition turn (r : Role) (text_content : string) : MessageParam :=
  {| role := r; content := StringContent (js text_content) |}.

(** Nine turns: the task and four exchanges. *)
Definition nineTurns : list MessageParam :=
  [turn user "task"; turn assistant "a1"; turn user "r1";
   turn assistant "a2"; turn user "r2"; turn assistant "a3";
   turn user "r3"; turn assistant "a4"; turn user "r4"].





Definition sessionOf (cs : list CandidateRecord) : ResearchSession :=
  {| session_id := js "session_1700000000000";
     timestamp := js "2026-01-01T00:00:00.000Z";
     task := js "find an SMS provider";
     criteria := twoCriteria;
     candidates := cs;
     bestMatch := None;
     searchQueries := [];
     conclusion := js "done" |}.

(** Four past sessions; against [pricingTask] their overlaps are 2, 0, 3
    and 2. *)
Definition researchStore : MemoryStore :=
  {| sessions :=
       [pastSession 0 "sms provider argentina" "acme selected";
        pastSession 1 "email marketing tools" "nothing suitable";
        pastSession 2 "argentina pricing provider" "direct routes";
        pastSession 3 "provider comparison" "pricing unknown"];
     knownServices := ∅ |}.

Definition pricingTask : jsstring := js "Find SMS provider Argentina pricing".




(** The scripted engine of the example scenario: one precise search, one
    evaluation of Acme SMS with verdict pass, then the final report. *)
Definition acmeScript (iteration attempt : nat) : EngineReply :=
  match iteration with
  | 1%nat => reply [ToolUse (call "toolu_1" "google_search" acmeInput)] tool_use
  | 2%nat =>
    reply [Text (js "Acme looks promising.");
           ToolUse (call "toolu_2" "evaluate" acmeInput)] tool_use
  | _ => reply [Text (js "Best match: Acme SMS"); Text (js "Confidence: 8")]
           end_turn
  end.

Definition acmeScenario : Env := scripted acmeScript.

(** An engine that never finishes: every turn evaluates Acme SMS again. *)
Definition endless : Env :=
  scripted (fun _ _ =>
              reply [ToolUse (call "toolu_n" "evaluate" acmeInput)] tool_use).




(** An engine that evaluates a candidate with the verdict [partial] of the
    declared record type, and then finishes. *)
Definition partialInput : ToolInput :=
  evaluateInput (js "Acme SMS") (js "partial") [coverage].

Definition partialScript (iteration attempt : nat) : EngineReply :=
  match iteration with
  | 1%nat => reply [ToolUse (call "toolu_1" "evaluate" partialInput)] tool_use
  | _ => reply [Text (js "Acme SMS is a partial match")] end_turn
  end.

Definition partialScenario : Env := scripted partialScript.


End Sample.

(** ** Further sample data *)

Module Fixture.

(** An answer of two paragraphs, longer than one message. *)
Definition longAnswer : jsstring :=
  repeat_string (js "Acme SMS: direct routes. ") 200 ++ nl ++ nl
  ++ repeat_string (js "x") 3500.

(** A network on which every page has 13000 code units. *)
Definition fetchPage (url : jsstring) : jsstring :=
  repeat_string (js "price list ") 1182.

(** The environment of [Sample.quiet] with the page reader of [scrape.ts]
    as the back end of the tool read_page. *)
Definition reader : Env :=
  {| numberToString := numberToString Sample.quiet;
     toFixed := toFixed Sample.quiet;
     messages_create := messages_create Sample.quiet;
     serperSearch := serperSearch Sample.quiet;
     geminiGroundedSearch := geminiGroundedSearch Sample.quiet;
     extractFromUrl := extractFromUrl Sample.quiet;
     getPageText :=
       fun _ url => ToolText (Scrape.getPageText fetchPage (default [] url));
     generateSummary := generateSummary Sample.quiet;
     exportToSheets := exportToSheets Sample.quiet;
     dateNow := dateNow Sample.quiet;
     toISOString := toISOString Sample.quiet |}.

End Fixture.

(** ** Sanity checks of the embedding *)

Example js_literal_ascii : js "pass" = [112; 97; 115; 115]%N.
Proof. reflexivity. Qed.

Example js_literal_astral : js "ё—📊" = [1105; 8212; 55357; 56522]%N.
Proof. reflexivity. Qed.

Example js_slice_negative_start : js_slice [1; 2; 3; 4; 5] (-2) None = [4; 5].
Proof. reflexivity. Qed.

Example js_slice_negative_zero : js_slice [1; 2; 3] (-0) None = [1; 2; 3].
Proof. reflexivity. Qed.

Example js_slice_both : js_slice [1; 2; 3; 4; 5; 6] 1 (Some (-2)) = [2; 3; 4].
Proof. reflexivity. Qed.

Example nat_to_string_4000 : nat_to_string 4000 = js "4000".
Proof. reflexivity. Qed.

Example split_spaces_ends :
  split_spaces (js "  a b ") [] false = [js ""; js "a"; js "b"; js ""].
Proof. reflexivity. Qed.

Example extractKeywords_mixed :
  extractKeywords (js "Find an SMS provider with REST API, нужно Найти Провайдера")
  = [js "provider"; js "rest"; js "провайдера"].
Proof. vm_compute. reflexivity. Qed.

Example serviceKey_acme :
  serviceKey (candidateOf Sample.acmeInput) = js "acme sms".
Proof. reflexivity. Qed.

(** ** Slices *)

Lemma js_slice_last {A} (l : list A) (n : Z) :
  0 < n ->
  js_slice l (- n) None = drop (length l - Z.to_nat n) l.
Proof.
  intros Hn. unfold js_slice, slice_index.
  destruct (Z.ltb_spec (- n) 0) as [_|]; [|lia].
  rewrite take_ge.
  - f_equal. lia.
  - rewrite length_drop. lia.
Qed.

Lemma js_slice_prefix {A} (l : list A) (n : Z) :
  0 <= n ->
  js_slice l 0 (Some n) = take (Z.to_nat n) l.
Proof.
  intros Hn. unfold js_slice, slice_index. simpl.
  destruct (Z.ltb_spec n 0) as [|_]; [lia|].
  rewrite (Z.min_l 0) by lia. rewrite Z.sub_0_r.
  change (Z.to_nat 0) with 0%nat. rewrite drop_0.
  destruct (Z.le_gt_cases n (Z.of_nat (length l))).
  - rewrite Z.min_l by lia. reflexivity.
  - rewrite Z.min_r by lia. rewrite Nat2Z.id.
    rewrite !take_ge; [reflexivity|lia|lia].
Qed.

Lemma js_slice_middle {A} (l : list A) (n : Z) :
  0 < n ->
  js_slice l 1 (Some (- n))
  = take (length l - Z.to_nat n - 1) (drop 1 l).
Proof.
  intros Hn. unfold js_slice, slice_index. simpl.
  destruct (Z.ltb_spec (- n) 0) as [_|]; [|lia].
  destruct l as [|x l].
  - rewrite !drop_nil, !take_nil. reflexivity.
  - rewrite Z.min_l by (simpl length; lia).
    change (Z.to_nat 1) with 1%nat.
    f_equal. simpl length. lia.
Qed.

(** ** The evaluate tool *)

Lemma executeTool_evaluate (env : Env) (n : nat) (input : ToolInput)
    (acc : Accumulators) :
  executeTool env n (js "evaluate") input acc
  = ({| sessionCandidates :=
          (handleEvaluation env input (sessionCandidates acc)).1;
        sessionQueries := sessionQueries acc |},
     ToolText (handleEvaluation env input (sessionCandidates acc)).2).
Proof.
  unfold executeTool.
  repeat (destruct (decide _) as [Heq|_];
          [vm_compute in Heq; discriminate Heq|]).
  destruct (decide _) as [_|Hne]; [|exfalso; apply Hne; reflexivity].
  destruct (handleEvaluation _ _ _). reflexivity.
Qed.

Lemma hardLine_none : hardLine 0 0 = js "Hard criteria: 0/0 ✅ ALL PASSED" ++ nl.
Proof. vm_compute. reflexivity. Qed.

(** C10. With an empty [hard_criteria] array the report of an evaluate
    call has, right after its two heading lines, the line
    [Hard criteria: 0/0 ✅ ALL PASSED]: a candidate without hard-criterion
    results is reported as having passed all of them. No per-criterion
    line follows it. *)
Theorem evaluate_without_hard_criteria_all_passed (env : Env) (n : nat)
    (input : ToolInput) (acc : Accumulators) :
  in_hard_criteria input = [] ->
  (executeTool env n (js "evaluate") input acc).2
  = ToolText
      (reportHeader (candidateOf input)
       ++ (js "Hard criteria: 0/0 ✅ ALL PASSED" ++ nl)
       ++ softSection env (softScores (candidateOf input))
       ++ verdictSection (candidateOf input)).
Proof.
  intros Hhard. rewrite executeTool_evaluate.
  unfold snd, handleEvaluation.
  change (hardResults (candidateOf input)) with (in_hard_criteria input).
  rewrite Hhard.
  change (length (filter (fun r => hr_passed r) [])) with 0%nat.
  change (length (@nil HardResult)) with 0%nat.
  rewrite hardLine_none. reflexivity.
Qed.

Lemma evaluate_without_hard_criteria_witness :
  (executeTool Sample.quiet 1 (js "evaluate")
     (Sample.evaluateInput (js "Acme SMS") (js "pass") [])
     {| sessionCandidates := []; sessionQueries := [] |}).2
  = ToolText
      (nl ++ js "📊 EVALUATION: Acme SMS" ++ nl
       ++ repeat_string (js "─") 50 ++ nl
       ++ js "Hard criteria: 0/0 ✅ ALL PASSED" ++ nl
       ++ nl ++ js "Soft criteria: avg 7.0/10" ++ nl
       ++ js "  7/10 — support quality" ++ nl
       ++ js "     good reviews" ++ nl
       ++ nl ++ js "Verdict: PASS" ++ nl).
Proof.
  rewrite (evaluate_without_hard_criteria_all_passed Sample.quiet 1
             (Sample.evaluateInput (js "Acme SMS") (js "pass") []));
    [|reflexivity].
  vm_compute. reflexivity.
Defined.

(** ** Session eviction *)

Lemma saveSession_sessions (env : Env) (store : MemoryStore)
    (s : ResearchSession) :
  sessions (saveSession env store s)
  = if (MAX_SESSIONS <? length (sessions store ++ [s]))%nat
    then drop (length (sessions store ++ [s]) - MAX_SESSIONS)
           (sessions store ++ [s])
    else sessions store ++ [s].
Proof.
  unfold saveSession. simpl.
  destruct (_ <? _)%nat; [|reflexivity].
  rewrite js_slice_last by (unfold MAX_SESSIONS; lia).
  rewrite Nat2Z.id. reflexivity.
Qed.

(** After any save the store holds at most 50 sessions. *)
Lemma saveSession_within_bound (env : Env) (store : MemoryStore)
    (s : ResearchSession) :
  (length (sessions (saveSession env store s)) <= MAX_SESSIONS)%nat.
Proof.
  rewrite saveSession_sessions.
  destruct (Nat.ltb_spec MAX_SESSIONS (length (sessions store ++ [s])))
    as [Hover|Hfits]; [|exact Hfits].
  rewrite length_drop. lia.
Qed.



(** ** History compression *)

Lemma compress_tail (first : MessageParam) (middle tail : list MessageParam)
    (k : Z) :
  0 < k -> length tail = Z.to_nat (k * 2) ->
  js_slice (first :: middle ++ tail) (- (k * 2)) None = tail.
Proof.
  intros Hk Htail. rewrite js_slice_last by lia.
  rewrite <- Htail. simpl length. rewrite length_app.
  replace (S (length middle + length tail) - length tail)%nat
    with (length (first :: middle)) by (simpl; lia).
  rewrite app_comm_cons. apply drop_app_length.
Qed.

Lemma compress_middle (first : MessageParam) (middle tail : list MessageParam)
    (k : Z) :
  0 < k -> length tail = Z.to_nat (k * 2) ->
  js_slice (first :: middle ++ tail) 1 (Some (- (k * 2))) = middle.
Proof.
  intros Hk Htail. rewrite js_slice_middle by lia.
  rewrite <- Htail. simpl length. rewrite length_app. simpl drop.
  replace (S (length middle + length tail) - length tail - 1)%nat
    with (length middle) by lia.
  apply take_app_length.
Qed.

(** Compression splices the summary between the task turn and the tail. *)
Lemma compressHistory_splices (env : Env) (n : nat) (first : MessageParam)
    (middle tail : list MessageParam) (keepLastExchanges : Z)
    (summary : jsstring) :
  0 < keepLastExchanges ->
  length tail = Z.to_nat (keepLastExchanges * 2) ->
  (4 <= length middle)%nat ->
  generateSummary env n middle = Some summary ->
  compressHistory env n (first :: middle ++ tail) keepLastExchanges
  = [first; acknowledgement; summaryTurn (length middle) summary] ++ tail.
Proof.
  intros Hk Htail Hmiddle Hsummary. unfold compressHistory.
  destruct (Nat.ltb_spec (length (first :: middle ++ tail)) 6) as [Hshort|_].
  { simpl in Hshort. rewrite length_app in Hshort. lia. }
  rewrite compress_tail, compress_middle by assumption.
  destruct (Nat.ltb_spec (length middle) 4) as [Hsmall|_]; [lia|].
  rewrite Hsummary. reflexivity.
Qed.

(** The input of a compression that meets the thresholds is its first
    turn, the middle and the last [keepLastExchanges * 2] turns. *)
Lemma compress_thresholds (messages : list MessageParam)
    (keepLastExchanges : Z) :
  0 <= keepLastExchanges ->
  (4 <= length (js_slice messages 1 (Some (- (keepLastExchanges * 2)))))%nat ->
  0 < keepLastExchanges
  /\ exists first tail,
       messages
       = first :: js_slice messages 1 (Some (- (keepLastExchanges * 2)))
                  ++ tail
       /\ length tail = Z.to_nat (keepLastExchanges * 2).
Proof.
  intros Hk Hmiddle.
  assert (Hpos : 0 < keepLastExchanges).
  { destruct (Z.eq_dec keepLastExchanges 0) as [->|]; [|lia].
    exfalso. revert Hmiddle. unfold js_slice, slice_index. simpl.
    match goal with
    | |- (4 <= length (take ?n _))%nat -> _ =>
      replace n with 0%nat by lia
    end.
    simpl. lia. }
  split; [exact Hpos|].
  rewrite js_slice_middle in * by lia.
  destruct messages as [|first rest]; [simpl in Hmiddle; lia|].
  rewrite length_take, length_drop in Hmiddle. simpl in Hmiddle.
  exists first, (drop (length (first :: rest)
                      - Z.to_nat (keepLastExchanges * 2) - 1) rest).
  simpl drop at 1. rewrite take_drop. split; [reflexivity|].
  rewrite length_drop. simpl. lia.
Qed.



Example compressHistory_nine_turns :
  compressHistory Sample.quiet 4 Sample.nineTurns 2
  = [Sample.turn user "task"; acknowledgement;
     summaryTurn 4 (js "## Search Progress");
     Sample.turn assistant "a3"; Sample.turn user "r3";
     Sample.turn assistant "a4"; Sample.turn user "r4"].
Proof. vm_compute. reflexivity. Qed.

(** The other side of the thresholds: with fewer than six turns or a
    failing summarizer the input is returned as it is, and no exchange
    count below one ever compresses. *)
Lemma compressHistory_short (env : Env) (n : nat)
    (messages : list MessageParam) (k : Z) :
  (length messages < 6)%nat -> compressHistory env n messages k = messages.
Proof.
  intros Hshort. unfold compressHistory.
  destruct (Nat.ltb_spec (length messages) 6); [reflexivity|lia].
Qed.

Lemma compressHistory_summarizer_fails (env : Env) (n : nat)
    (messages : list MessageParam) (k : Z) :
  (forall middle, generateSummary env n middle = None) ->
  compressHistory env n messages k = messages.
Proof.
  intros Hfail. unfold compressHistory.
  destruct (_ <? _)%nat; [reflexivity|].
  destruct messages; [reflexivity|].
  destruct (_ <? _)%nat; [reflexivity|].
  rewrite Hfail. reflexivity.
Qed.

Lemma compressHistory_keep_none (env : Env) (n : nat)
    (messages : list MessageParam) :
  compressHistory env n messages 0 = messages.
Proof.
  unfold compressHistory.
  destruct (_ <? _)%nat; [reflexivity|].
  destruct messages as [|first rest]; [reflexivity|].
  replace (js_slice (first :: rest) 1 (Some (- (0 * 2)))) with (@nil MessageParam).
  - reflexivity.
  - unfold js_slice, slice_index. simpl.
    match goal with
    | |- _ = take ?n _ => replace n with 0%nat by lia
    end.
    reflexivity.
Qed.

(** ** Known services *)






















(** ** Relevant past sessions *)

Section StableSort.
Context {A : Type} (key : A -> Z).

Local Abbreviation descending := (fun a b : A => key b - key a).
Local Abbreviation above := (fun a b : A => key b <= key a).

Lemma sort_insert_perm (x : A) (l : list A) :
  sort_insert descending x l ≡ₚ x :: l.
Proof.
  induction l as [|y l IH]; simpl; [reflexivity|].
  destruct (_ <? 0); [|reflexivity].
  rewrite IH. apply Permutation_swap.
Qed.

Lemma js_sort_perm (l : list A) : js_sort descending l ≡ₚ l.
Proof.
  induction l as [|x l IH]; simpl; [reflexivity|].
  unfold js_sort in IH. rewrite sort_insert_perm, IH. reflexivity.
Qed.

Lemma sort_insert_sorted (x : A) (l : list A) :
  StronglySorted above l -> StronglySorted above (sort_insert descending x l).
Proof.
  induction 1 as [|y l Hsorted IH Hall]; simpl.
  - repeat constructor.
  - simpl in *.
    destruct (Z.ltb_spec (key x - key y) 0) as [Hlt|Hge].
    + constructor; [exact IH|].
      rewrite sort_insert_perm. constructor; [lia|exact Hall].
    + constructor; [constructor; assumption|].
      constructor; [lia|].
      eapply Forall_impl; [exact Hall|]. intros z Hz. simpl in Hz. lia.
Qed.

Lemma js_sort_sorted (l : list A) :
  StronglySorted above (js_sort descending l).
Proof.
  induction l as [|x l IH]; simpl; [constructor|].
  apply sort_insert_sorted, IH.
Qed.

(** Stability: the elements of one key keep their order. *)
Lemma sort_insert_stable (v : Z) (x : A) (l : list A) :
  filter (fun a => key a = v) (sort_insert descending x l)
  = filter (fun a => key a = v) (x :: l).
Proof.
  induction l as [|y l IH]; simpl; [reflexivity|].
  destruct (Z.ltb_spec (key x - key y) 0) as [Hlt|Hge]; [|reflexivity].
  rewrite filter_cons, IH, !filter_cons.
  destruct (decide (key y = v)) as [Hy|Hy];
    destruct (decide (key x = v)) as [Hx|Hx]; try reflexivity.
  lia.
Qed.

Lemma js_sort_stable (v : Z) (l : list A) :
  filter (fun a => key a = v) (js_sort descending l)
  = filter (fun a => key a = v) l.
Proof.
  induction l as [|x l IH]; [reflexivity|].
  change (js_sort descending (x :: l))
    with (sort_insert descending x (js_sort descending l)).
  rewrite sort_insert_stable, !filter_cons, IH. reflexivity.
Qed.
End StableSort.

Lemma filter_take_prefix {A} (P : A -> Prop) `{!forall x, Decision (P x)}
    (n : nat) (l : list A) :
  filter P (take n l) `prefix_of` filter P l.
Proof.
  rewrite <- (take_drop n l) at 2. rewrite filter_app.
  apply prefix_app_r. reflexivity.
Qed.

Lemma filter_none {A} (P : A -> Prop) `{!forall x, Decision (P x)}
    (l : list A) :
  Forall (fun x => ~ P x) l -> filter P l = [].
Proof.
  induction 1 as [|x l Hx _ IH]; [reflexivity|].
  rewrite filter_cons, decide_False by exact Hx. exact IH.
Qed.

(** The score of a stored session is the number of task keywords that
    occur among the keywords of its task and conclusion. *)
Lemma scored_spec (store : MemoryStore) (task_text : jsstring) :
  session <$> scored store task_text = sessions store
  /\ Forall (fun r =>
              score r
              = Z.of_nat
                  (length
                     (filter
                        (fun w =>
                           w ∈ extractKeywords
                                 (task (session r) ++ js " "
                                  ++ conclusion (session r)))
                        (extractKeywords task_text))))
       (scored store task_text).
Proof.
  unfold scored. split.
  - rewrite <- list_fmap_compose. simpl. apply list_fmap_id.
  - apply Forall_fmap, Forall_forall. intros s _. simpl. f_equal. f_equal.
    apply list_filter_iff. intros w. unfold includes.
    rewrite bool_decide_spec. reflexivity.
Qed.

(** C8. For a non-negative [maxSessions], the sessions [getMemoryContext]
    renders are sessions of positive keyword overlap, in descending order
    of overlap, at most [maxSessions] of them and all of them when there
    are no more; every positive session left out scores no higher than
    any selected one, and sessions of equal overlap appear in store order,
    the earlier ones being kept. *)
Theorem relevant_top_sessions (store : MemoryStore) (task_text : jsstring)
    (maxSessions : Z) :
  0 <= maxSessions ->
  let positive := filter (fun r => 0 < score r) (scored store task_text) in
  let selected := relevant store task_text maxSessions in
  Forall (fun r => 0 < score r) selected
  /\ StronglySorted (fun a b => score b <= score a) selected
  /\ length selected = Nat.min (Z.to_nat maxSessions) (length positive)
  /\ (exists rest,
        selected ++ rest ≡ₚ positive
        /\ forall r x, r ∈ selected -> x ∈ rest -> score x <= score r)
  /\ ((length positive <= Z.to_nat maxSessions)%nat -> selected ≡ₚ positive)
  /\ forall v,
       filter (fun r => score r = v) selected
       `prefix_of` filter (fun r => score r = v) (scored store task_text).
Proof.
  intros Hmax positive selected.
  set (sorted := js_sort (fun a b => score b - score a) positive).
  assert (Hsel : selected = take (Z.to_nat maxSessions) sorted).
  { unfold selected, relevant. apply js_slice_prefix, Hmax. }
  assert (Hperm : sorted ≡ₚ positive) by apply (js_sort_perm score).
  assert (Hsorted : StronglySorted (fun a b => score b <= score a) sorted)
    by apply (js_sort_sorted score).
  assert (Hpos : Forall (fun r => 0 < score r) sorted).
  { rewrite Hperm. apply Forall_forall. intros r Hr.
    apply list_elem_of_filter in Hr. tauto. }
  assert (Hsplit : sorted = selected ++ drop (Z.to_nat maxSessions) sorted)
    by (rewrite Hsel; symmetry; apply take_drop).
  rewrite Hsplit in Hsorted, Hperm.
  repeat split.
  - rewrite Hsel. apply Forall_take, Hpos.
  - eapply StronglySorted_app_1_l, Hsorted.
  - apply Permutation_length in Hperm. rewrite length_app in Hperm.
    rewrite Hsel, length_take, length_drop in Hperm.
    rewrite Hsel, length_take. lia.
  - exists (drop (Z.to_nat maxSessions) sorted). split; [exact Hperm|].
    intros r x Hr Hx.
    apply (StronglySorted_app_1_elem_of _ _ _ _ _ Hsorted Hr Hx).
  - intros Hfew. rewrite <- Hperm.
    replace (drop (Z.to_nat maxSessions) sorted) with (@nil Scored).
    + rewrite app_nil_r. reflexivity.
    + symmetry. apply drop_ge.
      apply Permutation_length in Hperm. rewrite length_app in Hperm.
      rewrite Hsel, length_take, length_drop in Hperm. lia.
  - intros v. destruct (Z.lt_ge_cases 0 v) as [Hv|Hv].
    + rewrite Hsel. etransitivity; [apply filter_take_prefix|].
      unfold sorted. rewrite (js_sort_stable score). unfold positive.
      rewrite list_filter_filter_l; [reflexivity|]. intros r Hr. lia.
    + rewrite filter_none; [apply prefix_nil|].
      rewrite Hsel. apply Forall_take.
      eapply Forall_impl; [exact Hpos|]. intros r Hr. simpl in Hr. lia.
Qed.

Lemma relevant_top_sessions_witness :
  session_id <$> (session <$> relevant Sample.researchStore Sample.pricingTask 2)
  = [js "session_2"; js "session_0"]
  /\ score <$> scored Sample.researchStore Sample.pricingTask = [2; 0; 3; 2]
  /\ length (relevant Sample.researchStore Sample.pricingTask 2) = 2%nat.
Proof.
  destruct (relevant_top_sessions Sample.researchStore Sample.pricingTask 2)
    as (_ & _ & Hlength & _); [lia|].
  split; [vm_compute; reflexivity|].
  split; [vm_compute; reflexivity|].
  rewrite Hlength. vm_compute. reflexivity.
Defined.

Example relevant_default_keeps_all :
  session_id <$>
    (session <$>
       relevant Sample.researchStore Sample.pricingTask DEFAULT_MAX_SESSIONS)
  = [js "session_2"; js "session_0"; js "session_3"].
Proof. vm_compute. reflexivity. Qed.

(** ** The retry loop *)

Lemma createWithRetry_spec (env : Env) (iteration : nat)
    (messages : list MessageParam) (remaining attempt : nat) :
  (remaining + attempt = 5)%nat ->
  (0 < remaining)%nat ->
  let result := createWithRetry env iteration messages remaining attempt in
  let last := (attempt + length result.2)%nat in
  (last <= 4)%nat
  /\ result.2 = backoff <$> seq attempt (length result.2)
  /\ (forall a, (attempt <= a < last)%nat ->
        exists e, messages_create env iteration a messages = Rejected e
                  /\ status e = Some 429%nat)
  /\ match result.1 with
     | Responded m => messages_create env iteration last messages = Resolved m
     | Threw e =>
       messages_create env iteration last messages = Rejected e
       /\ (status e = Some 429%nat -> last = 4%nat)
     | Unassigned => False
     end.
Proof.
  revert attempt. induction remaining as [|remaining IH]; intros attempt Hsum Hpos.
  - lia.
  - simpl. destruct (messages_create env iteration attempt messages) as [m|e] eqn:Hcall.
    + simpl. rewrite Nat.add_0_r. repeat split; [lia| |exact Hcall].
      intros a Ha. lia.
    + unfold rateLimited.
      destruct (bool_decide_reflect (status e = Some 429%nat)) as [Hrate|Hother];
        simpl.
      * destruct (Nat.ltb_spec attempt 4) as [Hlt|Hge].
        -- destruct (IH (S attempt)) as (Hlast & Hwaits & Hretry & Hend);
             [lia|lia|].
           destruct (createWithRetry env iteration messages remaining (S attempt))
             as [r waits]. simpl in *.
           replace (attempt + S (length waits))%nat
             with (S attempt + length waits)%nat by lia.
           repeat split.
           ++ exact Hlast.
           ++ f_equal. exact Hwaits.
           ++ intros a Ha. destruct (decide (a = attempt)) as [->|Hne].
              ** exists e. split; assumption.
              ** apply Hretry. lia.
           ++ exact Hend.
        -- simpl. rewrite Nat.add_0_r. repeat split; [lia| |exact Hcall|lia].
           intros a Ha. lia.
      * rewrite Nat.add_0_r. repeat split; [lia| |exact Hcall|].
        -- intros a Ha. lia.
        -- intros Hrate. contradiction.
Qed.

(** ** Invariants of the loop *)

Lemma saveSession_last (env : Env) (store : MemoryStore) (s : ResearchSession) :
  last (sessions (saveSession env store s)) = Some s.
Proof.
  rewrite saveSession_sessions.
  destruct (Nat.ltb_spec MAX_SESSIONS (length (sessions store ++ [s])))
    as [Hover|_]; [|apply last_snoc].
  rewrite length_app in *. simpl in *.
  replace (length (sessions store) + 1 - MAX_SESSIONS)%nat
    with (length (sessions store) - (MAX_SESSIONS - 1))%nat
    by (unfold MAX_SESSIONS; lia).
  rewrite drop_app_le by lia. apply last_snoc.
Qed.

Lemma useTools_frame (env : Env) (st : LoopState) (response : Message) :
  st_iterations (useTools env st response) = st_iterations st
  /\ st_disk (useTools env st response) = st_disk st
  /\ st_totalInputTokens (useTools env st response) = st_totalInputTokens st
  /\ st_totalOutputTokens (useTools env st response)
     = st_totalOutputTokens st.
Proof.
  unfold useTools. destruct (runToolCalls _ _ _) as [[count acc] results].
  repeat split.
Qed.

(** What one turn does, by the way its engine invocation ends. *)
Lemma iteration_continue (env : Env) (task_text : jsstring)
    (c : ResearchCriteria) (st st' : LoopState) :
  iteration env task_text c st = Continue st' ->
  st_iterations st' = S (st_iterations st)
  /\ st_disk st' = st_disk st
  /\ exists response,
       (createWithRetry env (S (st_iterations st)) (conversation env st) 5 0).1
       = Responded response
       /\ ((stop_reason response = tool_use
            /\ st' = useTools env (entered env st (Some response)) response)
           \/ (stop_reason response = other_stop
               /\ st' = entered env st (Some response))).
Proof.
  unfold iteration.
  destruct (createWithRetry _ _ _ _ _).1 as [response|e|]; try discriminate.
  unfold finish.
  destruct (stop_reason response) eqn:Hstop; intros Hstep;
    inversion Hstep; subst st'.
  - destruct (useTools_frame env (entered env st (Some response)) response)
      as (Hit & Hdisk & _).
    rewrite Hit, Hdisk. repeat split. exists response. split; [reflexivity|].
    left. split; [exact Hstop|reflexivity].
  - repeat split. exists response. split; [reflexivity|].
    right. split; [exact Hstop|reflexivity].
Qed.

Lemma iteration_done (env : Env) (task_text : jsstring)
    (c : ResearchCriteria) (st st' : LoopState) (o : Outcome) :
  iteration env task_text c st = Done o st' ->
  st_iterations st' = S (st_iterations st)
  /\ ((exists e,
         (createWithRetry env (S (st_iterations st)) (conversation env st) 5 0).1
         = Threw e
         /\ o = Rejects (engineError e)
         /\ st' = entered env st None)
      \/ (exists response,
            (createWithRetry env (S (st_iterations st)) (conversation env st)
               5 0).1
            = Responded response
            /\ stop_reason response = end_turn
            /\ finish env task_text c (entered env st (Some response)) response
               = Done o st')).
Proof.
  unfold iteration.
  pose proof (createWithRetry_spec env (S (st_iterations st))
                (conversation env st) 5 0 eq_refl) as Hspec.
  destruct (createWithRetry _ _ _ _ _).1 as [response|e|] eqn:Hretry.
  - destruct (stop_reason response) eqn:Hstop; try discriminate.
    intros Hstep. split.
    + unfold finish in Hstep. inversion Hstep. reflexivity.
    + right. exists response. repeat split; assumption.
  - intros Hstep. inversion Hstep; subst. split; [reflexivity|].
    left. exists e. repeat split.
  - exfalso. destruct Hspec as (_ & _ & _ & Hend); [lia|].
    rewrite Hretry in Hend. exact Hend.
Qed.

(** A property of the state that every continuing turn keeps holds when the
    loop ends. *)
Lemma agentLoop_invariant (env : Env) (task_text : jsstring)
    (c : ResearchCriteria) (I : LoopState -> Prop)
    (Q : Outcome -> LoopState -> Prop) :
  (forall st st',
     I st -> (st_iterations st < MAX_ITERATIONS)%nat ->
     iteration env task_text c st = Continue st' -> I st') ->
  (forall st o st',
     I st -> (st_iterations st < MAX_ITERATIONS)%nat ->
     iteration env task_text c st = Done o st' -> Q o st') ->
  (forall st, I st -> (MAX_ITERATIONS <= st_iterations st)%nat ->
     Q (exhausted env task_text c st).1 (exhausted env task_text c st).2) ->
  forall fuel st o st',
    I st -> agentLoop env task_text c fuel st = Some (o, st') -> Q o st'.
Proof.
  intros Hcontinue Hdone Hexhausted.
  assert (Hend : forall st o st',
            I st -> (MAX_ITERATIONS <= st_iterations st)%nat ->
            Some (exhausted env task_text c st) = Some (o, st') -> Q o st').
  { intros st o st' Hinv Hge Heq.
    assert (Hpair : exhausted env task_text c st = (o, st')) by congruence.
    replace o with (exhausted env task_text c st).1 by (rewrite Hpair; reflexivity).
    replace st' with (exhausted env task_text c st).2 by (rewrite Hpair; reflexivity).
    apply Hexhausted; assumption. }
  induction fuel as [|fuel IH]; intros st o st' Hinv; simpl;
    destruct (Nat.ltb_spec (st_iterations st) MAX_ITERATIONS) as [Hlt|Hge];
    try discriminate; try (apply Hend; assumption).
  destruct (iteration env task_text c st) as [st1|o1 st1] eqn:Hstep.
  - apply IH. eapply Hcontinue; eassumption.
  - intros Heq. assert (o1 = o /\ st1 = st') as [<- <-] by (split; congruence).
    eapply Hdone; eassumption.
Qed.






(** ** Engine failures *)



(** ** Termination *)

Lemma finish_returns (env : Env) (task_text : jsstring) (c : ResearchCriteria)
    (st : LoopState) (response : Message) :
  exists r,
    finish env task_text c st response
    = Done (Returned r)
        (persist env
           (finishedSession env task_text c st
              (join nl (textBlocksOf (msg_content response))))
           st)
    /\ answer r = join nl (textBlocksOf (msg_content response))
    /\ iterations r = st_iterations st
    /\ toolCalls r = st_toolCallCount st
    /\ candidatesEvaluated r = length (sessionCandidates (st_acc st)).
Proof. eexists. unfold finish. repeat split. Qed.

Lemma exhausted_returns (env : Env) (task_text : jsstring)
    (c : ResearchCriteria) (st : LoopState) :
  exists r,
    exhausted env task_text c st
    = (Returned r, persist env (exhaustedSession env task_text c st) st)
    /\ answer r
       = js "Research stopped after " ++ nat_to_string MAX_ITERATIONS
         ++ js " iterations. Evaluated "
         ++ nat_to_string (candidatesEvaluated r)
         ++ js " candidates. Results saved to memory."
    /\ iterations r = st_iterations st
    /\ toolCalls r = st_toolCallCount st
    /\ candidatesEvaluated r = length (sessionCandidates (st_acc st)).
Proof. eexists. unfold exhausted. repeat split. Qed.





Example acme_scenario_result :
  (fun out =>
     match out with
     | Some (Returned r, st) =>
       Some (iterations r, toolCalls r, candidatesEvaluated r, answer r,
             bestMatch <$> last (sessions (st_disk st)))
     | _ => None
     end)
    (runResearchAgent Sample.acmeScenario Sample.emptyStore 10
       Sample.pricingTask Sample.twoCriteria)
  = Some (3%nat, 2%nat, 1%nat,
          js "Best match: Acme SMS" ++ nl ++ js "Confidence: 8",
          Some (Some (js "Acme SMS"))).
Proof. vm_compute. reflexivity. Qed.

Example endless_scenario_result :
  (fun out =>
     match out with
     | Some (Returned r, st) =>
       Some (iterations r, toolCalls r, candidatesEvaluated r, answer r)
     | _ => None
     end)
    (runResearchAgent Sample.endless Sample.emptyStore 10
       Sample.pricingTask Sample.twoCriteria)
  = Some (10%nat, 10%nat, 10%nat,
          js "Research stopped after 10 iterations. Evaluated 10 candidates. Results saved to memory.").
Proof. vm_compute. reflexivity. Qed.

(** ** Tool calls *)

Lemma runToolCall_unfold (env : Env) (count : nat) (acc : Accumulators)
    (results : list ToolResultBlockParam) (call : ToolUseBlock) :
  runToolCall env (count, acc, results) call
  = (S count,
     (executeTool env (S count) (tu_name call) (tu_input call) acc).1,
     results
     ++ [toolResultOf call
           (executeTool env (S count) (tu_name call) (tu_input call) acc).2]).
Proof.
  unfold runToolCall. destruct (executeTool _ _ _ _ _). reflexivity.
Qed.

Lemma runToolCalls_cons (env : Env) (s : ToolLoop) (call : ToolUseBlock)
    (calls : list ToolUseBlock) :
  runToolCalls env s (call :: calls)
  = runToolCalls env (runToolCall env s call) calls.
Proof. reflexivity. Qed.






Lemma useTools_unfold (env : Env) (st : LoopState) (response : Message) :
  let ran :=
    runToolCalls env (st_toolCallCount st, st_acc st, [])
      (toolBlocksOf (msg_content response)) in
  useTools env st response
  = {| st_messages :=
         st_messages st
         ++ [ {| role := assistant;
                 content := BlockContent (msg_content response) |};
              {| role := user; content := ResultContent ran.2 |} ];
       st_iterations := st_iterations st;
       st_toolCallCount := ran.1.1;
       st_totalInputTokens := st_totalInputTokens st;
       st_totalOutputTokens := st_totalOutputTokens st;
       st_acc := ran.1.2;
       st_disk := st_disk st |}.
Proof.
  intros ran. unfold useTools. fold ran.
  destruct ran as [[count acc] results]. reflexivity.
Qed.



(** ** Verdicts and the best match *)

(** The declared record type and the tool schema disagree on the third
    verdict. *)
Example verdict_declarations_differ :
  js "partial" ∈ verdict_union
  /\ ~ (js "partial" ∈ verdict_enum)
  /\ js "needs_more_info" ∈ verdict_enum
  /\ ~ (js "needs_more_info" ∈ verdict_union).
Proof.
  repeat split.
  - apply (bool_decide_unpack _). vm_compute. exact I.
  - intros Hin. apply (bool_decide_pack _) in Hin. vm_compute in Hin.
    exact Hin.
  - apply (bool_decide_unpack _). vm_compute. exact I.
  - intros Hin. apply (bool_decide_pack _) in Hin. vm_compute in Hin.
    exact Hin.
Qed.

Lemma executeTool_candidates (env : Env) (n : nat) (tool : jsstring)
    (input : ToolInput) (acc : Accumulators) :
  sessionCandidates (executeTool env n tool input acc).1
  = if decide (tool = js "evaluate")
    then sessionCandidates acc ++ [candidateOf input]
    else sessionCandidates acc.
Proof.
  destruct (decide (tool = js "evaluate")) as [->|Hother].
  - rewrite executeTool_evaluate. reflexivity.
  - unfold executeTool.
    repeat (destruct (decide _) as [?|?]; [reflexivity|]).
    destruct (decide _) as [?|?]; [contradiction|reflexivity].
Qed.

Lemma runToolCalls_verdicts (env : Env) (calls : list ToolUseBlock)
    (count : nat) (acc : Accumulators) (results : list ToolResultBlockParam) :
  Forall (fun t => tu_name t = js "evaluate" ->
                   in_verdict (tu_input t) ∈ verdict_enum) calls ->
  verdictsWithinEnum (sessionCandidates acc) ->
  verdictsWithinEnum
    (sessionCandidates (runToolCalls env (count, acc, results) calls).1.2).
Proof.
  intros Hcalls. revert count acc results.
  induction Hcalls as [|call calls Hcall _ IH]; intros count acc results Hacc.
  - exact Hacc.
  - rewrite runToolCalls_cons, runToolCall_unfold. apply IH.
    rewrite executeTool_candidates.
    destruct (decide _) as [Heval|_]; [|exact Hacc].
    apply Forall_app. split; [exact Hacc|].
    constructor; [|constructor]. apply Hcall, Heval.
Qed.

Lemma createWithRetry_responded (env : Env) (it : nat)
    (messages : list MessageParam) (m : Message) :
  (createWithRetry env it messages 5 0).1 = Responded m ->
  exists attempt, messages_create env it attempt messages = Resolved m.
Proof.
  intros Hresponded.
  destruct (createWithRetry_spec env it messages 5 0 eq_refl)
    as (_ & _ & _ & Hend); [lia|].
  rewrite Hresponded in Hend. eauto.
Qed.

(** The candidates of the persisted session are the accumulated ones. *)
Lemma persist_session (env : Env) (s : ResearchSession) (st : LoopState) :
  last (sessions (st_disk (persist env s st))) = Some s
  /\ st_acc (persist env s st) = st_acc st.
Proof. split; [apply saveSession_last|reflexivity]. Qed.

(** C5 (as amended). The record an evaluate call stores carries the
    verdict string of the call, unchanged and unchecked; so when every
    evaluate call the engine makes carries one of the three values of the
    tool schema, every record in the candidate list of the run, and of the
    session it persists, has one of these three verdicts. *)
Theorem verdict_is_as_supplied (env : Env) (store : MemoryStore) (fuel : nat)
    (task_text : jsstring) (c : ResearchCriteria) (o : Outcome)
    (st : LoopState) :
  (forall n input acc,
     sessionCandidates (executeTool env n (js "evaluate") input acc).1
     = sessionCandidates acc ++ [candidateOf input]
     /\ verdict (candidateOf input) = in_verdict input)
  /\ ((forall it attempt messages m,
         messages_create env it attempt messages = Resolved m ->
         followsSchema m) ->
      runResearchAgent env store fuel task_text c = Some (o, st) ->
      verdictsWithinEnum (sessionCandidates (st_acc st))
      /\ forall r, o = Returned r ->
           exists s,
             last (sessions (st_disk st)) = Some s
             /\ candidates s = sessionCandidates (st_acc st)
             /\ verdictsWithinEnum (candidates s)).
Proof.
  split.
  { intros n input acc. rewrite executeTool_evaluate. split; reflexivity. }
  intros Hschema Hrun. unfold runResearchAgent in Hrun.
  apply (agentLoop_invariant env task_text c
           (fun st => verdictsWithinEnum (sessionCandidates (st_acc st)))
           (fun o st =>
              verdictsWithinEnum (sessionCandidates (st_acc st))
              /\ forall r, o = Returned r ->
                   exists s,
                     last (sessions (st_disk st)) = Some s
                     /\ candidates s = sessionCandidates (st_acc st)
                     /\ verdictsWithinEnum (candidates s)))
    in Hrun; [exact Hrun| | | |constructor].
  - intros st0 st1 Hinv _ Hstep.
    apply iteration_continue in Hstep
      as (_ & _ & response & Hresp & [(_ & ->)|(_ & ->)]); [|exact Hinv].
    rewrite useTools_unfold. cbn [st_acc st_toolCallCount entered].
    apply runToolCalls_verdicts; [|exact Hinv].
    apply createWithRetry_responded in Hresp as (attempt & Hcall).
    apply (Hschema _ _ _ _ Hcall).
  - intros st0 o0 st1 Hinv _ Hstep.
    apply iteration_done in Hstep
      as (_ & [(e & _ & -> & ->)|(response & _ & _ & Hfin)]).
    + split; [exact Hinv|]. intros r Hr. discriminate Hr.
    + destruct (finish_returns env task_text c
                  (entered env st0 (Some response)) response)
        as (r & Hret & _).
      rewrite Hret in Hfin.
      assert (st1 = persist env
                (finishedSession env task_text c
                   (entered env st0 (Some response))
                   (join nl (textBlocksOf (msg_content response))))
                (entered env st0 (Some response))) as -> by congruence.
      split; [exact Hinv|]. intros _ _. eexists.
      split; [apply saveSession_last|]. split; [reflexivity|exact Hinv].
  - intros st0 Hinv _.
    destruct (exhausted_returns env task_text c st0) as (r & -> & _).
    split; [exact Hinv|]. intros _ _. eexists.
    split; [apply saveSession_last|]. split; [reflexivity|exact Hinv].
Qed.

Lemma acme_follows_schema (it attempt : nat) (messages : list MessageParam)
    (m : Message) :
  messages_create Sample.acmeScenario it attempt messages = Resolved m ->
  followsSchema m.
Proof.
  assert (Hpass : js "pass" ∈ verdict_enum) by (vm_compute; left).
  cbn. destruct it as [|[|[|it]]]; intros [= <-];
    repeat constructor; intros _; exact Hpass.
Qed.

Lemma verdict_is_as_supplied_witness :
  exists o st,
    runResearchAgent Sample.acmeScenario Sample.emptyStore 10
      Sample.pricingTask Sample.twoCriteria = Some (o, st)
    /\ verdictsWithinEnum (sessionCandidates (st_acc st))
    /\ verdict <$> sessionCandidates (st_acc st) = [js "pass"].
Proof.
  destruct (runResearchAgent Sample.acmeScenario Sample.emptyStore 10
              Sample.pricingTask Sample.twoCriteria) as [[o st]|] eqn:Hrun;
    [|vm_compute in Hrun; discriminate Hrun].
  exists o, st. split; [reflexivity|].
  destruct (verdict_is_as_supplied Sample.acmeScenario Sample.emptyStore 10
              Sample.pricingTask Sample.twoCriteria o st)
    as (_ & Hinvariant).
  split; [apply (Hinvariant acme_follows_schema Hrun)|].
  assert (Hsame : Some (o, st)
                  = runResearchAgent Sample.acmeScenario Sample.emptyStore 10
                      Sample.pricingTask Sample.twoCriteria)
    by (symmetry; exact Hrun).
  vm_compute in Hsame. injection Hsame as _ ->. vm_compute. reflexivity.
Defined.

(** C5 (as stated) fails: the engine may ask for an evaluation with the
    verdict [partial], which the declared record type admits and the tool
    schema does not, and the record is stored with it. *)
Lemma verdict_is_not_checked :
  ~ (forall env store fuel task_text c o st,
       runResearchAgent env store fuel task_text c = Some (o, st) ->
       verdictsWithinEnum (sessionCandidates (st_acc st))).
Proof.
  intros Hclaim.
  destruct (runResearchAgent Sample.partialScenario Sample.emptyStore 10
              Sample.pricingTask Sample.twoCriteria) as [[o st]|] eqn:Hrun;
    [|vm_compute in Hrun; discriminate Hrun].
  specialize (Hclaim _ _ _ _ _ _ _ Hrun).
  assert (Hsame : Some (o, st)
                  = runResearchAgent Sample.partialScenario Sample.emptyStore
                      10 Sample.pricingTask Sample.twoCriteria)
    by (symmetry; exact Hrun).
  vm_compute in Hsame. injection Hsame as _ ->.
  unfold verdictsWithinEnum in Hclaim. cbn [st_acc sessionCandidates] in Hclaim.
  apply Forall_cons_1 in Hclaim as [Hin _]. cbn [verdict] in Hin.
  apply (bool_decide_pack _) in Hin. vm_compute in Hin. exact Hin.
Qed.

(** The best match of the two sessions a run may persist. *)
Lemma finishedSession_bestMatch (env : Env) (task_text : jsstring)
    (c : ResearchCriteria) (st : LoopState) (finalText : jsstring) :
  bestMatch (finishedSession env task_text c st finalText)
  = name <$> head (filter (fun c => verdict c = js "pass")
                     (candidates (finishedSession env task_text c st finalText))).
Proof. reflexivity. Qed.

Lemma exhaustedSession_bestMatch (env : Env) (task_text : jsstring)
    (c : ResearchCriteria) (st : LoopState) :
  bestMatch (exhaustedSession env task_text c st) = None
  /\ candidates (exhaustedSession env task_text c st)
     = sessionCandidates (st_acc st).
Proof. split; reflexivity. Qed.

(** On the finish intent the persisted session names the first candidate
    of verdict pass, if any. *)
Lemma finish_persists_best_match (env : Env) (task_text : jsstring)
    (c : ResearchCriteria) (st st' : LoopState) (response : Message)
    (o : Outcome) :
  finish env task_text c st response = Done o st' ->
  exists s,
    last (sessions (st_disk st')) = Some s
    /\ candidates s = sessionCandidates (st_acc st)
    /\ bestMatch s
       = name <$> head (filter (fun c => verdict c = js "pass") (candidates s)).
Proof.
  destruct (finish_returns env task_text c st response) as (r & -> & _).
  intros [= _ <-]. eexists. split; [apply saveSession_last|].
  split; reflexivity.
Qed.

(** At the cap the persisted session never names a best match, whatever
    the candidates are. *)
Lemma exhausted_persists_no_best_match (env : Env) (task_text : jsstring)
    (c : ResearchCriteria) (st : LoopState) :
  exists s,
    last (sessions (st_disk (exhausted env task_text c st).2)) = Some s
    /\ candidates s = sessionCandidates (st_acc st)
    /\ bestMatch s = None.
Proof.
  destruct (exhausted_returns env task_text c st) as (r & -> & _).
  eexists. split; [apply saveSession_last|]. split; reflexivity.
Qed.

(** C1 fails at the cap. With an engine that evaluates Acme SMS with
    verdict pass in each of the ten iterations and never finishes, the run
    ends in forced exhaustion and persists a session whose candidate list
    starts with a candidate of verdict pass, named Acme SMS, and whose
    best match is absent. *)
Theorem exhausted_session_drops_best_match :
  (fun out =>
     match out with
     | Some (Returned r, st) =>
       (fun s =>
          (iterations r, length (candidates s), bestMatch s,
           name <$> head (filter (fun c => verdict c = js "pass")
                            (candidates s))))
       <$> last (sessions (st_disk st))
     | _ => None
     end)
    (runResearchAgent Sample.endless Sample.emptyStore 10
       Sample.pricingTask Sample.twoCriteria)
  = Some (10%nat, 10%nat, None, Some (js "Acme SMS")).
Proof. vm_compute. reflexivity. Qed.

Example finished_session_names_best_match :
  (fun out =>
     match out with
     | Some (Returned r, st) =>
       (fun s => (iterations r, bestMatch s)) <$> last (sessions (st_disk st))
     | _ => None
     end)
    (runResearchAgent Sample.acmeScenario Sample.emptyStore 10
       Sample.pricingTask Sample.twoCriteria)
  = Some (3%nat, Some (js "Acme SMS")).
Proof. vm_compute. reflexivity. Qed.

(** ** Keywords *)

Lemma elem_of_rev {A} (l : list A) (x : A) : x ∈ rev l <-> x ∈ l.
Proof. rewrite !list_elem_of_In. symmetry. apply in_rev. Qed.

Lemma Forall_rev_list {A} (Q : A -> Prop) (l : list A) :
  Forall Q l -> Forall Q (rev l).
Proof.
  rewrite !Forall_forall. intros Hl x Hx. apply Hl.
  rewrite elem_of_rev in Hx. exact Hx.
Qed.

(** The pieces of [split(/\s+/)] hold no white space, and only code units
    of the string. *)
Lemma split_spaces_pieces (Q : N -> Prop) (s cur : jsstring) (gap : bool) :
  Forall Q s ->
  Forall (fun c => Q c /\ is_space c = false) cur ->
  Forall (Forall (fun c => Q c /\ is_space c = false))
    (split_spaces s cur gap).
Proof.
  intros Hs. revert cur gap.
  induction Hs as [|c s Hc Hs IH]; intros cur gap Hcur; simpl.
  - constructor; [|constructor]. apply Forall_rev_list, Hcur.
  - destruct (is_space c) eqn:Hspace.
    + destruct gap; [apply IH, Hcur|].
      constructor; [apply Forall_rev_list, Hcur|]. apply IH. constructor.
    + apply IH. constructor; [split; assumption|exact Hcur].
Qed.

(** A string without white space is one piece. *)
Lemma split_spaces_word (s cur : jsstring) :
  Forall (fun c => is_space c = false) s ->
  split_spaces s cur false = [rev cur ++ s].
Proof.
  intros Hs. revert cur. induction Hs as [|c s Hc _ IH]; intros cur; simpl.
  - rewrite app_nil_r. reflexivity.
  - rewrite Hc, IH. simpl. rewrite <- app_assoc. reflexivity.
Qed.

Section Pieces.

Context (P : jsstring -> Prop) `{!forall w, Decision (P w)}.
Hypothesis not_empty : ~ P [].

(** Whether the split starts inside a run of white space shows only in an
    empty first piece. *)
Lemma split_spaces_gap (s : jsstring) :
  filter P (split_spaces s [] true) = filter P (split_spaces s [] false).
Proof.
  destruct s as [|c s]; [reflexivity|]. simpl.
  destruct (is_space c); [|reflexivity].
  rewrite filter_cons, decide_False by exact not_empty. reflexivity.
Qed.

(** The non-empty pieces of two strings joined by white space are those of
    the first followed by those of the second. *)
Lemma split_spaces_app (s1 s2 cur : jsstring) (gap : bool) (sp : N) :
  is_space sp = true ->
  (gap = true -> cur = []) ->
  filter P (split_spaces (s1 ++ sp :: s2) cur gap)
  = filter P (split_spaces s1 cur gap) ++ filter P (split_spaces s2 [] false).
Proof.
  intros Hsp. revert cur gap.
  induction s1 as [|c s1 IH]; intros cur gap Hgap; simpl.
  - rewrite Hsp. destruct gap.
    + rewrite (Hgap eq_refl). simpl.
      rewrite (filter_cons _ []), decide_False by exact not_empty.
      apply split_spaces_gap.
    + rewrite !filter_cons, filter_nil, split_spaces_gap.
      destruct (decide (P (rev cur))); reflexivity.
  - destruct (is_space c).
    + destruct gap; [apply IH, Hgap|].
      rewrite !filter_cons, IH by reflexivity.
      destruct (decide (P (rev cur))); reflexivity.
    + apply IH. discriminate.
Qed.

End Pieces.

Lemma keyword_unit_class (c : N) :
  keyword_unit c = true -> keyword_class c = true /\ is_space c = false.
Proof.
  unfold keyword_unit. intros Hc. apply andb_true_iff in Hc as [Hclass Hs].
  split; [exact Hclass|]. apply negb_true_iff, Hs.
Qed.

(** The letters and digits of the keyword pattern are their own lower
    case. *)
Lemma keyword_unit_lower (c : N) :
  keyword_unit c = true -> lower_unit c = [c].
Proof.
  unfold keyword_unit, keyword_class, lower_unit. intros Hc.
  destruct (is_space c) eqn:Hs;
    [rewrite andb_false_r in Hc; discriminate Hc|].
  rewrite orb_false_r, andb_true_r in Hc.
  repeat match goal with
         | |- context [(?a <=? ?b)%N] => destruct (N.leb_spec a b)
         | |- context [(?a =? ?b)%N] => destruct (N.eqb_spec a b)
         end; simpl; try reflexivity; try lia;
  repeat match type of Hc with
         | context [(?a <=? ?b)%N] => destruct (N.leb_spec a b)
         | context [(?a =? ?b)%N] => destruct (N.eqb_spec a b)
         end; simpl in Hc; try discriminate Hc; lia.
Qed.

Lemma space_literal : js " " = [32%N].
Proof. reflexivity. Qed.

(** The keywords of two texts joined by a space are those of the first
    followed by those of the second. *)
Lemma extractKeywords_app (a b : jsstring) :
  extractKeywords (a ++ js " " ++ b) = extractKeywords a ++ extractKeywords b.
Proof.
  unfold extractKeywords, toLowerCase. rewrite space_literal.
  rewrite !flat_map_app. change (flat_map lower_unit [32%N]) with [32%N].
  rewrite !map_app.
  change (map _ [32%N]) with [32%N]. change ([32%N] ++ ?l) with (32%N :: l).
  rewrite (split_spaces_app (fun w => (3 < length w)%nat));
    [|simpl; lia|reflexivity|discriminate].
  apply filter_app.
Qed.

Lemma keywords_of_text (text : jsstring) :
  Forall keyword (extractKeywords text).
Proof.
  unfold extractKeywords. apply Forall_forall. intros w Hw.
  apply list_elem_of_filter in Hw as [Hstop Hw].
  apply list_elem_of_filter in Hw as [Hlong Hw].
  split; [exact Hlong|]. split.
  - intros Hin. unfold includes in Hstop.
    rewrite bool_decide_true in Hstop by exact Hin. exact Hstop.
  - assert (Hpieces :
      Forall (Forall (fun c => keyword_class c = true /\ is_space c = false))
        (split_spaces
           (map (fun c => if keyword_class c then c else 32%N)
              (toLowerCase text)) [] false)).
    { apply split_spaces_pieces; [|constructor].
      apply Forall_forall. intros c Hc.
      apply list_elem_of_fmap in Hc as (d & -> & _).
      destruct (keyword_class d) eqn:Hd; [exact Hd|reflexivity]. }
    rewrite Forall_forall in Hpieces.
    eapply Forall_impl; [exact (Hpieces w Hw)|].
    intros c [Hclass Hspace]. unfold keyword_unit.
    rewrite Hclass, Hspace. reflexivity.
Qed.

Lemma extractKeywords_word (w : jsstring) :
  keyword w -> extractKeywords w = [w].
Proof.
  intros (Hlong & Hstop & Hunits). unfold extractKeywords, toLowerCase.
  assert (Hlower : flat_map lower_unit w = w).
  { clear Hlong Hstop. induction Hunits as [|c w Hc _ IH]; [reflexivity|].
    simpl. rewrite (keyword_unit_lower c Hc), IH. reflexivity. }
  assert (Hkept : map (fun c => if keyword_class c then c else 32%N) w = w).
  { clear Hlong Hstop Hlower.
    induction Hunits as [|c w Hc _ IH]; [reflexivity|].
    simpl. rewrite (proj1 (keyword_unit_class c Hc)), IH. reflexivity. }
  rewrite Hlower, Hkept, split_spaces_word.
  - simpl rev. rewrite app_nil_l.
    rewrite (filter_cons _ w), decide_True by exact Hlong.
    rewrite filter_nil, filter_cons, decide_True; [reflexivity|].
    unfold includes. rewrite bool_decide_false by exact Hstop. exact I.
  - eapply Forall_impl; [exact Hunits|]. intros c Hc.
    exact (proj2 (keyword_unit_class c Hc)).
Qed.

(** X1. The keywords of a text are canonical. Every keyword
    [extractKeywords] returns has more than three code units, all of them
    lower-case Latin or Russian letters or digits, and is not a stop word;
    and extraction is idempotent: the keywords of a text, joined by spaces,
    have themselves as keywords, in the same order and with the same
    repetitions. *)
Theorem extractKeywords_canonical (text : jsstring) :
  Forall
    (fun w =>
       (3 < length w)%nat
       /\ ~ (w ∈ stop_words)
       /\ Forall (fun c => keyword_unit c = true) w)
    (extractKeywords text)
  /\ extractKeywords (join (js " ") (extractKeywords text))
     = extractKeywords text.
Proof.
  pose proof (keywords_of_text text) as Hshape.
  split; [exact Hshape|].
  induction Hshape as [|w ws Hw Hws IH]; [reflexivity|].
  destruct ws as [|w' ws].
  - apply extractKeywords_word, Hw.
  - change (join (js " ") (w :: w' :: ws))
      with (w ++ js " " ++ join (js " ") (w' :: ws)).
    rewrite extractKeywords_app, IH, (extractKeywords_word w Hw).
    reflexivity.
Qed.

(** ** The memory context *)

Lemma scored_lookup (store : MemoryStore) (task_text : jsstring) (r : Scored) :
  r ∈ scored store task_text ->
  session r ∈ sessions store
  /\ score r
     = Z.of_nat
         (length
            (filter
               (fun w => w ∈ extractKeywords (task (session r))
                         \/ w ∈ extractKeywords (conclusion (session r)))
               (extractKeywords task_text))).
Proof.
  intros Hr. destruct (scored_spec store task_text) as [Hsessions Hscores].
  split.
  - rewrite <- Hsessions. apply list_elem_of_fmap. exists r. split; [reflexivity|exact Hr].
  - rewrite Forall_forall in Hscores. rewrite (Hscores r Hr).
    f_equal. f_equal. apply list_filter_iff. intros w.
    rewrite extractKeywords_app, elem_of_app. reflexivity.
Qed.

(** X2. The score of a stored session counts, with their repetitions, the
    keywords of the new task that are keywords of the session's task or of
    its conclusion; it is at most the number of keywords of the new
    task. *)
Theorem score_counts_task_and_conclusion (store : MemoryStore)
    (task_text : jsstring) :
  Forall (fun r =>
            score r
            = Z.of_nat
                (length
                   (filter
                      (fun w =>
                         w ∈ extractKeywords (task (session r))
                         \/ w ∈ extractKeywords (conclusion (session r)))
                      (extractKeywords task_text)))
            /\ 0 <= score r <= Z.of_nat (length (extractKeywords task_text)))
    (scored store task_text).
Proof.
  apply Forall_forall. intros r Hr.
  destruct (scored_lookup store task_text r Hr) as [_ Hscore].
  split; [exact Hscore|]. rewrite Hscore.
  pose proof (length_filter
                (fun w => w ∈ extractKeywords (task (session r))
                          \/ w ∈ extractKeywords (conclusion (session r)))
                (extractKeywords task_text)).
  lia.
Qed.

Lemma js_slice_nil {A} (start : Z) (end_ : option Z) :
  js_slice (@nil A) start end_ = [].
Proof. unfold js_slice. rewrite drop_nil. apply take_nil. Qed.

Lemma relevant_none (store : MemoryStore) (task_text : jsstring)
    (maxSessions : Z) :
  extractKeywords task_text = [] ->
  relevant store task_text maxSessions = [].
Proof.
  intros Hnone. unfold relevant.
  rewrite filter_none; [apply js_slice_nil|].
  apply Forall_forall. intros r Hr.
  destruct (scored_lookup store task_text r Hr) as [_ Hscore].
  rewrite Hscore, Hnone. simpl. lia.
Qed.

Lemma heading_past : exists rest, js "## RELEVANT PAST RESEARCH" = js "## " ++ rest.
Proof. eexists. vm_compute. reflexivity. Qed.

Lemma heading_known : exists rest, js "## KNOWN SERVICES" = js "## " ++ rest.
Proof. eexists. vm_compute. reflexivity. Qed.

Lemma heading_not_sentinel (rest : jsstring) :
  js "## " ++ rest <> NO_HISTORY /\ js "## " ++ rest <> NOTHING_RELEVANT.
Proof.
  split; intros Heq; vm_compute in Heq; discriminate Heq.
Qed.

Lemma sentinels_differ : NO_HISTORY <> NOTHING_RELEVANT.
Proof. intros Heq. vm_compute in Heq. discriminate Heq. Qed.

Lemma faithful_empty (entries : Enumeration) {V} (m : gmap jsstring V) :
  faithful entries -> (entries V m = [] <-> m = ∅).
Proof.
  intros Hfaithful. split.
  - intros Hnil. apply map_to_list_empty_iff.
    pose proof (Hfaithful V m) as Hperm. rewrite Hnil in Hperm.
    apply Permutation_nil_l in Hperm. symmetry. exact Hperm.
  - intros ->. pose proof (Hfaithful V ∅) as Hperm.
    rewrite map_to_list_empty in Hperm.
    apply Permutation_nil_r in Hperm. exact Hperm.
Qed.

(** The context by cases: the two headed sections, or a fixed sentence. *)
Lemma getMemoryContext_cases (entries : Enumeration) (store : MemoryStore)
    (task_text : jsstring) (maxSessions : Z) :
  let context := getMemoryContext entries store task_text maxSessions in
  (sessions store = [] /\ entries _ (knownServices store) = []
   /\ context = NO_HISTORY)
  \/ (~ (sessions store = [] /\ entries _ (knownServices store) = [])
      /\ relevant store task_text maxSessions = []
      /\ relevantServices entries store task_text = []
      /\ context = NOTHING_RELEVANT)
  \/ (~ (sessions store = [] /\ entries _ (knownServices store) = [])
      /\ ~ (relevant store task_text maxSessions = []
            /\ relevantServices entries store task_text = [])
      /\ exists rest, context = js "## " ++ rest).
Proof.
  intros context. unfold context, getMemoryContext.
  destruct (sessions store) as [|s0 ss] eqn:Hsessions;
    destruct (entries _ (knownServices store)) as [|e0 es] eqn:Hentries;
    simpl andb; cbv iota.
  { left. repeat split. }
  all: right.
  all: destruct (relevant store task_text maxSessions) as [|r0 rs] eqn:Hpast;
    destruct (relevantServices entries store task_text) as [|k0 ks] eqn:Hknown.
  all: simpl length; cbv iota.
  all: try (left; split; [intros [? ?]; discriminate|];
            repeat split; reflexivity).
  all: right; split; [intros [? ?]; discriminate|];
    (split; [intros [? ?]; discriminate|]).
  all: try (destruct heading_known as (rest & ->);
            rewrite app_nil_l, <- !app_assoc;
            destruct (heading_not_sentinel rest) as [_ _];
            change (js "## " ++ ?t) with (35%N :: 35%N :: 32%N :: t);
            cbv iota; eexists; reflexivity).
  all: destruct heading_past as (rest & ->); rewrite <- !app_assoc;
    change (js "## " ++ ?t) with (35%N :: 35%N :: 32%N :: t);
    cbv iota; eexists; reflexivity.
Qed.

(** X3. The two fixed sentences of [getMemoryContext] tell the three
    situations apart: the context is "No prior research history." exactly
    when the store holds no session and no service, it is "No relevant
    prior research found for this task." exactly when the store is not
    empty but no session and no service is relevant, and in every other
    case it begins with a section heading. *)
Theorem getMemoryContext_sentinels (entries : Enumeration)
    (store : MemoryStore) (task_text : jsstring) (maxSessions : Z) :
  faithful entries ->
  let context := getMemoryContext entries store task_text maxSessions in
  let empty := sessions store = [] /\ knownServices store = ∅ in
  let nothing :=
    relevant store task_text maxSessions = []
    /\ relevantServices entries store task_text = [] in
  (context = NO_HISTORY <-> empty)
  /\ (context = NOTHING_RELEVANT <-> ~ empty /\ nothing)
  /\ (~ empty -> ~ nothing -> exists rest, context = js "## " ++ rest).
Proof.
  intros Hfaithful context empty nothing.
  pose proof (faithful_empty entries (knownServices store) Hfaithful)
    as Hempty.
  assert (Hcases := getMemoryContext_cases entries store task_text
                      maxSessions).
  cbv zeta in Hcases. fold context in Hcases. clearbody context.
  unfold empty, nothing. rewrite <- Hempty. clear Hempty empty nothing.
  destruct Hcases
    as [(Hs & He & ->)|[(Hne & Hp & Hk & ->)|(Hne & Hsome & rest & ->)]].
  - split; [split; [intros _; split; assumption|reflexivity]|].
    split.
    + split; [intros Heq; destruct (sentinels_differ Heq)|].
      intros [Hne _]. destruct Hne. split; assumption.
    + intros Hne. destruct Hne. split; assumption.
  - split.
    { split; [|intros Hempty; destruct (Hne Hempty)].
      intros Heq. symmetry in Heq. destruct (sentinels_differ Heq). }
    split.
    + split; [intros _|reflexivity]. split; [exact Hne|].
      split; assumption.
    + intros _ Hsome. destruct Hsome. split; assumption.
  - destruct (heading_not_sentinel rest) as [Hno Hnothing].
    split; [split; [intros Heq; destruct (Hno Heq)
                   |intros Hempty; destruct (Hne Hempty)]|].
    split.
    + split; [intros Heq; destruct (Hnothing Heq)|].
      intros [_ Hnone]. destruct (Hsome Hnone).
    + intros _ _. exists rest. reflexivity.
Qed.

Lemma getMemoryContext_sentinels_witness :
  getMemoryContext (fun V m => map_to_list m) Sample.emptyStore
    Sample.pricingTask DEFAULT_MAX_SESSIONS = NO_HISTORY
  /\ exists rest,
       getMemoryContext (fun V m => map_to_list m) Sample.researchStore
         Sample.pricingTask DEFAULT_MAX_SESSIONS = js "## " ++ rest.
Proof.
  assert (Hfaithful : faithful (fun V m => map_to_list m))
    by (intros V m; reflexivity).
  pose proof (getMemoryContext_sentinels _ Sample.emptyStore
                Sample.pricingTask DEFAULT_MAX_SESSIONS Hfaithful)
    as (Hempty & _ & _).
  pose proof (getMemoryContext_sentinels _ Sample.researchStore
                Sample.pricingTask DEFAULT_MAX_SESSIONS Hfaithful)
    as (_ & _ & Hheading).
  split.
  - exact (proj2 Hempty (conj eq_refl eq_refl)).
  - refine (Hheading _ _).
    + intros [Hnil _]. discriminate Hnil.
    + intros [Hnil _]. vm_compute in Hnil. discriminate Hnil.
Defined.

(** X4. A task without a keyword (every word has at most three letters or
    is a stop word) recalls nothing: the context is one of the two fixed
    sentences, whatever the store holds. *)
Theorem getMemoryContext_without_keywords (entries : Enumeration)
    (store : MemoryStore) (task_text : jsstring) (maxSessions : Z) :
  extractKeywords task_text = [] ->
  getMemoryContext entries store task_text maxSessions = NO_HISTORY
  \/ getMemoryContext entries store task_text maxSessions = NOTHING_RELEVANT.
Proof.
  intros Hnone.
  destruct (getMemoryContext_cases entries store task_text maxSessions)
    as [(_ & _ & Hctx)|[(_ & _ & _ & Hctx)|(_ & Hsome & _)]];
    [left; exact Hctx|right; exact Hctx|].
  exfalso. apply Hsome. split; [apply relevant_none, Hnone|].
  unfold relevantServices. rewrite Hnone. apply filter_none.
  apply Forall_forall. intros entry _ Hrel. exact Hrel.
Qed.

Lemma getMemoryContext_without_keywords_witness :
  getMemoryContext (fun V m => map_to_list m) Sample.researchStore
    (js "Find the SMS API") 5 = NOTHING_RELEVANT.
Proof.
  destruct (getMemoryContext_without_keywords (fun V m => map_to_list m)
              Sample.researchStore (js "Find the SMS API") 5)
    as [Hno|Hnothing]; [reflexivity| |exact Hnothing].
  exfalso. vm_compute in Hno. discriminate Hno.
Defined.







(** ** The store after a save *)












(** ** Recording a candidate in a stored session *)


(** X10. [recordCandidate] changes one session and nothing else. When no
    stored session has the identifier nothing is written. Otherwise the
    candidate is appended to the first session of that identifier; the
    sessions before and after it, later sessions of the same identifier
    among them, and the known services are written back as they were: the
    candidate's service is not recorded among the known services. *)
Theorem recordCandidate_first_session (store : MemoryStore)
    (sessionId : jsstring) (candidate : CandidateRecord) :
  match recordCandidate store sessionId candidate with
  | None => Forall (fun s => session_id s <> sessionId) (sessions store)
  | Some store' =>
    knownServices store' = knownServices store
    /\ exists before s after,
         sessions store = before ++ s :: after
         /\ Forall (fun earlier => session_id earlier <> sessionId) before
         /\ session_id s = sessionId
         /\ sessions store' = before ++ withCandidate s candidate :: after
  end.
Proof.
  unfold recordCandidate.
  destruct (list_find _ (sessions store)) as [[i s]|] eqn:Hfind.
  - split; [reflexivity|].
    apply list_find_Some in Hfind as (Hi & Hid & Hfirst).
    exists (take i (sessions store)), s, (drop (S i) (sessions store)).
    pose proof (lookup_lt_Some _ _ _ Hi) as Hlt.
    split; [symmetry; apply take_drop_middle, Hi|].
    split; [|split; [exact Hid|]].
    + apply Forall_forall. intros earlier Hearlier.
      apply list_elem_of_lookup in Hearlier as (j & Hj).
      pose proof (lookup_lt_Some _ _ _ Hj) as Hjlt.
      rewrite length_take in Hjlt.
      rewrite lookup_take_lt in Hj by lia.
      apply (Hfirst j earlier Hj). lia.
    + simpl. apply insert_take_drop, Hlt.
  - apply list_find_None in Hfind. exact Hfind.
Qed.



(** ** The length of the conversation *)

(** [compressHistory] either returns its input or splices it. *)
Lemma compressHistory_cases (env : Env) (n : nat)
    (messages : list MessageParam) (k : Z) :
  0 <= k ->
  compressHistory env n messages k = messages
  \/ exists first middle tail summary,
       messages = first :: middle ++ tail
       /\ (4 <= length middle)%nat
       /\ length tail = Z.to_nat (k * 2)
       /\ 0 < k
       /\ compressHistory env n messages k
          = [first; acknowledgement; summaryTurn (length middle) summary]
            ++ tail.
Proof.
  intros Hk.
  destruct (Nat.ltb_spec (length messages) 6) as [Hshort|Hlong];
    [left; apply compressHistory_short, Hshort|].
  destruct (Nat.ltb_spec
              (length (js_slice messages 1 (Some (- (k * 2))))) 4)
    as [Hsmall|Hmiddle].
  { left. unfold compressHistory.
    destruct (Nat.ltb_spec (length messages) 6); [reflexivity|].
    destruct messages; [reflexivity|].
    destruct (Nat.ltb_spec
                (length (js_slice (m :: messages) 1 (Some (- (k * 2))))) 4);
      [reflexivity|lia]. }
  destruct (compress_thresholds messages k Hk Hmiddle)
    as (Hpos & first & tail & Hsplit & Htail).
  destruct (generateSummary env n (js_slice messages 1 (Some (- (k * 2)))))
    as [summary|] eqn:Hsummary.
  - right.
    exists first, (js_slice messages 1 (Some (- (k * 2)))), tail, summary.
    split; [exact Hsplit|]. split; [exact Hmiddle|].
    split; [exact Htail|]. split; [exact Hpos|].
    rewrite Hsplit at 1. apply compressHistory_splices; assumption.
  - left. unfold compressHistory.
    destruct (Nat.ltb_spec (length messages) 6); [reflexivity|].
    destruct messages; [reflexivity|].
    destruct (_ <? _)%nat; [reflexivity|].
    rewrite Hsummary. reflexivity.
Qed.

(** X12. Compression never lengthens the conversation. For a non-negative
    number of exchanges to keep, [compressHistory] returns its input or a
    conversation at least two turns shorter, and in both cases the first
    turn and the last [keepLastExchanges * 2] turns are those of the
    input. *)
Theorem compressHistory_never_longer (env : Env) (n : nat)
    (messages : list MessageParam) (keepLastExchanges : Z) :
  0 <= keepLastExchanges ->
  let compressed := compressHistory env n messages keepLastExchanges in
  (compressed = messages \/ (length compressed + 2 <= length messages)%nat)
  /\ head compressed = head messages
  /\ drop (length compressed - Z.to_nat (keepLastExchanges * 2)) compressed
     = drop (length messages - Z.to_nat (keepLastExchanges * 2)) messages.
Proof.
  intros Hk compressed. unfold compressed.
  destruct (compressHistory_cases env n messages keepLastExchanges Hk)
    as [->|(first & middle & tail & summary & -> & Hmiddle & Htail & _ & ->)].
  - split; [left; reflexivity|]. split; reflexivity.
  - split; [right; simpl; rewrite !length_app; lia|].
    split; [reflexivity|].
    change ([first; acknowledgement; summaryTurn (length middle) summary]
            ++ tail)
      with ([first; acknowledgement; summaryTurn (length middle) summary]
            ++ tail).
    rewrite (app_comm_cons middle tail first).
    rewrite !length_app, <- Htail.
    replace (length [first; acknowledgement;
                     summaryTurn (length middle) summary]
             + length tail - length tail)%nat
      with (length [first; acknowledgement;
                    summaryTurn (length middle) summary]) by lia.
    replace (length (first :: middle) + length tail - length tail)%nat
      with (length (first :: middle)) by lia.
    rewrite !drop_app_length. reflexivity.
Qed.

Lemma compressHistory_never_longer_witness :
  length (compressHistory Sample.quiet 4 Sample.nineTurns 2) = 7%nat
  /\ head (compressHistory Sample.quiet 4 Sample.nineTurns 2)
     = head Sample.nineTurns.
Proof.
  destruct (compressHistory_never_longer Sample.quiet 4 Sample.nineTurns 2)
    as (_ & Hhead & _); [lia|].
  split; [vm_compute; reflexivity|exact Hhead].
Defined.

(** With the two exchanges the loop keeps, nothing of fewer than nine
    turns is compressed. *)
Lemma compressHistory_below_nine (env : Env) (n : nat)
    (messages : list MessageParam) :
  (length messages < 9)%nat ->
  compressHistory env n messages DEFAULT_KEEP_LAST_EXCHANGES = messages.
Proof.
  intros Hshort.
  destruct (compressHistory_cases env n messages DEFAULT_KEEP_LAST_EXCHANGES)
    as [Hsame|(first & middle & tail & summary & Hsplit & Hmiddle & Htail & _)];
    [unfold DEFAULT_KEEP_LAST_EXCHANGES; lia|exact Hsame|].
  rewrite Hsplit in Hshort. simpl in Hshort. rewrite length_app in Hshort.
  unfold DEFAULT_KEEP_LAST_EXCHANGES in Htail.
  change (Z.to_nat (2 * 2)) with 4%nat in Htail. lia.
Qed.

Lemma conversation_length (env : Env) (st : LoopState) :
  (length (conversation env st) <= length (st_messages st))%nat.
Proof.
  unfold conversation. destruct (compressionDue _); [|reflexivity].
  destruct (compressHistory_never_longer env (S (st_iterations st))
              (st_messages st) DEFAULT_KEEP_LAST_EXCHANGES)
    as ([->|Hshorter] & _); [unfold DEFAULT_KEEP_LAST_EXCHANGES; lia| |];
    lia.
Qed.

Lemma reachable_history (env : Env) (store : MemoryStore)
    (task_text : jsstring) (c : ResearchCriteria) (st : LoopState) :
  reachable env store task_text c st ->
  (length (st_messages st) <= 2 * st_iterations st + 1)%nat.
Proof.
  induction 1 as [|st st' _ IH _ Hstep]; [simpl; lia|].
  pose proof (conversation_length env st) as Hconv.
  apply iteration_continue in Hstep
    as (Hit & _ & response & _ & [[_ ->]|[_ ->]]).
  - rewrite useTools_unfold. simpl. rewrite length_app. simpl. lia.
  - simpl. lia.
Qed.

Lemma reachable_stateAfter (env : Env) (store : MemoryStore)
    (task_text : jsstring) (c : ResearchCriteria) (n : nat) :
  reachable env store task_text c (stateAfter env store task_text c n).
Proof.
  induction n as [|n IH]; [constructor|]. simpl.
  destruct (st_iterations _ <? MAX_ITERATIONS)%nat eqn:Hcap; [|exact IH].
  destruct (iteration env task_text c _) as [st'|o st'] eqn:Hstep;
    [|exact IH].
  eapply reachable_turn; eassumption.
Qed.

(** X13. The conversation grows by at most two turns per iteration, so the
    first compression boundary is idle. In every run the conversation
    held after [i] iterations has at most [2 * i + 1] turns; the history
    sent in the iterations 1 to 6 is the uncompressed one, the boundary at
    iteration 4 included, and the summarizer is first consulted at
    iteration 7. *)
Theorem history_is_first_compressed_at_seven (env : Env)
    (store : MemoryStore) (task_text : jsstring) (c : ResearchCriteria)
    (st : LoopState) :
  reachable env store task_text c st ->
  (length (st_messages st) <= 2 * st_iterations st + 1)%nat
  /\ (length (conversation env st) <= length (st_messages st))%nat
  /\ ((st_iterations st < 6)%nat -> conversation env st = st_messages st)
  /\ (compressionDue (S (st_iterations st)) = true ->
      (st_iterations st < MAX_ITERATIONS)%nat ->
      st_iterations st = 3%nat \/ st_iterations st = 6%nat
      \/ st_iterations st = 9%nat).
Proof.
  intros Hreach. pose proof (reachable_history _ _ _ _ _ Hreach) as Hlen.
  split; [exact Hlen|]. split; [apply conversation_length|]. split.
  - intros Hearly. unfold conversation.
    destruct (compressionDue (S (st_iterations st))) eqn:Hdue;
      [|reflexivity].
    apply compressHistory_below_nine.
    destruct (st_iterations st) as [|[|[|[|[|[|i]]]]]];
      try (vm_compute in Hdue; discriminate Hdue); lia.
  - intros Hdue Hcap. unfold MAX_ITERATIONS in Hcap.
    destruct (st_iterations st) as [|[|[|[|[|[|[|[|[|[|i]]]]]]]]]];
      try (vm_compute in Hdue; discriminate Hdue); lia.
Qed.

Lemma history_is_first_compressed_at_seven_witness :
  let st :=
    stateAfter Sample.endless Sample.emptyStore Sample.pricingTask
      Sample.twoCriteria 3 in
  st_iterations st = 3%nat
  /\ compressionDue (S (st_iterations st)) = true
  /\ length (st_messages st) = 7%nat
  /\ conversation Sample.endless st = st_messages st.
Proof.
  intros st.
  assert (Hit : st_iterations st = 3%nat) by (vm_compute; reflexivity).
  destruct (history_is_first_compressed_at_seven Sample.endless
              Sample.emptyStore Sample.pricingTask Sample.twoCriteria st)
    as (_ & _ & Hsame & _); [apply reachable_stateAfter|].
  split; [exact Hit|]. split; [rewrite Hit; reflexivity|].
  split; [vm_compute; reflexivity|].
  apply Hsame. rewrite Hit. lia.
Defined.

(** ** The shape of the conversation *)

Lemma exchanges_length (n : nat) : length (exchanges n) = (2 * n)%nat.
Proof.
  unfold exchanges. induction n as [|n IH]; [reflexivity|].
  simpl. rewrite IH. lia.
Qed.

Lemma exchanges_add (n m : nat) : exchanges (n + m) = exchanges n ++ exchanges m.
Proof. unfold exchanges. rewrite replicate_add, concat_app. reflexivity. Qed.

(** Compression keeps the turns alternating. *)
Lemma compressHistory_alternates (env : Env) (ordinal n : nat)
    (first : MessageParam) (body : list MessageParam) :
  role <$> body = exchanges n ->
  exists m rest,
    compressHistory env ordinal (first :: body) DEFAULT_KEEP_LAST_EXCHANGES
    = first :: rest
    /\ role <$> rest = exchanges m.
Proof.
  intros Hroles.
  destruct (compressHistory_cases env ordinal (first :: body)
              DEFAULT_KEEP_LAST_EXCHANGES)
    as [->|(first' & middle & tail & summary & Hsplit & Hmiddle & Htail & _
            & ->)]; [unfold DEFAULT_KEEP_LAST_EXCHANGES; lia| |].
  - exists n, body. split; [reflexivity|exact Hroles].
  - injection Hsplit as <- ->.
    change (Z.to_nat (DEFAULT_KEEP_LAST_EXCHANGES * 2)) with 4%nat in Htail.
    exists 3%nat, (acknowledgement :: summaryTurn (length middle) summary :: tail).
    split; [reflexivity|].
    assert (Hlen : (length middle + 4 = 2 * n)%nat).
    { rewrite <- exchanges_length, <- Hroles, length_fmap, length_app. lia. }
    assert (Hn : n = (n - 2 + 2)%nat) by lia.
    rewrite Hn, exchanges_add, fmap_app in Hroles.
    apply app_inj_2 in Hroles as [_ Htailroles];
      [|rewrite !length_fmap; exact Htail].
    rewrite !fmap_cons, Htailroles. reflexivity.
Qed.

Lemma reachable_alternates (env : Env) (store : MemoryStore)
    (task_text : jsstring) (c : ResearchCriteria) (st : LoopState) :
  reachable env store task_text c st ->
  exists n body,
    st_messages st
    = {| role := user; content := StringContent task_text |} :: body
    /\ role <$> body = exchanges n.
Proof.
  induction 1 as [|st st' _ (n & body & Hmessages & Hroles) _ Hstep].
  - exists 0%nat, []. split; reflexivity.
  - assert (Hsent : exists m rest,
              conversation env st
              = {| role := user; content := StringContent task_text |} :: rest
              /\ role <$> rest = exchanges m).
    { unfold conversation. destruct (compressionDue _).
      - rewrite Hmessages. eapply compressHistory_alternates, Hroles.
      - exists n, body. split; assumption. }
    destruct Hsent as (m & rest & Hsent & Hrest).
    apply iteration_continue in Hstep
      as (_ & _ & response & _ & [[_ ->]|[_ ->]]).
    + rewrite useTools_unfold. cbn [st_messages entered].
      exists (m + 1)%nat. eexists. rewrite Hsent.
      split; [rewrite <- app_comm_cons; reflexivity|].
      rewrite fmap_app, Hrest, exchanges_add. reflexivity.
    + exists m, rest. split; assumption.
Qed.

(** X14. The conversation keeps its shape. In every run the conversation,
    as held and as sent to the engine after a possible compression, begins
    with the user turn that carries the task, and continues with
    exchanges of one assistant turn and one user turn each: the turns
    alternate, and the last turn is a user turn. *)
Theorem conversation_alternates (env : Env) (store : MemoryStore)
    (task_text : jsstring) (c : ResearchCriteria) (st : LoopState) :
  reachable env store task_text c st ->
  exists held sent,
    head (st_messages st)
    = Some {| role := user; content := StringContent task_text |}
    /\ role <$> st_messages st = user :: exchanges held
    /\ head (conversation env st)
       = Some {| role := user; content := StringContent task_text |}
    /\ role <$> conversation env st = user :: exchanges sent
    /\ (sent <= held)%nat.
Proof.
  intros Hreach.
  destruct (reachable_alternates _ _ _ _ _ Hreach)
    as (n & body & Hmessages & Hroles).
  assert (Hsent : exists m rest,
            conversation env st
            = {| role := user; content := StringContent task_text |} :: rest
            /\ role <$> rest = exchanges m).
  { unfold conversation. destruct (compressionDue _).
    - rewrite Hmessages. eapply compressHistory_alternates, Hroles.
    - exists n, body. split; assumption. }
  destruct Hsent as (m & rest & Hsent & Hrest).
  exists n, m. rewrite Hmessages, Hsent, !fmap_cons, Hroles, Hrest.
  repeat (split; [reflexivity|]).
  pose proof (conversation_length env st) as Hle.
  rewrite Hmessages, Hsent in Hle. simpl length in Hle.
  rewrite <- (length_fmap role rest), <- (length_fmap role body) in Hle.
  rewrite Hroles, Hrest, !exchanges_length in Hle. lia.
Qed.

Lemma conversation_alternates_witness :
  let st :=
    stateAfter Sample.endless Sample.emptyStore Sample.pricingTask
      Sample.twoCriteria 7 in
  exists held sent,
    role <$> st_messages st = user :: exchanges held
    /\ role <$> conversation Sample.endless st = user :: exchanges sent
    /\ (sent <= held)%nat.
Proof.
  intros st.
  destruct (conversation_alternates Sample.endless Sample.emptyStore
              Sample.pricingTask Sample.twoCriteria st)
    as (held & sent & _ & Hheld & _ & Hsent & Hle);
    [apply reachable_stateAfter|].
  exists held, sent. split; [exact Hheld|]. split; [exact Hsent|exact Hle].
Defined.

(** ** Splitting an answer into messages *)

Lemma js_slice_from {A} (l : list A) (n : Z) :
  0 <= n ->
  js_slice l n None = drop (Z.to_nat n) l.
Proof.
  intros Hn. unfold js_slice, slice_index.
  destruct (Z.ltb_spec n 0) as [|_]; [lia|].
  rewrite take_ge by (rewrite length_drop; lia).
  destruct (Z.le_gt_cases n (Z.of_nat (length l))).
  - rewrite Z.min_l by lia. reflexivity.
  - rewrite Z.min_r by lia. rewrite Nat2Z.id.
    rewrite !drop_ge; [reflexivity|lia|lia].
Qed.

Lemma trimStart_gap (s : jsstring) :
  exists gap, s = gap ++ trimStart s /\ Telegram.blank gap.
Proof.
  induction s as [|c s (gap & Hs & Hgap)].
  - exists []. split; [reflexivity|constructor].
  - simpl. destruct (is_space c) eqn:Hc.
    + exists (c :: gap). split; [simpl; f_equal; exact Hs|].
      constructor; assumption.
    + exists []. split; [reflexivity|constructor].
Qed.

Lemma trimStart_head (s : jsstring) : Telegram.startsWithText (trimStart s).
Proof.
  intros c. induction s as [|d s IH]; [discriminate|].
  simpl. destruct (is_space d) eqn:Hd; [exact IH|].
  simpl. intros [= <-]. exact Hd.
Qed.

Lemma trimStart_length (s : jsstring) :
  (length (trimStart s) <= length s)%nat.
Proof.
  destruct (trimStart_gap s) as (gap & Hs & _).
  rewrite Hs at 2. rewrite length_app. lia.
Qed.

Lemma trimStart_text (s : jsstring) :
  Telegram.startsWithText s -> trimStart s = s.
Proof.
  destruct s as [|c s]; [reflexivity|].
  intros Htext. simpl. rewrite (Htext c eq_refl). reflexivity.
Qed.

Lemma lastIndexFrom_bounds (s pat : jsstring) (i : nat) :
  -1 <= lastIndexFrom s pat i <= Z.of_nat i.
Proof.
  induction i as [|i IH]; simpl; destruct (occursAt s pat _); lia.
Qed.

Lemma lastIndexOf_bounds (s pat : jsstring) (position : Z) :
  0 <= position ->
  -1 <= lastIndexOf s pat position <= position.
Proof.
  intros Hpos. unfold lastIndexOf.
  destruct (length s <? length pat)%nat; [lia|].
  pose proof (lastIndexFrom_bounds s pat
                (Nat.min (Z.to_nat (Z.min (Z.max position 0)
                                      (Z.of_nat (length s))))
                   (length s - length pat))) as Hb.
  lia.
Qed.

Section Limit.

Import Telegram.

(** At the limit of 4000 the test [split < maxLen * 0.3] is
    [split < 1200]. *)
Lemma tooEarly_CHUNK (split : Z) :
  -1 <= split <= CHUNK ->
  tooEarly split CHUNK = (split <? 1200).
Proof.
  intros Hsplit.
  assert (Hall : forallb (fun n => Bool.eqb
                     (tooEarly (Z.of_nat n - 1) CHUNK)
                     (Z.of_nat n - 1 <? 1200))
                   (seq 0 4002) = true) by (vm_compute; reflexivity).
  rewrite forallb_forall in Hall.
  specialize (Hall (Z.to_nat (split + 1))).
  replace (Z.of_nat (Z.to_nat (split + 1)) - 1) with split in Hall
    by (unfold CHUNK in Hsplit; lia).
  apply Bool.eqb_prop, Hall. apply in_seq. unfold CHUNK in Hsplit. lia.
Qed.

Lemma splitPoint_bounds (rest : jsstring) :
  1200 <= splitPoint rest CHUNK <= CHUNK.
Proof.
  unfold splitPoint.
  pose proof (lastIndexOf_bounds rest (nl ++ nl) CHUNK
                ltac:(unfold CHUNK; lia)) as Hblank.
  pose proof (lastIndexOf_bounds rest nl CHUNK
                ltac:(unfold CHUNK; lia)) as Hbreak.
  rewrite (tooEarly_CHUNK _ Hblank).
  destruct (Z.ltb_spec (lastIndexOf rest (nl ++ nl) CHUNK) 1200).
  - rewrite (tooEarly_CHUNK _ Hbreak).
    destruct (Z.ltb_spec (lastIndexOf rest nl CHUNK) 1200);
      unfold CHUNK in *; lia.
  - rewrite (tooEarly_CHUNK _ Hblank).
    destruct (Z.ltb_spec (lastIndexOf rest (nl ++ nl) CHUNK) 1200);
      unfold CHUNK in *; lia.
Qed.

(** The loop on [rest], with enough fuel: the chunks it adds, and the white
    space dropped after each of them. *)
Lemma splitLoop_spec (fuel : nat) (rest : jsstring) (chunks : list jsstring) :
  (length rest <= fuel)%nat ->
  exists more gaps,
    splitLoop fuel rest CHUNK chunks = Some (chunks ++ more)
    /\ length gaps = length more
    /\ rest = concat (zip_with app more gaps)
    /\ Forall blank gaps
    /\ Forall (fun chunk => 1 <= Z.of_nat (length chunk) <= CHUNK) more
    /\ (forall i chunk, more !! i = Some chunk -> (S i < length more)%nat ->
          1200 <= Z.of_nat (length chunk))
    /\ 1200 * (Z.of_nat (length more) - 1) <= Z.of_nat (length rest)
    /\ Forall startsWithText (drop 1 more)
    /\ (startsWithText rest -> Forall startsWithText more).
Proof.
  revert rest chunks. induction fuel as [|fuel IH]; intros rest chunks Hfuel.
  - destruct rest; [|simpl in Hfuel; lia].
    exists [], []. rewrite app_nil_r.
    split; [reflexivity|]. split; [reflexivity|]. split; [reflexivity|].
    split; [constructor|]. split; [constructor|].
    split; [intros i chunk Hi; discriminate Hi|].
    split; [simpl length; lia|]. split; [constructor|].
    intros _. constructor.
  - simpl. destruct (Nat.ltb_spec 0 (length rest)) as [Hpos|Hnil].
    2:{ destruct rest; [|simpl in Hnil; lia].
        exists [], []. rewrite app_nil_r.
        split; [reflexivity|]. split; [reflexivity|]. split; [reflexivity|].
        split; [constructor|]. split; [constructor|].
        split; [intros i chunk Hi; discriminate Hi|].
        split; [simpl length; lia|]. split; [constructor|].
        intros _. constructor. }
    destruct (Z.leb_spec (Z.of_nat (length rest)) CHUNK) as [Hfits|Hlong].
    + exists [rest], [[]]. simpl. rewrite !app_nil_r.
      split; [reflexivity|]. split; [reflexivity|]. split; [reflexivity|].
      split; [repeat constructor|].
      split; [constructor; [simpl length in *; lia|constructor]|].
      split; [intros i chunk _ Hi; simpl in Hi; lia|].
      split; [simpl length; lia|]. split; [constructor|].
      intros Htext. constructor; [exact Htext|constructor].
    + pose proof (splitPoint_bounds rest) as Hsplit.
      set (split := splitPoint rest CHUNK) in *.
      rewrite js_slice_from by lia. rewrite js_slice_prefix by lia.
      destruct (trimStart_gap (drop (Z.to_nat split) rest))
        as (gap & Hgap & Hblank).
      pose proof (trimStart_head (drop (Z.to_nat split) rest)) as Hhead.
      pose proof (trimStart_length (drop (Z.to_nat split) rest)) as Hle.
      set (rest' := trimStart (drop (Z.to_nat split) rest)) in *.
      rewrite length_drop in Hle.
      destruct (IH rest' (chunks ++ [take (Z.to_nat split) rest]))
        as (more & gaps & Hrun & Hlen & Hcat & Hgaps & Hsize & Hbig & Hcount
            & _ & Htext); [lia|].
      exists (take (Z.to_nat split) rest :: more), (gap :: gaps).
      assert (Htake : length (take (Z.to_nat split) rest) = Z.to_nat split).
      { rewrite length_take. unfold CHUNK in *. lia. }
      split; [rewrite Hrun, <- app_assoc; reflexivity|].
      split; [simpl; f_equal; exact Hlen|].
      split.
      { simpl. rewrite <- Hcat, <- app_assoc, <- Hgap. symmetry.
        apply take_drop. }
      split; [constructor; assumption|].
      split; [constructor; [lia|exact Hsize]|].
      split.
      { intros [|i] chunk Hi Hnext; simpl in Hi.
        - injection Hi as <-. lia.
        - apply (Hbig i chunk Hi). simpl in Hnext. lia. }
      split; [simpl length; lia|].
      split; [simpl; rewrite drop_0; exact (Htext Hhead)|].
      intros Hrest. constructor; [|exact (Htext Hhead)].
      intros c Hc. apply Hrest. rewrite <- Hc.
      destruct rest; [reflexivity|].
      destruct (Z.to_nat split) eqn:Hs; [lia|reflexivity].
Qed.

End Limit.

(** X15. An answer is cut into messages that fit the limit of 4000 code
    units. With fuel for one turn per code unit [splitMessage] returns;
    every chunk has at most 4000 code units, every chunk but the last has
    at least 1200, no chunk is empty unless the answer is, and there are
    at most [1 + length / 1200] chunks. *)
Theorem splitMessage_chunks_fit (text : jsstring) (fuel : nat) :
  (length text <= fuel)%nat ->
  exists chunks,
    Telegram.splitMessage fuel text Telegram.CHUNK = Some chunks
    /\ Forall (fun chunk => Z.of_nat (length chunk) <= Telegram.CHUNK) chunks
    /\ (text <> [] -> Forall (fun chunk => chunk <> []) chunks)
    /\ (forall i chunk,
          chunks !! i = Some chunk -> (S i < length chunks)%nat ->
          1200 <= Z.of_nat (length chunk))
    /\ 1 <= Z.of_nat (length chunks) <= 1 + Z.of_nat (length text) / 1200.
Proof.
  intros Hfuel. unfold Telegram.splitMessage.
  destruct (Z.leb_spec (Z.of_nat (length text)) Telegram.CHUNK)
    as [Hfits|Hlong].
  - exists [text]. split; [reflexivity|].
    split; [constructor; [exact Hfits|constructor]|].
    split; [intros Hne; constructor; [exact Hne|constructor]|].
    split; [intros i chunk _ Hi; simpl in Hi; lia|].
    simpl length. pose proof (Z.div_pos (Z.of_nat (length text)) 1200). lia.
  - destruct (splitLoop_spec fuel text [] Hfuel)
      as (more & gaps & Hrun & Hlen & Hcat & _ & Hsize & Hbig & Hcount & _).
    exists more. split; [exact Hrun|].
    split; [eapply Forall_impl; [exact Hsize|]; intros chunk [_ Hle]; exact Hle|].
    split.
    { intros _. eapply Forall_impl; [exact Hsize|].
      intros chunk [Hchunk _] ->. simpl in Hchunk. lia. }
    split; [exact Hbig|].
    destruct more as [|chunk more].
    { simpl in Hcat. rewrite Hcat in Hlong. simpl in Hlong.
      unfold Telegram.CHUNK in Hlong. lia. }
    split; [simpl length; lia|].
    assert (Z.of_nat (length (chunk :: more)) - 1
            <= Z.of_nat (length text) / 1200); [|lia].
    apply Z.div_le_lower_bound; lia.
Qed.

Lemma splitMessage_chunks_fit_witness :
  exists chunks,
    Telegram.splitMessage (length Fixture.longAnswer) Fixture.longAnswer
      Telegram.CHUNK = Some chunks
    /\ Forall (fun chunk => Z.of_nat (length chunk) <= Telegram.CHUNK) chunks.
Proof.
  destruct (splitMessage_chunks_fit
              Fixture.longAnswer (length Fixture.longAnswer))
    as (chunks & Hrun & Hfit & _).
  { apply Nat.le_refl. }
  exists chunks. split; assumption.
Defined.

(** X16. Splitting loses nothing but white space: the answer is the chunks
    in order, each followed by a (possibly empty) run of white space that
    was dropped, and no chunk after the first begins with white space. *)
Theorem splitMessage_keeps_text (text : jsstring) (fuel : nat) :
  (length text <= fuel)%nat ->
  exists chunks gaps,
    Telegram.splitMessage fuel text Telegram.CHUNK = Some chunks
    /\ length gaps = length chunks
    /\ text = concat (zip_with app chunks gaps)
    /\ Forall Telegram.blank gaps
    /\ Forall Telegram.startsWithText (drop 1 chunks).
Proof.
  intros Hfuel. unfold Telegram.splitMessage.
  destruct (Z.leb_spec (Z.of_nat (length text)) Telegram.CHUNK)
    as [Hfits|Hlong].
  - exists [text], [[]]. simpl. rewrite !app_nil_r.
    repeat split; repeat constructor.
  - destruct (splitLoop_spec fuel text [] Hfuel)
      as (more & gaps & Hrun & Hlen & Hcat & Hgaps & _ & _ & _ & Htail & _).
    exists more, gaps. repeat split; assumption.
Qed.

Lemma splitMessage_keeps_text_witness :
  exists chunks gaps,
    Telegram.splitMessage (length Fixture.longAnswer) Fixture.longAnswer
      Telegram.CHUNK = Some chunks
    /\ length gaps = length chunks
    /\ Forall Telegram.blank gaps.
Proof.
  destruct (splitMessage_keeps_text
              Fixture.longAnswer (length Fixture.longAnswer))
    as (chunks & gaps & Hrun & Hlen & _ & Hgaps & _).
  { apply Nat.le_refl. }
  exists chunks, gaps.
  split; [exact Hrun|]. split; [exact Hlen|exact Hgaps].
Defined.

Lemma splitLoop_step (fuel : nat) (rest : jsstring) (maxLen : Z)
    (chunks : list jsstring) :
  Telegram.splitLoop (S fuel) rest maxLen chunks
  = if (0 <? length rest)%nat then
      if Z.of_nat (length rest) <=? maxLen then Some (chunks ++ [rest])
      else
        Telegram.splitLoop fuel
          (trimStart (js_slice rest (Telegram.splitPoint rest maxLen) None))
          maxLen
          (chunks ++ [js_slice rest 0 (Some (Telegram.splitPoint rest maxLen))])
    else Some chunks.
Proof. reflexivity. Qed.

(** X17. The limit must be positive: with the limit 0 the loop of
    [splitMessage] makes no progress on an answer that begins with a
    character other than white space, whatever the fuel. *)
Theorem splitMessage_needs_positive_limit (text : jsstring) (fuel : nat) :
  text <> [] ->
  Telegram.startsWithText text ->
  Telegram.splitMessage fuel text 0 = None.
Proof.
  intros Hne Htext. unfold Telegram.splitMessage.
  destruct text as [|c text]; [contradiction|].
  assert (Hlong : (Z.of_nat (length (c :: text)) <=? 0) = false).
  { apply Z.leb_gt. simpl length. lia. }
  rewrite Hlong.
  assert (Hsplit : Telegram.splitPoint (c :: text) 0 = 0).
  { pose proof (Htext c eq_refl) as Hc.
    assert (Hnl : c <> 10%N) by (intros ->; vm_compute in Hc; discriminate Hc).
    assert (Hhere : forall pat,
              lastIndexOf (c :: text) (10%N :: pat) 0 = -1).
    { intros pat. unfold lastIndexOf.
      destruct (length (c :: text) <? length (10%N :: pat))%nat;
        [reflexivity|].
      change (Z.to_nat (Z.min (Z.max 0 0) (Z.of_nat (length (c :: text)))))
        with (Z.to_nat (Z.min 0 (Z.of_nat (length (c :: text))))).
      rewrite Z.min_l by lia. change (Z.to_nat 0) with 0%nat.
      rewrite Nat.min_0_l. unfold lastIndexFrom, occursAt.
      rewrite bool_decide_false; [reflexivity|].
      simpl. intros Heq. injection Heq as Heq _. contradiction. }
    unfold Telegram.splitPoint. change (nl ++ nl) with [10%N; 10%N].
    unfold nl. rewrite !Hhere.
    assert (Hearly : Telegram.tooEarly (-1) 0 = true)
      by (vm_compute; reflexivity).
    rewrite Hearly. reflexivity. }
  assert (Hstuck : forall chunks,
            Telegram.splitLoop fuel (c :: text) 0 chunks = None).
  { induction fuel as [|fuel IH]; intros chunks; [reflexivity|].
    rewrite splitLoop_step, Hlong, Hsplit.
    change (0 <? length (c :: text))%nat with true. cbv iota.
    rewrite js_slice_from by lia. change (Z.to_nat 0) with 0%nat.
    rewrite drop_0, (trimStart_text (c :: text) Htext). apply IH. }
  apply Hstuck.
Qed.

Lemma splitMessage_needs_positive_limit_witness :
  Telegram.splitMessage 1000 (js "Acme SMS") 0 = None.
Proof.
  apply splitMessage_needs_positive_limit.
  - intros Hnil. vm_compute in Hnil. discriminate Hnil.
  - intros c Hc. vm_compute in Hc. injection Hc as <-. reflexivity.
Defined.

(** ** Tool results and the evaluation report *)

Lemma truncation_notice (digits : jsstring) :
  length (nl ++ nl ++ js "[Truncated: " ++ digits
          ++ js " chars total. Key info above.]")
  = (44 + length digits)%nat.
Proof.
  rewrite !length_app.
  change (length nl) with 1%nat.
  change (length (js "[Truncated: ")) with 12%nat.
  change (length (js " chars total. Key info above.]")) with 30%nat.
  lia.
Qed.

(** X18. What reaches the conversation from a tool call. A returned text
    of at most 4000 code units is passed on as it is; a longer one is cut
    to its first 4000 code units and a notice of 44 code units plus the
    digits of the original length, so that the block is longer than the
    cap itself. The message of a failed call is passed on in full, behind
    "Error: ", and is never cut. *)
Theorem tool_result_is_capped (call : ToolUseBlock) (reply : ToolReply) :
  let block := toolResultOf call reply in
  tool_use_id block = tu_id call
  /\ match reply with
     | ToolText result =>
       is_error block = false
       /\ take MAX_RESULT (tr_content block) = take MAX_RESULT result
       /\ ((length result <= MAX_RESULT)%nat -> tr_content block = result)
       /\ ((MAX_RESULT < length result)%nat ->
           length (tr_content block)
           = (MAX_RESULT + 44 + length (nat_to_string (length result)))%nat)
     | ToolThrows msg =>
       is_error block = true
       /\ tr_content block = js "Error: " ++ msg
       /\ length (tr_content block) = (7 + length msg)%nat
     end.
Proof.
  intros block. unfold block. split; [destruct reply; reflexivity|].
  destruct reply as [result|msg]; cbn [toolResultOf tr_content is_error].
  - split; [reflexivity|]. unfold capResult.
    destruct (Nat.ltb_spec MAX_RESULT (length result)) as [Hlong|Hshort].
    + rewrite js_slice_prefix by lia. rewrite Nat2Z.id.
      split; [|split; [lia|]].
      * rewrite take_app_le by (rewrite length_take; lia).
        rewrite take_take. f_equal.
      * intros _. rewrite length_app, truncation_notice, length_take. lia.
    + split; [reflexivity|]. split; [reflexivity|lia].
  - split; [reflexivity|]. split; [reflexivity|].
    rewrite length_app. reflexivity.
Qed.




(** ** What a run saves *)

(** A tool call records at most one candidate or one query. *)
Lemma executeTool_accounting (env : Env) (n : nat) (tool : jsstring)
    (input : ToolInput) (acc : Accumulators) :
  let acc' := (executeTool env n tool input acc).1 in
  (length (sessionCandidates acc') + length (sessionQueries acc')
   <= S (length (sessionCandidates acc) + length (sessionQueries acc)))%nat.
Proof.
  unfold executeTool.
  repeat (destruct (decide _) as [?|?];
          [cbn [fst sessionCandidates sessionQueries];
           rewrite ?length_app; simpl length; lia|]).
  destruct (decide _) as [?|?].
  - unfold handleEvaluation. cbn [fst sessionCandidates sessionQueries].
    rewrite length_app. simpl length. lia.
  - cbn [fst]. lia.
Qed.

Lemma runToolCalls_accounting (env : Env) (calls : list ToolUseBlock)
    (count : nat) (acc : Accumulators) (results : list ToolResultBlockParam) :
  (length (sessionCandidates acc) + length (sessionQueries acc) <= count)%nat ->
  let ran := runToolCalls env (count, acc, results) calls in
  (length (sessionCandidates ran.1.2) + length (sessionQueries ran.1.2)
   <= ran.1.1)%nat.
Proof.
  revert count acc results.
  induction calls as [|call calls IH]; intros count acc results Hacc;
    [exact Hacc|].
  rewrite runToolCalls_cons, runToolCall_unfold. apply IH.
  pose proof (executeTool_accounting env (S count) (tu_name call)
                (tu_input call) acc) as Hcall.
  simpl in Hcall. lia.
Qed.

(** X20. A run that returns has saved exactly one session. The store it
    leaves is the result of one [saveSession] on the store it started
    from; the saved session is the most recent one, carries the task and
    the criteria of the run and as many candidates as the result counts;
    and the candidates and search queries it records are together no more
    than the tool calls the result counts. *)
Theorem returning_run_saves_one_session (env : Env) (store : MemoryStore)
    (fuel : nat) (task_text : jsstring) (c : ResearchCriteria)
    (r : ResearchResult) (st : LoopState) :
  runResearchAgent env store fuel task_text c = Some (Returned r, st) ->
  exists s,
    st_disk st = saveSession env store s
    /\ last (sessions (st_disk st)) = Some s
    /\ task s = task_text
    /\ criteria s = c
    /\ length (candidates s) = candidatesEvaluated r
    /\ (candidatesEvaluated r + length (searchQueries s) <= toolCalls r)%nat.
Proof.
  intros Hrun. unfold runResearchAgent in Hrun.
  apply (agentLoop_invariant env task_text c
           (fun st =>
              st_disk st = store
              /\ (length (sessionCandidates (st_acc st))
                  + length (sessionQueries (st_acc st))
                  <= st_toolCallCount st)%nat)
           (fun o st =>
              match o with
              | Returned r =>
                exists s,
                  st_disk st = saveSession env store s
                  /\ last (sessions (st_disk st)) = Some s
                  /\ task s = task_text
                  /\ criteria s = c
                  /\ length (candidates s) = candidatesEvaluated r
                  /\ (candidatesEvaluated r + length (searchQueries s)
                      <= toolCalls r)%nat
              | Rejects _ => True
              end)) in Hrun; [exact Hrun| | | |split; [reflexivity|simpl; lia]].
  - intros st0 st1 [Hdisk Hacc] _ Hstep.
    apply iteration_continue in Hstep
      as (_ & Hsame & response & _ & [[_ ->]|[_ ->]]).
    + split; [rewrite <- Hdisk; exact Hsame|].
      rewrite useTools_unfold. cbn [st_acc st_toolCallCount].
      apply runToolCalls_accounting. exact Hacc.
    + split; [exact Hdisk|exact Hacc].
  - intros st0 o st1 [Hdisk Hacc] _ Hstep.
    apply iteration_done in Hstep
      as (_ & [(e & _ & -> & _)|(response & _ & _ & Hfin)]); [exact I|].
    destruct (finish_returns env task_text c
                (entered env st0 (Some response)) response)
      as (r0 & Hret & _ & _ & Hcalls & Hcands).
    rewrite Hret in Hfin.
    assert (o = Returned r0
            /\ st1 = persist env
                       (finishedSession env task_text c
                          (entered env st0 (Some response))
                          (join nl (textBlocksOf (msg_content response))))
                       (entered env st0 (Some response))) as [-> ->]
      by (split; congruence).
    eexists. split; [cbn [persist st_disk entered]; rewrite Hdisk; reflexivity|].
    split; [apply saveSession_last|].
    split; [reflexivity|]. split; [reflexivity|].
    split; [rewrite Hcands; reflexivity|].
    rewrite Hcands, Hcalls. exact Hacc.
  - intros st0 [Hdisk Hacc] _.
    destruct (exhausted_returns env task_text c st0)
      as (r0 & -> & _ & _ & Hcalls & Hcands).
    cbn [fst snd].
    eexists. split; [cbn [persist st_disk]; rewrite Hdisk; reflexivity|].
    split; [apply saveSession_last|].
    split; [reflexivity|]. split; [reflexivity|].
    split; [rewrite Hcands; reflexivity|].
    rewrite Hcands, Hcalls. exact Hacc.
Qed.

Lemma returning_run_saves_one_session_witness :
  exists r st s,
    runResearchAgent Sample.acmeScenario Sample.emptyStore 10
      Sample.pricingTask Sample.twoCriteria = Some (Returned r, st)
    /\ st_disk st = saveSession Sample.acmeScenario Sample.emptyStore s
    /\ task s = Sample.pricingTask.
Proof.
  destruct (runResearchAgent Sample.acmeScenario Sample.emptyStore 10
              Sample.pricingTask Sample.twoCriteria)
    as [[[r|t] st]|] eqn:Hrun;
    [|vm_compute in Hrun; discriminate Hrun
     |vm_compute in Hrun; discriminate Hrun].
  destruct (returning_run_saves_one_session _ _ _ _ _ r st Hrun)
    as (s & Hdisk & _ & Htask & _).
  exists r, st, s. split; [reflexivity|]. split; assumption.
Defined.

(** ** What a tool call records *)


(** ** The session of a finished run *)

(** X22. A run that ends on the finish intent names its best match. When
    a run returns before the tenth iteration, the session it saved names
    the first candidate of verdict pass as best match (none when no
    candidate passed), its conclusion is the first 500 code units of the
    answer, and the answer is the text blocks of the engine's last message
    joined by line breaks. *)
Theorem finished_run_names_best_match (env : Env) (store : MemoryStore)
    (fuel : nat) (task_text : jsstring) (c : ResearchCriteria)
    (r : ResearchResult) (st : LoopState) :
  runResearchAgent env store fuel task_text c = Some (Returned r, st) ->
  (iterations r < MAX_ITERATIONS)%nat ->
  exists s,
    last (sessions (st_disk st)) = Some s
    /\ bestMatch s
       = name <$> head (filter (fun c => verdict c = js "pass") (candidates s))
    /\ conclusion s = take 500 (answer r)
    /\ sheetUrl r = truthy (Some (exportToSheets env s (cost r)))
    /\ exists response,
         (createWithRetry env (st_iterations st) (st_messages st) 5 0).1
         = Responded response
         /\ stop_reason response = end_turn
         /\ answer r = join nl (textBlocksOf (msg_content response)).
Proof.
  intros Hrun Hearly. unfold runResearchAgent in Hrun.
  apply (agentLoop_invariant env task_text c (fun _ => True)
           (fun o st =>
              match o with
              | Returned r =>
                (iterations r < MAX_ITERATIONS)%nat ->
                exists s,
                  last (sessions (st_disk st)) = Some s
                  /\ bestMatch s
                     = name <$> head (filter (fun c => verdict c = js "pass")
                                        (candidates s))
                  /\ conclusion s = take 500 (answer r)
                  /\ sheetUrl r = truthy (Some (exportToSheets env s (cost r)))
                  /\ exists response,
                       (createWithRetry env (st_iterations st)
                          (st_messages st) 5 0).1 = Responded response
                       /\ stop_reason response = end_turn
                       /\ answer r
                          = join nl (textBlocksOf (msg_content response))
              | Rejects _ => True
              end)) in Hrun; [exact (Hrun Hearly)| | | |exact I].
  - intros st0 st1 _ _ _. exact I.
  - intros st0 o st1 _ _ Hstep.
    apply iteration_done in Hstep
      as (_ & [(e & _ & -> & _)|(response & Hresp & Hstop & Hfin)]);
      [exact I|].
    unfold finish in Hfin.
    injection Hfin as <- <-. intros _.
    eexists. split; [apply saveSession_last|].
    split; [reflexivity|].
    split; [cbn [conclusion finishedSession answer];
            rewrite js_slice_prefix by lia; reflexivity|].
    split; [reflexivity|].
    exists response. split; [exact Hresp|]. split; [exact Hstop|reflexivity].
  - intros st0 _ Hcap.
    destruct (exhausted_returns env task_text c st0)
      as (r0 & -> & _ & Hiter & _).
    cbn [fst snd]. intros Hlt. rewrite Hiter in Hlt. lia.
Qed.

Lemma finished_run_names_best_match_witness :
  exists r st s,
    runResearchAgent Sample.acmeScenario Sample.emptyStore 10
      Sample.pricingTask Sample.twoCriteria = Some (Returned r, st)
    /\ last (sessions (st_disk st)) = Some s
    /\ bestMatch s
       = name <$> head (filter (fun c => verdict c = js "pass") (candidates s)).
Proof.
  destruct (runResearchAgent Sample.acmeScenario Sample.emptyStore 10
              Sample.pricingTask Sample.twoCriteria)
    as [[[r|t] st]|] eqn:Hrun;
    [|vm_compute in Hrun; discriminate Hrun
     |vm_compute in Hrun; discriminate Hrun].
  destruct (finished_run_names_best_match _ _ _ _ _ r st Hrun)
    as (s & Hlast & Hbest & _).
  - assert (Hiter : iterations r = 3%nat).
    { assert (Hvalue :
        (fun out => match out with
                    | Some (Returned r, _) => Some (iterations r)
                    | _ => None
                    end)
          (runResearchAgent Sample.acmeScenario Sample.emptyStore 10
             Sample.pricingTask Sample.twoCriteria) = Some 3%nat)
        by (vm_compute; reflexivity).
      rewrite Hrun in Hvalue. injection Hvalue as Hvalue. exact Hvalue. }
    rewrite Hiter. unfold MAX_ITERATIONS. lia.
  - exists r, st, s. split; [reflexivity|]. split; assumption.
Defined.

(** ** The rows of the spreadsheet export *)

Lemma startsWith_app (pat rest : jsstring) : startsWith (pat ++ rest) pat = true.
Proof.
  unfold startsWith, occursAt. rewrite drop_0, take_app_length.
  apply bool_decide_eq_true. reflexivity.
Qed.

Lemma replaceFirst_prefix (pat rest by_ : jsstring) :
  replaceFirst (pat ++ rest) pat by_ = by_ ++ rest.
Proof.
  unfold replaceFirst, indexOf.
  assert (Hfound : indexFrom (pat ++ rest) pat 0 = Some 0%nat).
  { destruct (pat ++ rest) eqn:Hs; simpl;
      rewrite <- Hs, take_app_length, bool_decide_true by reflexivity;
      reflexivity. }
  rewrite Hfound. simpl. rewrite drop_app_length. reflexivity.
Qed.

Lemma discover_tag : js "[discover] " = js "[discover]" ++ js " ".
Proof. reflexivity. Qed.

Lemma executeTool_google_search (env : Env) (n : nat) (input : ToolInput)
    (acc : Accumulators) :
  executeTool env n (js "google_search") input acc
  = ({| sessionCandidates := sessionCandidates acc;
        sessionQueries := sessionQueries acc ++ [in_query input] |},
     serperSearch env n (in_query input)).
Proof. reflexivity. Qed.

Lemma executeTool_discover (env : Env) (n : nat) (input : ToolInput)
    (acc : Accumulators) :
  executeTool env n (js "discover") input acc
  = ({| sessionCandidates := sessionCandidates acc;
        sessionQueries :=
          sessionQueries acc ++ [js "[discover] " ++ in_query input] |},
     geminiGroundedSearch env n (in_query input) (in_context input)).
Proof. reflexivity. Qed.

(** X23. The search log shows the queries as they were asked. A query of
    the tool discover, which [executeTool] records behind the tag
    "[discover] ", appears in its row as a Discover query with the tag
    removed, whether the search succeeded or not. A query of the tool
    google_search appears as a Google query, unchanged, unless it begins
    with "[discover]" itself: then it is shown as a Discover query. *)
Theorem search_log_shows_the_query (env : Env)
    (toLocaleString : jsstring -> jsstring) (n : nat) (input : ToolInput)
    (acc : Accumulators) (s : ResearchSession) (i : nat) :
  (exists q,
     sessionQueries (executeTool env n (js "discover") input acc).1
     = sessionQueries acc ++ [q]
     /\ drop 3 (Sheets.searchLogRow toLocaleString s i q)
        = [js "Discover (Gemini)"; in_query input])
  /\ (exists q,
        sessionQueries (executeTool env n (js "google_search") input acc).1
        = sessionQueries acc ++ [q]
        /\ q = in_query input
        /\ drop 3 (Sheets.searchLogRow toLocaleString s i q)
           = if startsWith q (js "[discover]")
             then [js "Discover (Gemini)";
                   replaceFirst q (js "[discover] ") []]
             else [js "Google (Serper)"; q]).
Proof.
  split.
  - exists (js "[discover] " ++ in_query input).
    rewrite executeTool_discover. split; [reflexivity|].
    unfold Sheets.searchLogRow. cbn [drop].
    rewrite replaceFirst_prefix.
    rewrite discover_tag, <- app_assoc, startsWith_app. reflexivity.
  - exists (in_query input). rewrite executeTool_google_search.
    split; [reflexivity|]. split; [reflexivity|].
    unfold Sheets.searchLogRow. cbn [drop].
    destruct (startsWith (in_query input) (js "[discover]")); reflexivity.
Qed.

(** X24. Every row of the export fits its tab. The summary row has one
    cell per column of the Summary header, and likewise every row of
    candidates and of the search log; there is one row per candidate and
    one per query, the queries numbered from 1. In the summary row the
    cell under Best Match is the best match or a dash, and the cell under
    Iterations is the number of search queries of the session. *)
Theorem rows_fit_their_headers (env : Env)
    (toLocaleString : jsstring -> jsstring) (s : ResearchSession)
    (cost : option Sheets.CostData) :
  let summary := Sheets.summaryRow env toLocaleString s cost in
  let evaluated := default [] (Sheets.appendCandidates env toLocaleString s) in
  let searched := default [] (Sheets.appendSearchLog toLocaleString s) in
  length summary = length Sheets.summaryHeader
  /\ length evaluated = length (candidates s)
  /\ Forall (fun row => length row = length Sheets.candidatesHeader) evaluated
  /\ length searched = length (searchQueries s)
  /\ Forall (fun row => length row = length Sheets.searchLogHeader) searched
  /\ (forall i row, searched !! i = Some row ->
        row !! 2%nat = Some (nat_to_string (i + 1)))
  /\ (Sheets.summaryHeader !! 2%nat = Some (js "Best Match")
      /\ summary !! 2%nat = Some (Sheets.orDash (bestMatch s)))
  /\ (Sheets.summaryHeader !! 4%nat = Some (js "Iterations")
      /\ summary !! 4%nat
         = Some (nat_to_string (length (searchQueries s)))).
Proof.
  intros summary evaluated searched.
  split; [reflexivity|].
  assert (Hevaluated : evaluated
                       = map (Sheets.candidateRow env toLocaleString s)
                           (candidates s)).
  { unfold evaluated, Sheets.appendCandidates.
    destruct (candidates s); reflexivity. }
  assert (Hsearched : searched
                      = imap (Sheets.searchLogRow toLocaleString s)
                          (searchQueries s)).
  { unfold searched, Sheets.appendSearchLog.
    destruct (searchQueries s); reflexivity. }
  split; [rewrite Hevaluated; apply length_map|].
  split.
  { rewrite Hevaluated. apply Forall_forall. intros row Hrow.
    apply list_elem_of_fmap in Hrow as (c & -> & _). reflexivity. }
  split; [rewrite Hsearched; apply length_imap|].
  split.
  { rewrite Hsearched. apply Forall_forall. intros row Hrow.
    apply list_elem_of_lookup in Hrow as (i & Hrow).
    rewrite list_lookup_imap in Hrow.
    destruct (searchQueries s !! i); [|discriminate Hrow].
    injection Hrow as <-. reflexivity. }
  split.
  { intros i row Hrow. rewrite Hsearched, list_lookup_imap in Hrow.
    destruct (searchQueries s !! i); [|discriminate Hrow].
    injection Hrow as <-. reflexivity. }
  split; split; reflexivity.
Qed.

Lemma rows_fit_their_headers_witness :
  length (Sheets.summaryRow Sample.quiet (fun t => t) (Sample.sessionOf []) None)
  = 7%nat.
Proof.
  destruct (rows_fit_their_headers Sample.quiet (fun t => t)
              (Sample.sessionOf []) None) as (Hsummary & _).
  rewrite Hsummary. reflexivity.
Defined.

(** X25. [ensureTabs] adds the required tabs that do not exist yet, and
    only those: the tabs it adds are required, absent and in the order
    Summary, Candidates, Search Log, each has a header row to write, every
    required tab exists or is added, and once they are added a second call
    finds nothing missing. *)
Theorem ensureTabs_adds_what_is_missing (existingTabs : list jsstring) :
  let added := Sheets.missing existingTabs in
  added `sublist_of` Sheets.requiredTabs
  /\ Forall (fun t => ~ (t ∈ existingTabs) /\ is_Some (Sheets.headers t)) added
  /\ Forall (fun t => t ∈ existingTabs ++ added) Sheets.requiredTabs
  /\ Sheets.missing (existingTabs ++ added) = []
  /\ (Forall (fun t => t ∈ existingTabs) Sheets.requiredTabs -> added = []).
Proof.
  intros added. unfold added, Sheets.missing.
  assert (Hspec : forall present t,
            t ∈ filter (fun t => negb (includes present t)) Sheets.requiredTabs
            <-> ~ (t ∈ present) /\ t ∈ Sheets.requiredTabs).
  { intros present t. rewrite list_elem_of_filter. unfold includes.
    destruct (bool_decide_reflect (t ∈ present)) as [Hin|Hout];
      simpl; tauto. }
  split; [apply sublist_filter|]. split; [|split; [|split]].
  - apply Forall_forall. intros t Ht. apply Hspec in Ht as [Hout Hreq].
    split; [exact Hout|]. unfold Sheets.requiredTabs in Hreq.
    repeat (apply elem_of_cons in Hreq as [->|Hreq]; [eexists; reflexivity|]).
    apply elem_of_nil in Hreq. contradiction.
  - apply Forall_forall. intros t Ht. apply elem_of_app.
    destruct (decide (t ∈ existingTabs)) as [Hin|Hout]; [left; exact Hin|].
    right. apply Hspec. split; assumption.
  - apply filter_none, Forall_forall. intros t Ht Hmissing.
    unfold includes in Hmissing. apply negb_prop_elim in Hmissing.
    apply Hmissing. apply bool_decide_pack. apply elem_of_app.
    destruct (decide (t ∈ existingTabs)) as [Hin|Hout]; [left; exact Hin|].
    right. apply Hspec. split; assumption.
  - intros Hall. apply filter_none, Forall_forall. intros t Ht Hmissing.
    rewrite Forall_forall in Hall. unfold includes in Hmissing.
    apply negb_prop_elim in Hmissing. apply Hmissing.
    apply bool_decide_pack, Hall, Ht.
Qed.

Lemma ensureTabs_adds_what_is_missing_witness :
  Sheets.missing [js "Sheet1"; js "Candidates"]
  = [js "Summary"; js "Search Log"]
  /\ Sheets.missing
       ([js "Sheet1"; js "Candidates"]
        ++ Sheets.missing [js "Sheet1"; js "Candidates"]) = [].
Proof.
  destruct (ensureTabs_adds_what_is_missing [js "Sheet1"; js "Candidates"])
    as (_ & _ & _ & Hagain & _).
  split; [vm_compute; reflexivity|exact Hagain].
Defined.

(** ** Reading a page *)

Lemma page_notice (digits : jsstring) :
  length (nl ++ nl ++ js "[Truncated. Full page: " ++ digits
          ++ js " chars. Use extract_from_url for targeted extraction.]")
  = (79 + length digits)%nat.
Proof.
  rewrite !length_app.
  change (length nl) with 1%nat.
  change (length (js "[Truncated. Full page: ")) with 23%nat.
  change (length (js " chars. Use extract_from_url for targeted extraction.]"))
    with 54%nat.
  lia.
Qed.

Lemma cap_below_page_limit : (MAX_RESULT < Z.to_nat 12000)%nat.
Proof. apply Nat.ltb_lt. vm_compute. reflexivity. Qed.

Lemma getPageText_prefix (fetchPage : jsstring -> jsstring) (url : jsstring) :
  take MAX_RESULT (Scrape.getPageText fetchPage url)
  = take MAX_RESULT (fetchPage url)
  /\ (length (fetchPage url) <= MAX_RESULT <->
      length (Scrape.getPageText fetchPage url) <= MAX_RESULT)%nat
  /\ (12000 < Z.of_nat (length (fetchPage url)) ->
      length (Scrape.getPageText fetchPage url)
      = (Z.to_nat 12000 + 79
         + length (nat_to_string (length (fetchPage url))))%nat).
Proof.
  pose proof cap_below_page_limit as Hcap.
  unfold Scrape.getPageText.
  destruct (Z.ltb_spec 12000 (Z.of_nat (length (fetchPage url))))
    as [Hlong|Hshort].
  - rewrite js_slice_prefix by lia.
    assert (Hlen : length (take (Z.to_nat 12000) (fetchPage url))
                   = Z.to_nat 12000) by (rewrite length_take; lia).
    split; [|split].
    + rewrite take_app_le by lia. rewrite take_take. f_equal.
    + rewrite length_app, Hlen. lia.
    + intros _. rewrite length_app, Hlen, page_notice. lia.
  - split; [reflexivity|]. split; [reflexivity|lia].
Qed.

(** X26. A page read for the engine is cut twice, and only the second cut
    shows. When the back end of the tool read_page is [getPageText], the
    result block of a call holds the page as it is when the page has at
    most 4000 code units, and otherwise the first 4000 code units of the
    page followed by the notice of the tool gateway; the notice of
    [getPageText], with the length of a page of more than 12000 code
    units, never reaches the engine. *)
Theorem read_page_is_cut_twice (env : Env) (fetchPage : jsstring -> jsstring)
    (url : jsstring) (call : ToolUseBlock) (count : nat) (acc : Accumulators)
    (results : list ToolResultBlockParam) :
  tu_name call = js "read_page" ->
  getPageText env (S count) (in_url (tu_input call))
  = ToolText (Scrape.getPageText fetchPage url) ->
  let page := fetchPage url in
  exists block,
    runToolCall env (count, acc, results) call
    = (S count, acc, results ++ [block])
    /\ tool_use_id block = tu_id call
    /\ is_error block = false
    /\ take MAX_RESULT (tr_content block) = take MAX_RESULT page
    /\ ((length page <= MAX_RESULT)%nat -> tr_content block = page)
    /\ ((MAX_RESULT < length page)%nat ->
        tr_content block
        = take MAX_RESULT page ++ nl ++ nl ++ js "[Truncated: "
          ++ nat_to_string (length (Scrape.getPageText fetchPage url))
          ++ js " chars total. Key info above.]")
    /\ (12000 < Z.of_nat (length page) ->
        length (Scrape.getPageText fetchPage url)
        = (Z.to_nat 12000 + 79 + length (nat_to_string (length page)))%nat).
Proof.
  intros Htool Hback page.
  destruct (getPageText_prefix fetchPage url) as (Hprefix & Hfits & Hcount).
  exists (toolResultOf call (ToolText (Scrape.getPageText fetchPage url))).
  split.
  { rewrite runToolCall_unfold, Htool. unfold executeTool.
    rewrite decide_False by (intros Heq; vm_compute in Heq; discriminate Heq).
    rewrite decide_False by (intros Heq; vm_compute in Heq; discriminate Heq).
    rewrite decide_False by (intros Heq; vm_compute in Heq; discriminate Heq).
    rewrite decide_True by reflexivity. cbn [fst snd]. rewrite Hback.
    reflexivity. }
  split; [reflexivity|]. split; [reflexivity|].
  cbn [toolResultOf tr_content]. unfold capResult.
  destruct (Nat.ltb_spec MAX_RESULT
              (length (Scrape.getPageText fetchPage url))) as [Hlong|Hshort].
  - rewrite js_slice_prefix by lia. rewrite Nat2Z.id, Hprefix.
    fold page in Hfits |- *.
    split; [|split; [lia|split; [reflexivity|exact Hcount]]].
    rewrite take_app_le by (rewrite length_take; lia).
    rewrite take_take. f_equal.
  - fold page in Hfits, Hprefix.
    split; [exact Hprefix|]. split; [|split; [lia|exact Hcount]].
    intros Hpage. unfold Scrape.getPageText. fold page.
    destruct (Z.ltb_spec 12000 (Z.of_nat (length page))) as [Hover|_];
      [|reflexivity].
    pose proof cap_below_page_limit. lia.
Qed.

Lemma read_page_is_cut_twice_witness :
  exists block,
    runToolCall Fixture.reader
      (0%nat, {| sessionCandidates := []; sessionQueries := [] |}, [])
      (Sample.call "toolu_r" "read_page" Sample.acmeInput)
    = (1%nat, {| sessionCandidates := []; sessionQueries := [] |}, [block])
    /\ take MAX_RESULT (tr_content block)
       = take MAX_RESULT (Fixture.fetchPage (js "https://acme.example/pricing")).
Proof.
  destruct (read_page_is_cut_twice Fixture.reader Fixture.fetchPage
              (js "https://acme.example/pricing")
              (Sample.call "toolu_r" "read_page" Sample.acmeInput)
              0 {| sessionCandidates := []; sessionQueries := [] |} [])
    as (block & Hrun & _ & _ & Hprefix & _); [reflexivity|reflexivity|].
  exists block. split; [exact Hrun|exact Hprefix].
Defined.

(** X27. [extractFromUrl] always answers with a text. A fetch that failed
    is reported as such without consulting the extraction model, and so is
    a page that begins with the word FAILED; otherwise the model is given
    the first 150000 code units of the page, followed by a notice when
    there were more, and its answer, or the message of its failure, is
    returned behind a fixed heading. *)
Theorem extractFromUrl_outcomes (fetchPage : jsstring -> jsstring)
    (generate : jsstring -> jsstring -> jsstring -> ToolReply)
    (url extractionTask : jsstring) :
  let page := fetchPage url in
  let answer := Scrape.extractFromUrl fetchPage generate url extractionTask in
  (startsWith page (js "FAILED") = true ->
   answer = js "Could not access " ++ url ++ js ": " ++ page
   /\ forall generate',
        Scrape.extractFromUrl fetchPage generate' url extractionTask = answer)
  /\ (startsWith page (js "FAILED") = false ->
      exists content,
        take (Z.to_nat 150000) content = take (Z.to_nat 150000) page
        /\ (Z.of_nat (length page) <= 150000 -> content = page)
        /\ (150000 < Z.of_nat (length page) ->
            Z.of_nat (length content)
            = 150000 + 32 + Z.of_nat (length (nat_to_string (length page))))
        /\ answer
           = match generate url content extractionTask with
             | ToolText text =>
               js "Extracted from " ++ url ++ js ":" ++ nl ++ nl ++ text
             | ToolThrows msg =>
               js "Extraction failed for " ++ url ++ js ": " ++ msg
             end).
Proof.
  intros page answer. unfold answer, Scrape.extractFromUrl. fold page.
  split; intros Hfailed; rewrite Hfailed.
  - split; [reflexivity|]. intros generate'. reflexivity.
  - destruct (Z.ltb_spec 150000 (Z.of_nat (length page))) as [Hlong|Hshort].
    + eexists. split; [|split; [|split; [|reflexivity]]].
      * rewrite js_slice_prefix by lia.
        rewrite take_app_le by (rewrite length_take; lia).
        rewrite take_take, Nat.min_id. reflexivity.
      * lia.
      * intros _. rewrite js_slice_prefix by lia.
        rewrite !length_app, length_take.
        change (length nl) with 1%nat.
        change (length (js "[Page truncated: ")) with 17%nat.
        change (length (js " total chars]")) with 13%nat. lia.
    + exists page. split; [reflexivity|]. split; [reflexivity|].
      split; [lia|reflexivity].
Qed.

Lemma extractFromUrl_outcomes_witness :
  Scrape.extractFromUrl (fun _ => js "FAILED: HTTP 403")
    (fun _ _ _ => ToolText (js "Price: 0.04 USD"))
    (js "https://acme.example") (js "price per SMS")
  = js "Could not access https://acme.example: FAILED: HTTP 403".
Proof.
  destruct (extractFromUrl_outcomes (fun _ => js "FAILED: HTTP 403")
              (fun _ _ _ => ToolText (js "Price: 0.04 USD"))
              (js "https://acme.example") (js "price per SMS"))
    as [Hfailed _].
  destruct (Hfailed eq_refl) as [Hanswer _].
  etransitivity; [exact Hanswer|]. vm_compute. reflexivity.
Defined.

(** ** Parsing a request *)


(** ** The clean-up of a page *)

Section Replace.

Import Scrape.

Lemma replaceAll_units (matcher : Matcher) (by_ s : jsstring) (skip : nat)
    (x : N) :
  x ∈ replaceAll matcher by_ s skip -> x ∈ by_ \/ x ∈ s.
Proof.
  revert skip. induction s as [|c rest IH]; intros skip Hx; simpl in Hx.
  - apply elem_of_nil in Hx. contradiction.
  - destruct skip as [|k].
    + destruct (matcher (c :: rest)) as [[|n]|].
      * apply elem_of_cons in Hx as [->|Hx]; [right; left|].
        destruct (IH _ Hx) as [?|?]; [left|right; right]; assumption.
      * apply elem_of_app in Hx as [Hx|Hx]; [left; exact Hx|].
        destruct (IH _ Hx) as [?|?]; [left|right; right]; assumption.
      * apply elem_of_cons in Hx as [->|Hx]; [right; left|].
        destruct (IH _ Hx) as [?|?]; [left|right; right]; assumption.
    + destruct (IH _ Hx) as [?|?]; [left|right; right]; assumption.
Qed.

Lemma indexFrom_absent (s : jsstring) (x : N) (from : nat) :
  indexFrom s [x] from = None <-> ~ (x ∈ s).
Proof.
  revert from. induction s as [|c s IH]; intros from.
  - cbn [indexFrom length]. change (take 1 (@nil N)) with (@nil N).
    rewrite bool_decide_false by discriminate.
    split; [intros _ Hin; apply elem_of_nil in Hin; exact Hin|reflexivity].
  - cbn [indexFrom length]. change (take 1 (c :: s)) with [c].
    destruct (bool_decide_reflect ([c] = [x])) as [Heq|Hne].
    + injection Heq as ->. split; [discriminate|].
      intros Hout. destruct Hout. left.
    + rewrite IH, not_elem_of_cons. split; [|tauto].
      intros Hout. split; [|exact Hout]. intros ->. apply Hne. reflexivity.
Qed.

(** The tag pattern, by its first unit. *)
Lemma matchTag_cons (c : N) (s : jsstring) :
  matchTag (c :: s)
  = if (c =? 60)%N
    then match s with
         | d :: rest =>
           if (d =? 62)%N then None
           else (fun j => (j + 3)%nat) <$> indexOf rest [62%N]
         | [] => None
         end
    else None.
Proof.
  destruct (N.eqb_spec c 60) as [->|Hc]; [destruct s; reflexivity|].
  destruct s as [|d rest];
    (destruct c as [|p]; [reflexivity|];
     repeat (destruct p as [p|p|]; try reflexivity));
    exfalso; apply Hc; reflexivity.
Qed.

(** Where the tag pattern does not match. *)
Lemma matchTag_none (s : jsstring) :
  matchTag s = None
  <-> forall d rest, s = 60%N :: d :: rest -> d = 62%N \/ ~ (62%N ∈ rest).
Proof.
  destruct s as [|c s].
  { split; [intros _ d rest Heq; discriminate Heq|reflexivity]. }
  rewrite matchTag_cons. split.
  - intros Hnone d rest Heq. injection Heq as -> ->.
    change (60 =? 60)%N with true in Hnone. cbv iota in Hnone.
    destruct (N.eqb_spec d 62) as [->|Hd]; [left; reflexivity|right].
    apply (indexFrom_absent rest 62 0). unfold indexOf in Hnone.
    destruct (indexFrom rest [62%N] 0); [discriminate Hnone|reflexivity].
  - intros Hs. destruct (N.eqb_spec c 60) as [->|Hc]; [|reflexivity].
    destruct s as [|d rest]; [reflexivity|].
    destruct (N.eqb_spec d 62) as [->|Hd]; [reflexivity|].
    destruct (Hs d rest eq_refl) as [->|Hout]; [contradiction|].
    unfold indexOf. apply (indexFrom_absent rest 62 0) in Hout.
    rewrite Hout. reflexivity.
Qed.

Lemma matchTag_other (c : N) (s : jsstring) :
  c <> 60%N -> matchTag (c :: s) = None.
Proof.
  intros Hc. apply matchTag_none. intros d rest Heq.
  injection Heq as -> _. contradiction.
Qed.

Lemma tagFree_cons (c : N) (s : jsstring) :
  tagFree (c :: s) <-> matchTag (c :: s) = None /\ tagFree s.
Proof.
  unfold tagFree. split.
  - intros Hfree. split; [exact (Hfree 0%nat)|].
    intros i. exact (Hfree (S i)).
  - intros [Hhead Hrest] [|i]; [exact Hhead|exact (Hrest i)].
Qed.

Lemma tagFree_nil : tagFree [].
Proof. intros i. rewrite drop_nil. reflexivity. Qed.

Lemma tagFree_app_l (a s : jsstring) :
  ~ (60%N ∈ a) -> tagFree s -> tagFree (a ++ s).
Proof.
  induction a as [|c a IH]; intros Hout Hs; [exact Hs|].
  apply not_elem_of_cons in Hout as [Hc Hout].
  simpl. apply tagFree_cons. split; [apply matchTag_other; congruence|].
  apply IH; assumption.
Qed.

Lemma tagFree_drop (n : nat) (s : jsstring) : tagFree s -> tagFree (drop n s).
Proof. intros Hs i. rewrite drop_drop. apply Hs. Qed.

Lemma tagFree_prefix (p q : jsstring) : tagFree (p ++ q) -> tagFree p.
Proof.
  induction p as [|c p IH]; intros Hfree; [apply tagFree_nil|].
  simpl in Hfree. apply tagFree_cons in Hfree as [Hhead Hrest].
  apply tagFree_cons. split; [|apply IH, Hrest].
  apply matchTag_none. intros d rest Heq.
  injection Heq as -> Hp.
  rewrite matchTag_none in Hhead.
  destruct (Hhead d (rest ++ q)) as [->|Hout];
    [rewrite Hp; reflexivity|left; reflexivity|].
  right. intros Hin. apply Hout. apply elem_of_app. left. exact Hin.
Qed.

(** An opening bracket that is kept starts no tag when none started
    there before and no closing bracket is added behind it. *)
Lemma kept_bracket (rest out : jsstring) :
  matchTag (60%N :: rest) = None ->
  (rest = [] -> out = []) ->
  (forall rest', rest = 62%N :: rest' -> exists out', out = 62%N :: out') ->
  (~ (62%N ∈ rest) -> ~ (62%N ∈ out)) ->
  matchTag (60%N :: out) = None.
Proof.
  intros Hnone Hnil Hclose Hkeep. rewrite matchTag_none in Hnone.
  apply matchTag_none. intros d out' Heq. injection Heq as ->.
  destruct rest as [|e rest']; [discriminate (Hnil eq_refl)|].
  destruct (Hnone e rest' eq_refl) as [->|Hout].
  - destruct (Hclose rest' eq_refl) as (out'' & Heq).
    injection Heq as -> _. left. reflexivity.
  - destruct (N.eq_dec e 62%N) as [->|He].
    + destruct (Hclose rest' eq_refl) as (out'' & Heq).
      injection Heq as -> _. left. reflexivity.
    + right. intros Hin. apply Hkeep.
      * intros Hrest. apply elem_of_cons in Hrest as [Heq|Hrest];
          [congruence|contradiction].
      * right. exact Hin.
Qed.

(** After the replacement of the tags no tag is left. *)
Lemma replaceAll_tags (s : jsstring) (skip : nat) :
  tagFree (replaceAll matchTag (js " ") s skip).
Proof.
  revert skip. induction s as [|c rest IH]; intros skip;
    [apply tagFree_nil|].
  cbn [replaceAll]. destruct skip as [|k]; [|apply IH].
  destruct (matchTag (c :: rest)) as [[|n]|] eqn:Hmatch.
  - exfalso. rewrite matchTag_cons in Hmatch.
    destruct (c =? 60)%N; [|discriminate Hmatch].
    destruct rest as [|d rest']; [discriminate Hmatch|].
    destruct (d =? 62)%N; [discriminate Hmatch|].
    destruct (indexOf rest' [62%N]); simpl in Hmatch;
      [injection Hmatch as Hmatch; lia|discriminate Hmatch].
  - apply tagFree_app_l; [|apply IH].
    intros Hin. vm_compute in Hin. apply list_elem_of_singleton in Hin.
    discriminate Hin.
  - apply tagFree_cons. split; [|apply IH].
    destruct (N.eq_dec c 60%N) as [->|Hc]; [|apply matchTag_other, Hc].
    apply (kept_bracket rest); [exact Hmatch| | |].
    + intros ->. reflexivity.
    + intros rest' ->. cbn [replaceAll].
      rewrite (matchTag_other 62) by discriminate. eexists. reflexivity.
    + intros Hout Hin. apply replaceAll_units in Hin as [Hin|Hin];
        [|contradiction].
      vm_compute in Hin. apply list_elem_of_singleton in Hin.
      discriminate Hin.
Qed.

(** A replacement that neither matches at a bracket nor writes one keeps
    a text free of tags. *)
Lemma replaceAll_tagFree (matcher : Matcher) (by_ : jsstring) :
  (forall b rest n, b = 60%N \/ b = 62%N ->
     matcher (b :: rest) <> Some (S n)) ->
  ~ (60%N ∈ by_) -> ~ (62%N ∈ by_) ->
  forall s skip, tagFree s -> tagFree (replaceAll matcher by_ s skip).
Proof.
  intros Hblind Hopen Hclose.
  induction s as [|c rest IH]; intros skip Hfree; [apply tagFree_nil|].
  apply tagFree_cons in Hfree as [Hhead Hrest].
  cbn [replaceAll]. destruct skip as [|k]; [|apply IH, Hrest].
  assert (Hkept : tagFree (c :: replaceAll matcher by_ rest 0)).
  { apply tagFree_cons. split; [|apply IH, Hrest].
    destruct (N.eq_dec c 60%N) as [->|Hc]; [|apply matchTag_other, Hc].
    apply (kept_bracket rest); [exact Hhead| | |].
    - intros ->. reflexivity.
    - intros rest' ->. cbn [replaceAll].
      destruct (matcher (62%N :: rest')) as [[|n]|] eqn:Hmatch;
        try (eexists; reflexivity).
      exfalso. apply (Hblind 62%N rest' n); [right; reflexivity|exact Hmatch].
    - intros Hout Hin. apply replaceAll_units in Hin as [Hin|Hin];
        contradiction. }
  destruct (matcher (c :: rest)) as [[|n]|] eqn:Hmatch;
    [exact Hkept| |exact Hkept].
  apply tagFree_app_l; [exact Hopen|]. apply IH, Hrest.
Qed.

(** The literal patterns begin with an ampersand. *)
Lemma matchLiteral_head (p b : N) (pat rest : jsstring) (n : nat) :
  matchLiteral (p :: pat) (b :: rest) = Some n -> b = p.
Proof.
  unfold matchLiteral, startsWith, occursAt.
  destruct (bool_decide_reflect
              (take (length (p :: pat)) (drop 0 (b :: rest)) = p :: pat))
    as [Heq|Hne]; [|discriminate].
  intros _. simpl in Heq. injection Heq as -> _. reflexivity.
Qed.

Lemma nbsp_literal : js "&nbsp;" = [38; 110; 98; 115; 112; 59]%N.
Proof. vm_compute. reflexivity. Qed.

Lemma amp_literal : js "&amp;" = [38; 97; 109; 112; 59]%N.
Proof. vm_compute. reflexivity. Qed.

Lemma ampersand_literal : js "&" = [38%N].
Proof. vm_compute. reflexivity. Qed.

(** White space runs. *)
Lemma matchSpaces_none (s : jsstring) :
  matchSpaces s = None <-> (spaceRun s < 2)%nat.
Proof.
  unfold matchSpaces. destruct (Nat.leb_spec 2 (spaceRun s)) as [Hle|Hlt].
  - split; [discriminate|lia].
  - split; [intros _; exact Hlt|reflexivity].
Qed.

Lemma spaceRun_text (s : jsstring) :
  Telegram.startsWithText s -> spaceRun s = 0%nat.
Proof.
  destruct s as [|c s]; [reflexivity|].
  intros Htext. simpl. rewrite (Htext c eq_refl). reflexivity.
Qed.

Lemma spaceRun_app (p q : jsstring) :
  (spaceRun p <= spaceRun (p ++ q))%nat.
Proof.
  induction p as [|c p IH]; simpl; [lia|].
  destruct (is_space c); lia.
Qed.

Lemma singleSpaced_cons (c : N) (s : jsstring) :
  singleSpaced (c :: s) <-> matchSpaces (c :: s) = None /\ singleSpaced s.
Proof.
  unfold singleSpaced. split.
  - intros Hfree. split; [exact (Hfree 0%nat)|].
    intros i. exact (Hfree (S i)).
  - intros [Hhead Hrest] [|i]; [exact Hhead|exact (Hrest i)].
Qed.

Lemma singleSpaced_nil : singleSpaced [].
Proof. intros i. rewrite drop_nil. reflexivity. Qed.

Lemma singleSpaced_drop (n : nat) (s : jsstring) :
  singleSpaced s -> singleSpaced (drop n s).
Proof. intros Hs i. rewrite drop_drop. apply Hs. Qed.

Lemma singleSpaced_prefix (p q : jsstring) :
  singleSpaced (p ++ q) -> singleSpaced p.
Proof.
  induction p as [|c p IH]; intros Hfree; [apply singleSpaced_nil|].
  simpl in Hfree. apply singleSpaced_cons in Hfree as [Hhead Hrest].
  apply singleSpaced_cons. split; [|apply IH, Hrest].
  apply matchSpaces_none. apply matchSpaces_none in Hhead.
  pose proof (spaceRun_app (c :: p) q) as Hle. simpl app in Hle. lia.
Qed.

(** Behind a run that is passed over the text goes on. *)
Lemma replaceAll_spaces_head (s : jsstring) (n : nat) :
  spaceRun s = n ->
  Telegram.startsWithText (replaceAll matchSpaces (js " ") s n).
Proof.
  revert n. induction s as [|c rest IH]; intros n Hrun; [discriminate|].
  cbn [replaceAll]. simpl in Hrun. destruct (is_space c) eqn:Hc.
  - destruct n as [|k]; [discriminate Hrun|]. apply IH. lia.
  - subst n.
    assert (Hnone : matchSpaces (c :: rest) = None).
    { apply matchSpaces_none. simpl. rewrite Hc. lia. }
    rewrite Hnone. intros d [= <-]. exact Hc.
Qed.

(** After the replacement of the runs of white space no run is left. *)
Lemma replaceAll_spaces (s : jsstring) (skip : nat) :
  singleSpaced (replaceAll matchSpaces (js " ") s skip).
Proof.
  revert skip. induction s as [|c rest IH]; intros skip;
    [apply singleSpaced_nil|].
  cbn [replaceAll]. destruct skip as [|k]; [|apply IH].
  assert (Hkept : (spaceRun (c :: rest) < 2)%nat ->
            singleSpaced (c :: replaceAll matchSpaces (js " ") rest 0)).
  { intros Hlt. apply singleSpaced_cons. split; [|apply IH].
    apply matchSpaces_none. simpl in Hlt |- *.
    destruct (is_space c); [|lia].
    rewrite spaceRun_text; [lia|]. apply replaceAll_spaces_head. lia. }
  unfold matchSpaces at 1.
  destruct (Nat.leb_spec 2 (spaceRun (c :: rest))) as [Hle|Hlt];
    [|apply Hkept, Hlt].
  destruct (spaceRun (c :: rest)) as [|n] eqn:Hrun; [lia|].
  rewrite space_literal. change ([32%N] ++ ?x) with (32%N :: x).
  rewrite <- space_literal.
  apply singleSpaced_cons. split; [|apply IH].
  apply matchSpaces_none. simpl.
  rewrite spaceRun_text; [lia|]. apply replaceAll_spaces_head.
  simpl in Hrun. destruct (is_space c); [lia|discriminate Hrun].
Qed.

(** What [trim] leaves is a part of the text, with text at both ends. *)
Lemma trimEnd_gap (s : jsstring) : exists gap, s = trimEnd s ++ gap.
Proof.
  destruct (trimStart_gap (rev s)) as (gap & Hs & _).
  exists (rev gap). unfold trimEnd.
  rewrite <- rev_app_distr, <- Hs, rev_involutive. reflexivity.
Qed.

Lemma trim_part (s : jsstring) :
  exists before after, s = before ++ trim s ++ after.
Proof.
  destruct (trimStart_gap s) as (before & Hs & _).
  destruct (trimEnd_gap (trimStart s)) as (after & Hend).
  exists before, after. unfold trim. rewrite <- Hend. exact Hs.
Qed.

Lemma trim_head (s : jsstring) : Telegram.startsWithText (trim s).
Proof.
  intros c Hhead. apply (trimStart_head s c).
  destruct (trimEnd_gap (trimStart s)) as (after & Hend).
  rewrite Hend. fold (trim s).
  destruct (trim s) as [|d text]; [discriminate Hhead|exact Hhead].
Qed.

Lemma trim_last (s : jsstring) (c : N) :
  last (trim s) = Some c -> is_space c = false.
Proof.
  unfold trim, trimEnd. intros Hlast.
  apply (trimStart_head (rev (trimStart s)) c).
  destruct (trimStart (rev (trimStart s))) as [|d text];
    [discriminate Hlast|].
  simpl in Hlast. rewrite last_snoc in Hlast. exact Hlast.
Qed.

Lemma tagFree_part (before text after : jsstring) :
  tagFree (before ++ text ++ after) -> tagFree text.
Proof.
  intros Hfree. apply (tagFree_prefix text after).
  apply (tagFree_drop (length before)) in Hfree.
  rewrite drop_app_length in Hfree. exact Hfree.
Qed.

Lemma singleSpaced_part (before text after : jsstring) :
  singleSpaced (before ++ text ++ after) -> singleSpaced text.
Proof.
  intros Hfree. apply (singleSpaced_prefix text after).
  apply (singleSpaced_drop (length before)) in Hfree.
  rewrite drop_app_length in Hfree. exact Hfree.
Qed.

End Replace.

(** X29. What the clean-up of a page fetched directly returns is plain
    text: the tag pattern matches nowhere in it, neither does the pattern
    of two or more white space characters, and it neither begins nor ends
    with white space. *)
Theorem cleanHtml_is_plain_text (html : jsstring) :
  Scrape.tagFree (Scrape.cleanHtml html)
  /\ Scrape.singleSpaced (Scrape.cleanHtml html)
  /\ (forall c, head (Scrape.cleanHtml html) = Some c -> is_space c = false)
  /\ (forall c, last (Scrape.cleanHtml html) = Some c -> is_space c = false).
Proof.
  unfold Scrape.cleanHtml. cbv zeta.
  set (blocks :=
         Scrape.replaceAll (Scrape.matchBlock (js "<footer") (js "</footer>"))
           [] _ 0).
  set (spaced := Scrape.replaceAll Scrape.matchSpaces (js " ") _ 0).
  assert (Hspaced : Scrape.singleSpaced spaced)
    by apply replaceAll_spaces.
  assert (Htags : Scrape.tagFree spaced).
  { subst spaced. apply replaceAll_tagFree.
    - intros b rest n Hb Hmatch.
      assert (Hnone : Scrape.matchSpaces (b :: rest) = None).
      { apply matchSpaces_none. simpl.
        destruct Hb as [-> | ->]; simpl; lia. }
      congruence.
    - rewrite space_literal. intros Hin.
      apply list_elem_of_singleton in Hin. discriminate Hin.
    - rewrite space_literal. intros Hin.
      apply list_elem_of_singleton in Hin. discriminate Hin.
    - apply replaceAll_tagFree.
      + rewrite amp_literal. intros b rest n Hb Hmatch.
        apply matchLiteral_head in Hmatch.
        destruct Hb; subst b; discriminate Hmatch.
      + rewrite ampersand_literal. intros Hin.
        apply list_elem_of_singleton in Hin. discriminate Hin.
      + rewrite ampersand_literal. intros Hin.
        apply list_elem_of_singleton in Hin. discriminate Hin.
      + apply replaceAll_tagFree.
        * rewrite nbsp_literal. intros b rest n Hb Hmatch.
          apply matchLiteral_head in Hmatch.
          destruct Hb; subst b; discriminate Hmatch.
        * rewrite space_literal. intros Hin.
          apply list_elem_of_singleton in Hin. discriminate Hin.
        * rewrite space_literal. intros Hin.
          apply list_elem_of_singleton in Hin. discriminate Hin.
        * apply replaceAll_tags. }
  clearbody spaced. clear blocks.
  destruct (trim_part spaced) as (before & after & Hpart).
  split; [|split; [|split]].
  - apply (tagFree_part before _ after). rewrite <- Hpart. exact Htags.
  - apply (singleSpaced_part before _ after). rewrite <- Hpart.
    exact Hspaced.
  - apply trim_head.
  - apply trim_last.
Qed.

(** X30. When the reader service gives nothing and the direct fetch ends
    in a status that is not a success or in an exception, [fetchPage]
    returns a text that begins with FAILED and names the status or the
    message, and [extractFromUrl] reports it as a page it could not access,
    whatever the extraction model would answer. *)
Theorem failed_fetch_is_reported (reader : jsstring -> option jsstring)
    (direct : jsstring -> Scrape.DirectReply)
    (generate : jsstring -> jsstring -> jsstring -> ToolReply)
    (url extractionTask : jsstring) :
  reader url = None ->
  (forall html, direct url <> Scrape.DirectText html) ->
  exists reason,
    (direct url = Scrape.DirectThrows reason
     \/ exists code, direct url = Scrape.DirectStatus code
                     /\ reason = js "HTTP " ++ nat_to_string code)
    /\ Scrape.fetchPage reader direct url = js "FAILED: " ++ reason
    /\ Scrape.extractFromUrl (Scrape.fetchPage reader direct) generate url
         extractionTask
       = js "Could not access " ++ url ++ js ": FAILED: " ++ reason.
Proof.
  intros Hreader Hdirect.
  assert (Hfailed : forall reason,
            Scrape.fetchPage reader direct url = js "FAILED: " ++ reason ->
            Scrape.extractFromUrl (Scrape.fetchPage reader direct) generate
              url extractionTask
            = js "Could not access " ++ url ++ js ": FAILED: " ++ reason).
  { intros reason Hpage. unfold Scrape.extractFromUrl. rewrite Hpage.
    change (js "FAILED: " ++ reason)
      with (js "FAILED" ++ (js ": " ++ reason)) at 1.
    rewrite startsWith_app. reflexivity. }
  unfold Scrape.fetchPage in *. rewrite Hreader in *.
  destruct (direct url) as [html|code|msg] eqn:Hreply.
  - destruct (Hdirect html eq_refl).
  - exists (js "HTTP " ++ nat_to_string code).
    split; [right; exists code; split; reflexivity|].
    split; [reflexivity|]. apply Hfailed. reflexivity.
  - exists msg. split; [left; reflexivity|].
    split; [reflexivity|]. apply Hfailed. reflexivity.
Qed.

Lemma failed_fetch_is_reported_witness :
  Scrape.extractFromUrl
    (Scrape.fetchPage (fun _ => None) (fun _ => Scrape.DirectStatus 404))
    (fun _ _ _ => ToolText (js "Price: 0.04 USD"))
    (js "https://acme.example") (js "price per SMS")
  = js "Could not access https://acme.example: FAILED: HTTP 404".
Proof.
  destruct (failed_fetch_is_reported (fun _ => None)
              (fun _ => Scrape.DirectStatus 404)
              (fun _ _ _ => ToolText (js "Price: 0.04 USD"))
              (js "https://acme.example") (js "price per SMS"))
    as (reason & [Hthrows|(code & Hcode & Hreason)] & _ & Hanswer);
    [reflexivity|intros html; discriminate|discriminate Hthrows|].
  injection Hcode as <-. subst reason.
  etransitivity; [exact Hanswer|]. vm_compute. reflexivity.
Defined.
